(** * Visit-telemetry ingestion: a shallow embedding of [app.py] and [server.py]

    The repository holds two ingestion servers over the same sinks: the
    framework front-end [app.py] and the raw [http.server] front-end
    [server.py].  The functions [write_db] and [get_stats] are textually
    the same in both files and are embedded once; [send_to_logtail],
    [append_file] and the request handlers differ and live in the modules
    [App] and [Server]. *)

From Stdlib Require Import String Ascii List ZArith Lia Bool Arith Permutation.
From Stdlib Require Import DecimalString.
Import ListNotations.
Open Scope string_scope.
Set Warnings "-register-all".

(** ** Text: [str.split], [str.strip] *)

Module Text.

(** [s.split(sep)] for a one-character separator: never the empty list. *)
Fixpoint split (sep : ascii) (s : string) : list string :=
  match s with
  | "" => [""]
  | String c s' =>
      if Ascii.eqb c sep then "" :: split sep s'
      else match split sep s' with
           | t :: ts => String c t :: ts
           | [] => [String c ""]
           end
  end.

(** [l[0]] on a list known to be non-empty. *)
Definition item0 (l : list string) : string := hd "" l.

(** [str.isspace] on the code points below 256, the range of a header
    value decoded as ISO-8859-1. *)
Definition isspace (c : ascii) : bool :=
  let n := nat_of_ascii c in
  (((9 <=? n) && (n <=? 13)) || ((28 <=? n) && (n <=? 32))
   || (n =? 133) || (n =? 160))%nat.

Fixpoint lstrip (s : string) : string :=
  match s with
  | "" => ""
  | String c s' => if isspace c then lstrip s' else s
  end.

Fixpoint rstrip (s : string) : string :=
  match s with
  | "" => ""
  | String c s' =>
      match rstrip s' with
      | "" => if isspace c then "" else String c ""
      | t => String c t
      end
  end.

(** [s.strip()] *)
Definition strip (s : string) : string := rstrip (lstrip s).

(** A Python string is falsy exactly when it is empty. *)
Definition truthy (s : string) : bool :=
  match s with "" => false | _ => true end.

(** [a or b] on strings. *)
Definition str_or (a b : string) : string := if truthy a then a else b.

Fixpoint all_space (s : string) : bool :=
  match s with
  | "" => true
  | String c s' => isspace c && all_space s'
  end.

Fixpoint has_char (x : ascii) (s : string) : bool :=
  match s with
  | "" => false
  | String c s' => Ascii.eqb c x || has_char x s'
  end.

Definition first_char_space (s : string) : bool :=
  match s with "" => false | String c _ => isspace c end.

Fixpoint last_char_space (s : string) : bool :=
  match s with
  | "" => false
  | String c "" => isspace c
  | String _ s' => last_char_space s'
  end.

(** [startswith]: [p] is a prefix of [s]. *)
Fixpoint startswith (s p : string) {struct p} : bool :=
  match p, s with
  | "", _ => true
  | String a p', String b s' => Ascii.eqb a b && startswith s' p'
  | String _ _, "" => false
  end.

(** [sub in s] *)
Fixpoint contains (sub s : string) : bool :=
  startswith s sub
  || match s with
     | "" => false
     | String _ s' => contains sub s'
     end.

End Text.


(** ** Python values and dictionaries *)

(** A Python [float].  Neither file computes with one: a float only
    travels from [json.loads] to [json.dumps] and into the database.  It
    is therefore given by what the database engine makes of it:
    not-a-number, or any other float (the infinities included) with the
    text the engine renders it as when a TEXT column receives it. *)
Inductive float : Type :=
| NaN
| Float (text : string).

(** The objects [json.loads] can return.  A [str] is a sequence of
    characters; the lone surrogates that an escape such as [\ud800] puts
    into a Python [str] have no counterpart here. *)
Inductive value : Type :=
| JNull
| JBool (b : bool)
| JInt (n : Z)
| JFloat (x : float)
| JStr (s : string)
| JArr (items : list value)
| JObj (members : list (string * value)).

(** A [dict] with string keys, in insertion order. *)
Definition dict : Type := list (string * value).

(** [d[k]] when present. *)
Fixpoint dict_lookup {V : Type} (k : string) (d : list (string * V)) : option V :=
  match d with
  | [] => None
  | (k', v) :: d' => if String.eqb k' k then Some v else dict_lookup k d'
  end.

(** [d.get(k, default)] *)
Definition dict_get (d : dict) (k : string) (default : value) : value :=
  match dict_lookup k d with
  | Some v => v
  | None => default
  end.

(** [d[k] = v]: an existing key keeps its position. *)
Fixpoint dict_setitem {V : Type} (k : string) (v : V) (d : list (string * V))
  : list (string * V) :=
  match d with
  | [] => [(k, v)]
  | (k', v') :: d' =>
      if String.eqb k' k then (k, v) :: d' else (k', v') :: dict_setitem k v d'
  end.

(** [d.update(other)] *)
Definition dict_update (d other : dict) : dict :=
  fold_left (fun acc kv => dict_setitem (fst kv) (snd kv) acc) other d.

(** [d.setdefault(k, v)] *)
Definition dict_setdefault (k : string) (v : value) (d : dict) : dict :=
  match dict_lookup k d with
  | Some _ => d
  | None => dict_setitem k v d
  end.

Definition dict_keys {V : Type} (d : list (string * V)) : list string :=
  map fst d.

(** [isinstance(payload, dict)] followed by [entry.update(payload)]. *)
Definition update_if_dict (entry : dict) (payload : value) : dict :=
  match payload with
  | JObj members => dict_update entry members
  | _ => entry
  end.

(** The text produced by [json.dumps(obj, ensure_ascii=...)], kept
    symbolic: the sinks store it, nothing in the sources reads it back. *)
Inductive document : Type :=
| json_dumps (ensure_ascii : bool) (obj : dict).

(** ** [datetime] *)

Module Datetime.

Record date : Type := mkdate { d_year : Z; d_month : Z; d_day : Z }.

Record datetime : Type := mkdatetime {
  year : Z; month : Z; day : Z;
  hour : Z; minute : Z; second : Z; microsecond : Z }.

(** [dt.date()] *)
Definition date_of (dt : datetime) : date :=
  mkdate (year dt) (month dt) (day dt).

(** The ranges Python enforces on construction (the length of each month
    is not needed below and is left out, which only widens the domain). *)
Definition valid_date (d : date) : Prop :=
  (1 <= d_year d <= 9999 /\ 1 <= d_month d <= 12 /\ 1 <= d_day d <= 31)%Z.

Definition valid_datetime (dt : datetime) : Prop :=
  valid_date (date_of dt)
  /\ (0 <= hour dt < 24 /\ 0 <= minute dt < 60 /\ 0 <= second dt < 60
      /\ 0 <= microsecond dt < 1000000)%Z.

Definition digit (n : Z) : ascii := ascii_of_nat (48 + Z.to_nat (n mod 10)).

(** ["%0wd" % n] for [0 <= n < 10^w]. *)
Fixpoint zfill (w : nat) (n : Z) : string :=
  match w with
  | O => ""
  | S w' => zfill w' (n / 10) ++ String (digit n) ""
  end.

(** [date.isoformat()]: [YYYY-MM-DD]. *)
Definition date_isoformat (d : date) : string :=
  zfill 4 (d_year d) ++ "-" ++ zfill 2 (d_month d) ++ "-" ++ zfill 2 (d_day d).

(** [datetime.isoformat()]: the fraction is printed only when non-zero. *)
Definition isoformat (dt : datetime) : string :=
  date_isoformat (date_of dt) ++ "T" ++ zfill 2 (hour dt) ++ ":"
  ++ zfill 2 (minute dt) ++ ":" ++ zfill 2 (second dt)
  ++ (if (microsecond dt =? 0)%Z then "" else "." ++ zfill 6 (microsecond dt)).

End Datetime.

(** ** Exceptions and results *)

(** The exception classes that occur; all derive from [Exception]. *)
Inductive exn : Type :=
| JSONDecodeError | UnicodeDecodeError | ValueError | OverflowError
| AttributeError | ImportError | OSError | URLError
| OperationalError | ProgrammingError | RecursionError.

Inductive result (A : Type) : Type :=
| Ok (a : A)
| Raise (e : exn).
Arguments Ok {A} a.
Arguments Raise {A} e.

Definition is_JSONDecodeError (e : exn) : bool :=
  match e with JSONDecodeError => true | _ => false end.

(** ** The embedded engine: the [visits] table of SQLite *)

Module Sqlite.

(** Values of the engine: the four storage classes that occur, a real
    being given by its text as in [float].  The last two constructors
    stand for what a column of INTEGER affinity keeps of a text or of a
    real: for a text, the number it spells when it is a well-formed
    numeric literal and the text itself otherwise; for a real, the integer
    equal to it when there is one and the real itself otherwise.  Which of
    the two it is is left open; it is never NULL. *)
Inductive sqlval : Type :=
| NULL
| INTEGER (n : Z)
| REAL (text : string)
| TEXT (s : string)
| NUMERIC_TEXT (s : string)
| NUMERIC_REAL (text : string).

(** How the [sqlite3] module adapts a Python object passed as a statement
    parameter: [None], [int] (and [bool], a subclass), [float] and [str]
    are supported; an [int] outside 64 bits overflows; a NaN is bound as
    NULL; [list] and [dict] are refused. *)
Definition bind (v : value) : result sqlval :=
  match v with
  | JNull => Ok NULL
  | JBool b => Ok (INTEGER (if b then 1 else 0))
  | JInt n =>
      if ((- 2 ^ 63 <=? n) && (n <? 2 ^ 63))%Z then Ok (INTEGER n)
      else Raise OverflowError
  | JFloat NaN => Ok NULL
  | JFloat (Float text) => Ok (REAL text)
  | JStr s => Ok (TEXT s)
  | JArr _ => Raise ProgrammingError
  | JObj _ => Raise ProgrammingError
  end.

Fixpoint bind_all (vs : list value) : result (list sqlval) :=
  match vs with
  | [] => Ok []
  | v :: vs' =>
      match bind v with
      | Raise e => Raise e
      | Ok x =>
          match bind_all vs' with
          | Raise e => Raise e
          | Ok xs => Ok (x :: xs)
          end
      end
  end.

(** The type affinity of a column. *)
Inductive affinity : Type := TEXT_AFFINITY | INTEGER_AFFINITY.

(** The declared types of [init_sqlite]'s CREATE TABLE: [sessionStarted]
    is INTEGER, every other column of the INSERT is TEXT. *)
Definition column_affinity (c : string) : affinity :=
  if String.eqb c "sessionStarted" then INTEGER_AFFINITY else TEXT_AFFINITY.

(** What a column keeps of a bound value.  A TEXT column turns a number
    into its text; an INTEGER column keeps an integer and converts what it
    can of the rest; NULL stays NULL under both. *)
Definition store (a : affinity) (x : sqlval) : sqlval :=
  match a, x with
  | TEXT_AFFINITY, INTEGER n => TEXT (NilZero.string_of_int (Z.to_int n))
  | TEXT_AFFINITY, REAL text => TEXT text
  | INTEGER_AFFINITY, REAL text => NUMERIC_REAL text
  | INTEGER_AFFINITY, TEXT s => NUMERIC_TEXT s
  | _, _ => x
  end.

(** The cells of a new row: each bound parameter under the column of the
    same position of the INSERT's column list. *)
Definition store_row (columns : list string) (xs : list sqlval)
  : list (string * sqlval) :=
  map (fun cx => (fst cx, store (column_affinity (fst cx)) (snd cx)))
      (combine columns xs).

(** A stored row: the value kept in each column named in the INSERT, and
    the [payload] text. *)
Record row : Type := mkrow {
  cells : list (string * sqlval);
  payload : document }.

Definition table : Type := list row.

Fixpoint assoc (c : string) (l : list (string * sqlval)) : sqlval :=
  match l with
  | [] => NULL
  | (c', v) :: l' => if String.eqb c' c then v else assoc c l'
  end.

(** The value of column [c] in row [r]. *)
Definition cell (c : string) (r : row) : sqlval := assoc c (cells r).

(** A value read as text, the way a column of TEXT affinity presents it
    to a comparison: an integer by its decimal text, NULL stays NULL. *)
Definition column_text (v : sqlval) : option string :=
  match v with
  | NULL => None
  | INTEGER n => Some (NilZero.string_of_int (Z.to_int n))
  | REAL text => Some text
  | TEXT s => Some s
  | NUMERIC_TEXT s => Some s
  | NUMERIC_REAL text => Some text
  end.

(** [column = 'lit'] under the default BINARY collation; NULL is never
    equal to anything. *)
Definition text_eq (v : sqlval) (lit : string) : bool :=
  match column_text v with
  | Some s => String.eqb s lit
  | None => false
  end.

(** ASCII case folding used by LIKE. *)
Definition lower (c : ascii) : ascii :=
  let n := nat_of_ascii c in
  if ((65 <=? n) && (n <=? 90))%nat then ascii_of_nat (n + 32) else c.

(** [s LIKE pat] without ESCAPE: [%] matches any run of characters, [_]
    one character, any other character itself up to ASCII case. *)
Fixpoint like (pat : string) : string -> bool :=
  match pat with
  | "" => fun s => match s with "" => true | _ => false end
  | String p pat' =>
      if Ascii.eqb p "%" then
        fix any (s : string) : bool :=
          like pat' s || match s with "" => false | String _ s' => any s' end
      else if Ascii.eqb p "_" then
        fun s => match s with "" => false | String _ s' => like pat' s' end
      else
        fun s =>
          match s with
          | "" => false
          | String c s' => Ascii.eqb (lower p) (lower c) && like pat' s'
          end
  end.

Definition text_like (v : sqlval) (pat : string) : bool :=
  match column_text v with
  | Some s => like pat s
  | None => false
  end.

Fixpoint non_null (l : list (option string)) : list string :=
  match l with
  | [] => []
  | Some s :: l' => s :: non_null l'
  | None :: l' => non_null l'
  end.

(** [COUNT( * ) ... WHERE p] *)
Definition count_where (p : row -> bool) (t : table) : Z :=
  Z.of_nat (List.length (filter p t)).

(** [COUNT(DISTINCT c)]: NULLs are not counted. *)
Definition count_distinct (c : string) (t : table) : Z :=
  Z.of_nat (List.length
    (nodup string_dec (non_null (map (fun r => column_text (cell c r)) t)))).

End Sqlite.

(** ** Statements issued by the program *)

(** The SELECTs of [get_stats]; each returns one row with one count. *)
Inductive select : Type :=
| count_all                                   (* SELECT COUNT( * ) FROM visits *)
| count_event (kind : string)                 (* ... WHERE event='kind' *)
| count_distinct_sessionId                    (* SELECT COUNT(DISTINCT sessionId) ... *)
| count_event_current_date (kind : string)    (* ... AND ts::date = current_date *)
| count_event_ts_like (kind pattern : string) (* ... AND ts LIKE ?, (pattern,) *).

(** The parameter tuple of the INSERT. *)
Record params : Type := mkparams {
  keyed : list value;
  payload_json : document }.

(** The column list of the INSERT, [payload] apart. *)
Definition insert_columns : list string :=
  ["ts"; "method"; "ip"; "requestPath"; "path"; "referrer"; "userAgent";
   "event"; "sessionId"; "sessionStarted"; "utm"].

(** The embedded engine answering a SELECT. *)
Definition sqlite_select (q : select) (t : Sqlite.table) : result Z :=
  match q with
  | count_all => Ok (Sqlite.count_where (fun _ => true) t)
  | count_event kind =>
      Ok (Sqlite.count_where
            (fun r => Sqlite.text_eq (Sqlite.cell "event" r) kind) t)
  | count_distinct_sessionId => Ok (Sqlite.count_distinct "sessionId" t)
  | count_event_ts_like kind pattern =>
      Ok (Sqlite.count_where
            (fun r => Sqlite.text_eq (Sqlite.cell "event" r) kind
                      && Sqlite.text_like (Sqlite.cell "ts" r) pattern) t)
  | count_event_current_date _ => Raise OperationalError
  end.

(** The embedded engine executing the INSERT: parameters are bound in
    order, and when all of them bind the row is appended, each value as
    its column keeps it. *)
Definition sqlite_insert (p : params) (t : Sqlite.table) : result Sqlite.table :=
  match Sqlite.bind_all (keyed p) with
  | Raise e => Raise e
  | Ok xs =>
      Ok (t ++ [Sqlite.mkrow (Sqlite.store_row insert_columns xs)
                             (payload_json p)])%list
  end.

(** ** The process state and the outside world *)

(** Entry into a sink function, recorded in call order. *)
Inductive call : Type :=
| call_send_to_logtail (entry : dict)
| call_append_file (entry : dict)
| call_write_db (entry : dict).

(** Module globals and the state of the three destinations.  The
    networked connection is represented by the INSERT parameter tuples the
    server accepted through it; the embedded one by its [visits] table. *)
Record world : Type := mkworld {
  LOGTAIL_TOKEN : option string;
  PG_CONN : option (list params);
  SQLITE_CONN : option Sqlite.table;
  collector : list document;
  visits_log : list document;
  stderr : list string;
  calls : list call }.

(** What the environment does during one request: the clock, and for
    every external operation whether it raises.  How the networked server
    evaluates [to_timestamp], [::date] and [current_date] is not in the
    sources, so its answers are taken as given.  For the embedded INSERT,
    [sqlite_insert_error] is the exception the engine raises from
    [execute] or from [commit], and [sqlite_row_pending] tells whether the
    row is then part of the connection's open transaction all the same: a
    [commit] that fails after [execute] went through leaves it there,
    where the later SELECTs of this connection see it. *)
Record env : Type := mkenv {
  utcnow : Datetime.datetime;
  urlopen_error : option exn;
  mkdir_error : option exn;
  log_write_error : option exn;
  pg_insert_error : option exn;
  pg_select : select -> result Z;
  sqlite_insert_error : option exn;
  sqlite_row_pending : bool;
  sqlite_select_error : select -> option exn }.

(** Computations that read the environment, update the world and may
    raise. *)
Definition M (A : Type) : Type := env -> world -> world * result A.

Definition ret {A : Type} (a : A) : M A := fun _ w => (w, Ok a).

Definition raise {A : Type} (e : exn) : M A := fun _ w => (w, Raise e).

Definition bind {A B : Type} (m : M A) (k : A -> M B) : M B :=
  fun ev w =>
    match m ev w with
    | (w', Ok a) => k a ev w'
    | (w', Raise e) => (w', Raise e)
    end.

(** [try: body / except <classes> as err: handler], where [catches] tells
    whether an exception is an instance of the listed classes. *)
Definition try_except_on {A : Type} (catches : exn -> bool) (body : M A)
  (handler : exn -> M A) : M A :=
  fun ev w =>
    match body ev w with
    | (w', Ok a) => (w', Ok a)
    | (w', Raise e) => if catches e then handler e ev w' else (w', Raise e)
    end.

(** [except Exception]: every class of [exn] derives from [Exception]. *)
Definition try_except {A : Type} (body : M A) (handler : exn -> M A) : M A :=
  try_except_on (fun _ => true) body handler.

Declare Scope monad_scope.
Delimit Scope monad_scope with monad.
Notation "x <- m ;; k" := (bind m (fun x => k))
  (at level 61, m at next level, right associativity) : monad_scope.
Notation "m ;; k" := (bind m (fun _ => k))
  (at level 61, right associativity) : monad_scope.
Open Scope monad_scope.

Definition ask {A : Type} (f : env -> A) : M A := fun ev w => (w, Ok (f ev)).

Definition read {A : Type} (f : world -> A) : M A := fun _ w => (w, Ok (f w)).

Definition modify (f : world -> world) : M unit := fun _ w => (f w, Ok tt).

Definition set_PG_CONN (c : option (list params)) (w : world) : world :=
  mkworld (LOGTAIL_TOKEN w) c (SQLITE_CONN w) (collector w) (visits_log w)
          (stderr w) (calls w).

Definition set_SQLITE_CONN (c : option Sqlite.table) (w : world) : world :=
  mkworld (LOGTAIL_TOKEN w) (PG_CONN w) c (collector w) (visits_log w)
          (stderr w) (calls w).

Definition add_collector (d : document) (w : world) : world :=
  mkworld (LOGTAIL_TOKEN w) (PG_CONN w) (SQLITE_CONN w) (collector w ++ [d])
          (visits_log w) (stderr w) (calls w).

Definition add_visits_log (d : document) (w : world) : world :=
  mkworld (LOGTAIL_TOKEN w) (PG_CONN w) (SQLITE_CONN w) (collector w)
          (visits_log w ++ [d]) (stderr w) (calls w).

Definition add_stderr (msg : string) (w : world) : world :=
  mkworld (LOGTAIL_TOKEN w) (PG_CONN w) (SQLITE_CONN w) (collector w)
          (visits_log w) (stderr w ++ [msg]) (calls w).

Definition add_call (c : call) (w : world) : world :=
  mkworld (LOGTAIL_TOKEN w) (PG_CONN w) (SQLITE_CONN w) (collector w)
          (visits_log w) (stderr w) (calls w ++ [c]).

(** [print(msg, err, file=sys.stderr)] *)
Definition print_stderr (msg : string) : M unit := modify (add_stderr msg).

Definition called (c : call) : M unit := modify (add_call c).

(** An external operation that raises when the environment says so. *)
Definition attempt (err : env -> option exn) : M unit :=
  fun ev w =>
    match err ev with
    | Some e => (w, Raise e)
    | None => (w, Ok tt)
    end.

(** [urlopen(req, timeout=2)] with body [data]. *)
Definition urlopen (data : document) : M unit :=
  attempt urlopen_error ;; modify (add_collector data).

(** [with LOG_PATH.open("a") as f: f.write(line + "\n")] *)
Definition log_append (line : document) : M unit :=
  attempt log_write_error ;; modify (add_visits_log line).

(** [if not LOGTAIL_TOKEN] *)
Definition token_missing (t : option string) : bool :=
  match t with
  | None => true
  | Some s => negb (Text.truthy s)
  end.

(** ** Storage backend: [write_db] and [get_stats] (same text in both files) *)

(** The parameters taken from the entry; both branches of [write_db] pass
    the same eleven [entry.get] results, in this order. *)
Definition insert_params (entry : dict) : list value :=
  [ dict_get entry "ts" (JStr "");
    dict_get entry "method" (JStr "");
    dict_get entry "ip" (JStr "");
    dict_get entry "requestPath" (JStr "");
    dict_get entry "path" (JStr "");
    dict_get entry "referrer" (JStr "");
    dict_get entry "userAgent" (JStr "");
    dict_get entry "event" (JStr "");
    dict_get entry "sessionId" (JStr "");
    dict_get entry "sessionStarted" (JInt 0);
    dict_get entry "utm" (JStr "") ].

(** [with PG_CONN.cursor() as cur: cur.execute(INSERT ..., params)] *)
Definition pg_execute_insert (accepted : list params) (p : params) : M unit :=
  attempt pg_insert_error ;;
  modify (set_PG_CONN (Some (accepted ++ [p])%list)).

(** [with DB_LOCK: SQLITE_CONN.execute(INSERT ..., params); SQLITE_CONN.commit()].
    A parameter that does not bind raises before the engine runs.  When
    the engine raises, the row is on the connection or not as the
    environment says. *)
Definition sqlite_execute_insert (p : params) : M unit :=
  conn <- read SQLITE_CONN ;;
  match conn with
  | None => raise AttributeError
  | Some t =>
      match sqlite_insert p t with
      | Raise e => raise e
      | Ok t' =>
          failure <- ask sqlite_insert_error ;;
          match failure with
          | None => modify (set_SQLITE_CONN (Some t'))
          | Some e =>
              pending <- ask sqlite_row_pending ;;
              (if pending then modify (set_SQLITE_CONN (Some t'))
               else ret tt) ;;
              raise e
          end
      end
  end.

Definition write_db (entry : dict) : M unit :=
  called (call_write_db entry) ;;
  try_except
    (let payload_json := json_dumps false entry in
     pg <- read PG_CONN ;;
     match pg with
     | Some accepted =>
         pg_execute_insert accepted (mkparams (insert_params entry) payload_json)
     | None =>
         sqlite_execute_insert (mkparams (insert_params entry) payload_json)
     end)
    (fun err => print_stderr "DB write error:").

(** [cur.execute(q); cur.fetchone()[0]] on the networked connection. *)
Definition pg_fetch (q : select) : M Z :=
  fun ev w => (w, pg_select ev q).

(** The same on the embedded connection, under [DB_LOCK]. *)
Definition sqlite_fetch (q : select) : M Z :=
  fun ev w =>
    match SQLITE_CONN w with
    | None => (w, Raise AttributeError)
    | Some t =>
        match sqlite_select_error ev q with
        | Some e => (w, Raise e)
        | None => (w, sqlite_select q t)
        end
    end.

(** A run of statements [cur.execute(q); stats[k] = cur.fetchone()[0]].
    It stops at the first statement that raises; the dict keeps what was
    assigned before, and the exception is handed to the [except] clause. *)
Fixpoint assign_counts (fetch : select -> M Z) (stmts : list (string * select))
  (stats : list (string * Z)) : M (list (string * Z) * option exn) :=
  match stmts with
  | [] => ret (stats, None)
  | (k, q) :: rest =>
      fun ev w =>
        match fetch q ev w with
        | (w', Ok n) => assign_counts fetch rest (dict_setitem k n stats) ev w'
        | (w', Raise e) => (w', Ok (stats, Some e))
        end
  end.

Definition pg_statements : list (string * select) :=
  [ ("totalEvents", count_all);
    ("visits", count_event "visit");
    ("clicks", count_event "click");
    ("exits", count_event "exit");
    ("uniqueSessions", count_distinct_sessionId);
    ("visitsToday", count_event_current_date "visit");
    ("clicksToday", count_event_current_date "click") ].

Definition sqlite_statements (today : string) : list (string * select) :=
  [ ("totalEvents", count_all);
    ("visits", count_event "visit");
    ("clicks", count_event "click");
    ("exits", count_event "exit");
    ("uniqueSessions", count_distinct_sessionId);
    ("visitsToday", count_event_ts_like "visit" (today ++ "%"));
    ("clicksToday", count_event_ts_like "click" (today ++ "%")) ].

Definition zero_stats : list (string * Z) :=
  [ ("totalEvents", 0%Z); ("visits", 0%Z); ("clicks", 0%Z); ("exits", 0%Z);
    ("uniqueSessions", 0%Z); ("visitsToday", 0%Z); ("clicksToday", 0%Z) ].

Definition get_stats : M (list (string * Z)) :=
  now <- ask utcnow ;;
  let today := Datetime.date_isoformat (Datetime.date_of now) in
  let stats := zero_stats in
  pg <- read PG_CONN ;;
  outcome <- match pg with
             | Some _ => assign_counts pg_fetch pg_statements stats
             | None => assign_counts sqlite_fetch (sqlite_statements today) stats
             end ;;
  match snd outcome with
  | Some err => print_stderr "Stats error:"
  | None => ret tt
  end ;;
  ret (fst outcome).

(** ** Requests and responses *)

(** The body of a POST, classified by what the JSON library makes of the
    bytes: nothing to read, not UTF-8, text that is not JSON, a JSON text
    with its value, or a text on which [json.loads] raises something else
    than a decode error -- a plain [ValueError] for an integer literal
    with more digits than the interpreter converts, [RecursionError] for
    arrays or objects nested too deep. *)
Inductive raw_body : Type :=
| RawEmpty
| RawNotUtf8
| RawNotJson
| RawJson (v : value)
| RawRaises (e : exn).

(** The [Content-Length] header under [int(...)]. *)
Inductive length_header : Type :=
| LengthAbsent
| LengthInvalid
| LengthInt (n : Z).

(** What a handler reads from a request: the path; the decoded query
    parameters, one pair per name as the front-end presents them; the
    [x-forwarded-for] header; the peer as the framework reports it
    ([req.client], which may be missing) and as the socket reports it
    ([client_address[0]]); the [Content-Length] header and the body. *)
Record request : Type := mkrequest {
  url_path : string;
  query : list (string * string);
  x_forwarded_for : option string;
  client : option string;
  client_address : string;
  content_length : length_header;
  body : raw_body }.

Inductive response : Type :=
| Response (status_code : nat)
| PlainTextResponse (content : string)
| JSONResponse (content : list (string * Z))
| send_error (code : nat) (message : string)
| StaticFiles (path : string).

Inductive http_method : Type := GET | POST.

(** A query parameter with its default. *)
Definition query_param (r : request) (name default : string) : string :=
  match dict_lookup name (query r) with
  | Some v => v
  | None => default
  end.

Definition visit_path (p : string) : bool :=
  String.eqb p "/api/log-visit" || String.eqb p "/api/visit".

(** ** [app.py] *)

Module App.

Definition send_to_logtail (entry : dict) : M unit :=
  called (call_send_to_logtail entry) ;;
  token <- read LOGTAIL_TOKEN ;;
  if token_missing token then ret tt
  else
    try_except
      (let data := json_dumps true entry in
       urlopen data)
      (fun err => print_stderr "Logtail error:").

Definition append_file (entry : dict) : M unit :=
  called (call_append_file entry) ;;
  try_except
    (log_append (json_dumps false entry))
    (fun err => print_stderr "File log error:").

Definition persist (entry : dict) : M unit :=
  send_to_logtail entry ;;
  append_file entry ;;
  write_db entry.

(** [await req.json()] *)
Definition req_json (req : request) : M value :=
  match body req with
  | RawEmpty => raise JSONDecodeError
  | RawNotUtf8 => raise UnicodeDecodeError
  | RawNotJson => raise JSONDecodeError
  | RawJson v => ret v
  | RawRaises e => raise e
  end.

(** [req.client.host if req.client else ""] *)
Definition client_host (req : request) : string :=
  match client req with
  | Some host => host
  | None => ""
  end.

(** The entry of [visit_post] as handed to [persist]. *)
Definition post_entry (now : Datetime.datetime) (req : request) (payload : value)
  : dict :=
  let entry :=
    [ ("ts", JStr (Datetime.isoformat now ++ "Z"));
      ("method", JStr "POST");
      ("ip", JStr (client_host req));
      ("requestPath", JStr (url_path req)) ] in
  let entry := update_if_dict entry payload in
  let entry := dict_setdefault "path" (JStr "") entry in
  let entry := dict_setdefault "referrer" (JStr "") entry in
  let entry := dict_setdefault "userAgent" (JStr "") entry in
  entry.

Definition visit_post (req : request) : M response :=
  payload <- try_except (req_json req) (fun _ => ret (JObj [])) ;;
  now <- ask utcnow ;;
  let entry := post_entry now req payload in
  persist entry ;;
  ret (Response 204).

(** The entry of [visit_get]. *)
Definition get_entry (now : Datetime.datetime) (req : request) : dict :=
  [ ("ts", JStr (Datetime.isoformat now ++ "Z"));
    ("method", JStr "GET");
    ("path", JStr (query_param req "path" ""));
    ("referrer", JStr (query_param req "referrer" ""));
    ("userAgent", JStr (query_param req "ua" ""));
    ("event", JStr (query_param req "event" ""));
    ("sessionId", JStr (query_param req "sid" ""));
    ("utm", JStr (query_param req "utm" ""));
    ("ip", JStr (client_host req));
    ("requestPath", JStr (url_path req)) ].

Definition visit_get (req : request) : M response :=
  now <- ask utcnow ;;
  let entry := get_entry now req in
  persist entry ;;
  ret (Response 204).

Definition health : M response := ret (PlainTextResponse "ok").

Definition stats : M response :=
  s <- get_stats ;;
  ret (JSONResponse s).

(** The routes, in declaration order; everything else goes to the static
    mount. *)
Definition serve (m : http_method) (req : request) : M response :=
  match m with
  | GET =>
      if String.eqb (url_path req) "/health" then health
      else if String.eqb (url_path req) "/api/stats" then stats
      else if String.eqb (url_path req) "/api/visit" then visit_get req
      else ret (StaticFiles (url_path req))
  | POST =>
      if String.eqb (url_path req) "/api/visit" then visit_post req
      else ret (StaticFiles (url_path req))
  end.

End App.

(** ** [server.py] *)

Module Server.

Definition send_to_logtail (entry : dict) : M unit :=
  called (call_send_to_logtail entry) ;;
  token <- read LOGTAIL_TOKEN ;;
  if token_missing token then ret tt
  else
    let data := json_dumps true entry in
    try_except
      (urlopen data)
      (fun err => print_stderr "Logtail error:").

Definition append_file (entry : dict) : M unit :=
  called (call_append_file entry) ;;
  attempt mkdir_error ;;
  log_append (json_dumps true entry).

(** [self.headers.get("x-forwarded-for", "").split(",")[0].strip()
     or self.client_address[0]] *)
Definition forwarded_ip (req : request) : string :=
  let header := match x_forwarded_for req with Some h => h | None => "" end in
  Text.str_or (Text.strip (Text.item0 (Text.split "," header)))
              (client_address req).

(** [int(self.headers.get("Content-Length", 0))] *)
Definition read_length (req : request) : M Z :=
  match content_length req with
  | LengthAbsent => ret 0%Z
  | LengthInvalid => raise ValueError
  | LengthInt n => ret n
  end.

(** [self.rfile.read(length) if length else b""] *)
Definition read_raw (req : request) (length : Z) : raw_body :=
  if (length =? 0)%Z then RawEmpty else body req.

(** [json.loads(raw.decode("utf-8") or "{}")] *)
Definition loads_raw (raw : raw_body) : M value :=
  match raw with
  | RawEmpty => ret (JObj [])
  | RawNotUtf8 => raise UnicodeDecodeError
  | RawNotJson => raise JSONDecodeError
  | RawJson v => ret v
  | RawRaises e => raise e
  end.

(** [BaseHTTPRequestHandler.log_message]: one line on [sys.stderr],
    recorded here by its format. *)
Definition log_message (format : string) : M unit :=
  modify (add_stderr format).

(** The handler's own [log_error]. *)
Definition log_error (format : string) : M unit :=
  if Text.contains "Broken pipe" format then ret tt
  else log_message format.

(** The two formats the base class logs with: [send_error] through
    [log_error], and [send_response] through [log_request]. *)
Definition error_format : string := "code %d, message %s".

Definition request_format : string :=
  String (ascii_of_nat 34) ("%s" ++ String (ascii_of_nat 34) " %s %s").

(** [self.send_response(code)], which logs the request. *)
Definition send_response (code : nat) : M unit :=
  log_message request_format.

(** [self.send_error(code, message)]: the error is logged through
    [log_error], then the response is sent. *)
Definition send_error (code : nat) (message : string) : M response :=
  log_error error_format ;;
  send_response code ;;
  ret (send_error code message).

(** The entry of [do_POST] as handed to the sinks. *)
Definition post_entry (now : Datetime.datetime) (req : request) (payload : value)
  : dict :=
  let ip := forwarded_ip req in
  let entry :=
    [ ("ts", JStr (Datetime.isoformat now ++ "Z"));
      ("method", JStr "POST");
      ("ip", JStr ip);
      ("requestPath", JStr (url_path req)) ] in
  let entry := update_if_dict entry payload in
  let entry := dict_setdefault "path" (JStr "") entry in
  let entry := dict_setdefault "referrer" (JStr "") entry in
  let entry := dict_setdefault "userAgent" (JStr "") entry in
  entry.

(** [do_POST] after the body has been read: [None] stands for the early
    [return] after [send_error(400, ...)]. *)
Definition parse_payload (raw : raw_body) : M (option value) :=
  try_except_on is_JSONDecodeError
    (payload <- loads_raw raw ;; ret (Some payload))
    (fun _ => ret None).

Definition do_POST (req : request) : M response :=
  if negb (visit_path (url_path req)) then send_error 404 "Not found"
  else
    length <- read_length req ;;
    let raw := read_raw req length in
    parsed <- parse_payload raw ;;
    match parsed with
    | None => send_error 400 "Invalid JSON"
    | Some payload =>
        now <- ask utcnow ;;
        let entry := post_entry now req payload in
        send_to_logtail entry ;;
        append_file entry ;;
        write_db entry ;;
        send_response 204 ;;
        ret (Response 204)
    end.

(** The entry of the visit branch of [do_GET]. *)
Definition get_entry (now : Datetime.datetime) (req : request) : dict :=
  [ ("ts", JStr (Datetime.isoformat now ++ "Z"));
    ("method", JStr "GET");
    ("path", JStr (query_param req "path" ""));
    ("referrer", JStr (query_param req "referrer" ""));
    ("userAgent", JStr (query_param req "ua" ""));
    ("event", JStr (query_param req "event" ""));
    ("sessionId", JStr (query_param req "sid" ""));
    ("utm", JStr (query_param req "utm" ""));
    ("ip", JStr (forwarded_ip req));
    ("requestPath", JStr (url_path req)) ].

(** The last branch hands the request to [SimpleHTTPRequestHandler]; what
    the base class then reads, sends and logs is its own. *)
Definition do_GET (req : request) : M response :=
  if String.eqb (url_path req) "/health" then
    send_response 200 ;;
    ret (PlainTextResponse "ok")
  else if String.eqb (url_path req) "/api/stats" then
    stats <- get_stats ;;
    send_response 200 ;;
    ret (JSONResponse stats)
  else if String.eqb (url_path req) "/favicon.ico" then
    send_response 204 ;;
    ret (Response 204)
  else if visit_path (url_path req) then
    now <- ask utcnow ;;
    let entry := get_entry now req in
    send_to_logtail entry ;;
    append_file entry ;;
    write_db entry ;;
    send_response 204 ;;
    ret (Response 204)
  else ret (StaticFiles (url_path req)).

Definition serve (m : http_method) (req : request) : M response :=
  match m with
  | GET => do_GET req
  | POST => do_POST req
  end.

End Server.

(** ** Backend selection at import time (same text in both files) *)

(** What the environment does while the module is imported.  On success
    [init_sqlite] yields the connection, i.e. the rows already stored in
    [data/visits.db]. *)
Record boot_env : Type := mkboot {
  import_psycopg_error : option exn;
  connect_error : option exn;
  create_table_error : option exn;
  init_sqlite : result Sqlite.table }.

(** The body of the [try]: the value left in [PG_CONN] when nothing raises. *)
Definition try_postgres (POSTGRES_DSN : option string) (b : boot_env)
  : result (option (list params)) :=
  match POSTGRES_DSN with
  | None => Ok None
  | Some dsn =>
      if Text.truthy dsn then
        match import_psycopg_error b with
        | Some e => Raise e
        | None =>
            match connect_error b with
            | Some e => Raise e
            | None =>
                match create_table_error b with
                | Some e => Raise e
                | None => Ok (Some [])
                end
            end
        end
      else Ok None
  end.

(** [PG_CONN = None; SQLITE_CONN = None; try: ... except Exception:
    PG_CONN = None; if PG_CONN is None: SQLITE_CONN = init_sqlite()].
    A [Raise] is an exception escaping the import, which ends the process. *)
Definition select_backend (token POSTGRES_DSN : option string) (b : boot_env)
  : result world :=
  let w := mkworld token None None [] [] [] [] in
  let w :=
    match try_postgres POSTGRES_DSN b with
    | Ok conn => set_PG_CONN conn w
    | Raise err =>
        set_PG_CONN None
          (add_stderr "Postgres init error, falling back to sqlite:" w)
    end in
  match PG_CONN w with
  | None =>
      match init_sqlite b with
      | Ok conn => Ok (set_SQLITE_CONN (Some conn) w)
      | Raise e => Raise e
      end
  | Some _ => Ok w
  end.

(** ** Serving a sequence of requests *)

Definition served : Type := (http_method * request * env)%type.

Fixpoint run (serve : http_method -> request -> M response)
  (reqs : list served) (w : world) : world :=
  match reqs with
  | [] => w
  | (m, req, ev) :: rest => run serve rest (fst (serve m req ev w))
  end.

(** Which backend variant is active. *)
Inductive variant : Type := Networked | Embedded.

Definition active (w : world) : option variant :=
  match PG_CONN w, SQLITE_CONN w with
  | Some _, None => Some Networked
  | None, Some _ => Some Embedded
  | _, _ => None
  end.

(** ** Vocabulary of the specification *)

(** The value a caller supplied under key [k]: the payload must be an
    object; of several members with the same name the last one counts. *)
Fixpoint last_binding (k : string) (members : list (string * value))
  : option value :=
  match members with
  | [] => None
  | (k', v) :: rest =>
      match last_binding k rest with
      | Some v' => Some v'
      | None => if String.eqb k' k then Some v else None
      end
  end.

Definition supplied (payload : value) (k : string) : option value :=
  match payload with
  | JObj members => last_binding k members
  | _ => None
  end.

(** The three fields named by the normalizer contract hold the values
    taken from the transport. *)
Definition server_fields_kept (now : Datetime.datetime) (req : request)
  (m : string) (entry : dict) : Prop :=
  dict_lookup "ts" entry = Some (JStr (Datetime.isoformat now ++ "Z"))
  /\ dict_lookup "method" entry = Some (JStr m)
  /\ dict_lookup "requestPath" entry = Some (JStr (url_path req)).

(** The value the server computes for one of the three fields. *)
Definition transport_value (now : Datetime.datetime) (req : request)
  (m k : string) : value :=
  if String.eqb k "ts" then JStr (Datetime.isoformat now ++ "Z")
  else if String.eqb k "method" then JStr m
  else JStr (url_path req).

(** ** Sample inputs *)

Definition now0 : Datetime.datetime := Datetime.mkdatetime 2024 5 6 7 8 9 0.

(** A POST to [/api/visit] carrying [payload], behind a proxy. *)
Definition post_request (payload : raw_body) : request :=
  mkrequest "/api/visit" [] (Some "1.2.3.4, 5.6.7.8") (Some "10.0.0.9")
            "10.0.0.9" (LengthInt 64) payload.

(** An environment in which nothing fails. *)
Definition calm : env :=
  mkenv now0 None None None None (fun _ => Ok 0%Z) None false
        (fun _ => None).

(** A freshly started process on the embedded backend, without collector
    token. *)
Definition embedded_world : world :=
  mkworld None None (Some []) [] [] [] [].

(** ** Client address, in the words of the specification *)

(** [tok] is the first of the comma-separated tokens of [h]. *)
Definition first_token (h tok : string) : Prop :=
  Text.has_char "," tok = false
  /\ (h = tok \/ exists rest, h = tok ++ "," ++ rest).

(** [t] is [tok] without the white space at its two ends. *)
Definition trimmed (tok t : string) : Prop :=
  exists l r,
    tok = l ++ t ++ r
    /\ Text.all_space l = true /\ Text.all_space r = true
    /\ Text.first_char_space t = false /\ Text.last_char_space t = false.

(** Split the forwarding header on [,], take the first token, trim it; if
    nothing is left (or there is no header) use the peer address. *)
Definition client_ip_spec (header : option string) (peer ip : string) : Prop :=
  exists tok t,
    first_token (match header with Some h => h | None => "" end) tok
    /\ trimmed tok t
    /\ ip = (if String.eqb t "" then peer else t).

(** ** Invariants of the running process *)

Definition is_some {A : Type} (o : option A) : bool :=
  match o with Some _ => true | None => false end.

(** Which of the two connection globals are set. *)
Definition conns (w : world) : bool * bool :=
  (is_some (PG_CONN w), is_some (SQLITE_CONN w)).

(** A computation that leaves the connection globals as they are, set or
    unset, whatever it returns or raises. *)
Definition keeps {A : Type} (m : M A) : Prop :=
  forall (ev : env) (w : world), conns (fst (m ev w)) = conns w.

(** A computation that returns: no exception escapes it. *)
Definition returns {A : Type} (m : M A) : Prop :=
  forall (ev : env) (w : world), exists w' a, m ev w = (w', Ok a).

(** The backend cannot be reached at query time: every statement sent to
    it raises (or, for the embedded variant, there is no connection). *)
Definition unreachable (ev : env) (w : world) : Prop :=
  match PG_CONN w with
  | Some _ => forall q, exists e, pg_select ev q = Raise e
  | None =>
      SQLITE_CONN w = None
      \/ forall q, exists e, sqlite_select_error ev q = Some e
  end.

Definition counter_names : list string :=
  ["totalEvents"; "visits"; "clicks"; "exits"; "uniqueSessions";
   "visitsToday"; "clicksToday"].

(** A boot in which the networked server refuses the connection while the
    embedded database opens, empty. *)
Definition boot_refused : boot_env :=
  mkboot None (Some OSError) None (Ok []).

(** An environment in which every statement sent to the database raises. *)
Definition database_down : env :=
  mkenv now0 None None None (Some OperationalError)
        (fun _ => Raise OperationalError) (Some OperationalError) false
        (fun _ => Some OperationalError).

(** ** The pipeline, in the words of the specification *)

(** A sink that is entered once, records the call [c] and returns whatever
    happens inside it. *)
Definition isolated (c : call) (m : M unit) : Prop :=
  forall (ev : env) (w : world),
  exists w', m ev w = (w', Ok tt) /\ calls w' = (calls w ++ [c])%list.

(** Remote, then file, then storage, with the same entry. *)
Definition fan_out (entry : dict) : list call :=
  [call_send_to_logtail entry; call_append_file entry; call_write_db entry].

(** The payload a handler works with when the body is accepted: the parsed
    value, or the empty object when there is nothing usable to parse. *)
Definition parsed_or_empty (b : raw_body) : value :=
  match b with
  | RawJson v => v
  | _ => JObj []
  end.

Definition is_object (v : value) : bool :=
  match v with JObj _ => true | _ => false end.

(** An environment in which the log file cannot be written. *)
Definition log_unwritable : env :=
  mkenv now0 None None (Some OSError) None (fun _ => Ok 0%Z) None false
        (fun _ => None).

(** The caller-supplied fields a POST body contributes: its members when it
    parses to an object, nothing otherwise. *)
Definition usable (b : raw_body) : value :=
  match b with
  | RawJson (JObj members) => JObj members
  | _ => JObj []
  end.

(** ** The stored row, in the words of the specification *)

(** The keyed columns with the value stored for a missing field: the empty
    string, and zero for [sessionStarted]. *)
Definition column_defaults : list (string * value) :=
  [ ("ts", JStr ""); ("method", JStr ""); ("ip", JStr "");
    ("requestPath", JStr ""); ("path", JStr ""); ("referrer", JStr "");
    ("userAgent", JStr ""); ("event", JStr ""); ("sessionId", JStr "");
    ("sessionStarted", JInt 0); ("utm", JStr "") ].

(** No keyed column of the row is NULL. *)
Definition populated (r : Sqlite.row) : Prop :=
  forall c dflt, In (c, dflt) column_defaults -> Sqlite.cell c r <> Sqlite.NULL.

(** Every optional field of the Event is set. *)
Definition fully_populated (entry : dict) : Prop :=
  forall k,
    In k ["path"; "referrer"; "userAgent"; "event"; "sessionId"; "utm";
          "sessionStarted"] ->
    dict_lookup k entry <> None.

(** The row [write_db] stores for [entry] when its parameters bind to [xs]. *)
Definition row_of (entry : dict) (xs : list Sqlite.sqlval) : Sqlite.row :=
  Sqlite.mkrow (Sqlite.store_row insert_columns xs) (json_dumps false entry).

(** ** The statistics scenario, in the words of the specification *)

(** The Event is of kind [k]. *)
Definition kind_is (e : dict) (k : string) : Prop :=
  dict_lookup "event" e = Some (JStr k).

(** The Event belongs to session [s]. *)
Definition session_is (e : dict) (s : string) : Prop :=
  dict_lookup "sessionId" e = Some (JStr s).

(** The Event carries a server timestamp taken on the UTC day [d]. *)
Definition dated (e : dict) (d : Datetime.date) : Prop :=
  exists dt,
    Datetime.valid_datetime dt /\ Datetime.date_of dt = d
    /\ dict_lookup "ts" e = Some (JStr (Datetime.isoformat dt ++ "Z")).

(** The Event carries a server timestamp taken on another day than [d]. *)
Definition dated_otherwise (e : dict) (d : Datetime.date) : Prop :=
  exists d', d' <> d /\ dated e d'.

(** The embedded engine accepts the Event's parameters. *)
Definition insertable (e : dict) : Prop :=
  exists xs, Sqlite.bind_all (insert_params e) = Ok xs.

(** Inserting a sequence of Events through [write_db]. *)
Fixpoint insert_all (es : list dict) (ev : env) (w : world) : world :=
  match es with
  | [] => w
  | e :: es' => insert_all es' ev (fst (write_db e ev w))
  end.

(** The row stored for an insertable Event. *)
Definition stored_row (e : dict) : Sqlite.row :=
  match Sqlite.bind_all (insert_params e) with
  | Ok xs => row_of e xs
  | Raise _ => row_of e []
  end.

(** Characters that LIKE compares literally: not a wildcard, not a letter. *)
Definition literal_char (c : ascii) : bool :=
  let n := nat_of_ascii c in
  negb (Ascii.eqb c "%") && negb (Ascii.eqb c "_")
  && negb ((65 <=? n) && (n <=? 90))%nat && negb ((97 <=? n) && (n <=? 122))%nat.

Fixpoint literal (s : string) : bool :=
  match s with
  | "" => true
  | String c s' => literal_char c && literal s'
  end.

(** The record the specification expects for the scenario of six events. *)
Definition scenario_stats : list (string * Z) :=
  [ ("totalEvents", 6%Z); ("visits", 3%Z); ("clicks", 2%Z); ("exits", 1%Z);
    ("uniqueSessions", 2%Z); ("visitsToday", 1%Z); ("clicksToday", 0%Z) ].

(** An environment for inserting and querying in which the engine works,
    on the day of [now0]. *)
Definition today0 : Datetime.date := Datetime.date_of now0.

(** A GET event of the given kind and session, stamped at [dt]. *)
Definition sample_event (dt : Datetime.datetime) (kind sid : string) : dict :=
  [ ("ts", JStr (Datetime.isoformat dt ++ "Z"));
    ("method", JStr "GET");
    ("path", JStr "/");
    ("referrer", JStr "");
    ("userAgent", JStr "");
    ("event", JStr kind);
    ("sessionId", JStr sid);
    ("utm", JStr "");
    ("ip", JStr "10.0.0.9");
    ("requestPath", JStr "/api/visit") ].

Definition yesterday0 : Datetime.datetime :=
  Datetime.mkdatetime 2024 5 5 23 59 59 999999.

Definition visit_today : dict := sample_event now0 "visit" "s-1".
Definition visit_old_a : dict := sample_event yesterday0 "visit" "s-1".
Definition visit_old_b : dict := sample_event yesterday0 "visit" "s-2".
Definition click_old_a : dict := sample_event yesterday0 "click" "s-1".
Definition click_old_b : dict := sample_event yesterday0 "click" "s-2".
Definition exit_today : dict := sample_event now0 "exit" "s-2".

(** ** Growth of the destinations *)

(** [new] is [old] followed by at most [n] further elements. *)
Definition appended {A : Type} (n : nat) (old new : list A) : Prop :=
  exists more, new = (old ++ more)%list /\ List.length more <= n.

Definition appended_opt {A : Type} (n : nat) (old new : option (list A))
  : Prop :=
  match old, new with
  | Some l, Some l' => appended n l l'
  | None, None => True
  | _, _ => False
  end.

(** Between [w] and [w'] the collector received at most [c] bodies, the log
    file at most [f] lines and the active store at most [d] rows; nothing
    that was there before was changed or removed, and the collector token
    is the same. *)
Definition sinks_appended (c f d : nat) (w w' : world) : Prop :=
  appended c (collector w) (collector w')
  /\ appended f (visits_log w) (visits_log w')
  /\ appended_opt d (PG_CONN w) (PG_CONN w')
  /\ appended_opt d (SQLITE_CONN w) (SQLITE_CONN w')
  /\ LOGTAIL_TOKEN w' = LOGTAIL_TOKEN w.

(** A computation that, whatever it returns or raises, adds at most [c]
    bodies, [f] lines and [d] rows. *)
Definition adds {A : Type} (c f d : nat) (m : M A) : Prop :=
  forall (ev : env) (w : world), sinks_appended c f d w (fst (m ev w)).

(** The routes that record a visit. *)
Definition app_visit_route (req : request) : bool :=
  String.eqb (url_path req) "/api/visit".

Definition server_visit_route (m : http_method) (req : request) : bool :=
  match m with
  | GET =>
      negb (String.eqb (url_path req) "/health")
      && negb (String.eqb (url_path req) "/api/stats")
      && negb (String.eqb (url_path req) "/favicon.ico")
      && visit_path (url_path req)
  | POST => visit_path (url_path req)
  end.

(** ** What the backend answers to a statement *)

(** The outcome of [cur.execute(q); cur.fetchone()[0]] on the active
    connection: the networked server's answer, or the embedded engine's
    count unless it fails. *)
Definition answer (ev : env) (w : world) (q : select) : result Z :=
  match PG_CONN w with
  | Some _ => pg_select ev q
  | None =>
      match SQLITE_CONN w with
      | None => Raise AttributeError
      | Some t =>
          match sqlite_select_error ev q with
          | Some e => Raise e
          | None => sqlite_select q t
          end
      end
  end.

(** The statements [get_stats] issues on the active connection, in order,
    each with the counter it fills. *)
Definition statements (ev : env) (w : world) : list (string * select) :=
  match PG_CONN w with
  | Some _ => pg_statements
  | None =>
      sqlite_statements (Datetime.date_isoformat (Datetime.date_of (utcnow ev)))
  end.

Definition answered (ev : env) (w : world) (kq : string * select) : bool :=
  match answer ev w (snd kq) with
  | Ok _ => true
  | Raise _ => false
  end.

Definition count_or_zero (r : result Z) : Z :=
  match r with
  | Ok n => n
  | Raise _ => 0%Z
  end.

(** An environment in which the networked server answers the first two
    statements and then drops the connection. *)
Definition drops_after_two : env :=
  mkenv now0 None None None None
        (fun q => match q with
                  | count_all => Ok 6%Z
                  | count_event "visit" => Ok 3%Z
                  | _ => Raise OperationalError
                  end)
        None false (fun _ => None).

Definition networked_world : world :=
  mkworld None (Some []) None [] [] [] [].

(** How many of the requests go to a visit route. *)
Definition routed (route : http_method -> request -> bool)
  (reqs : list served) : nat :=
  List.length (filter (fun s => route (fst (fst s)) (snd (fst s))) reqs).

(** ** Binding, in the words of the engine's interface *)

(** The objects that can never be passed as a parameter to the embedded
    engine are lists, objects and integers beyond 64 bits. *)
Definition bindable (v : value) : bool :=
  match v with
  | JNull => true
  | JBool _ => true
  | JInt n => ((- 2 ^ 63 <=? n) && (n <? 2 ^ 63))%Z
  | JFloat _ => true
  | JStr _ => true
  | JArr _ => false
  | JObj _ => false
  end.

(** An environment in which the embedded engine fails on INSERT. *)
Definition disk_full : env :=
  mkenv now0 None None None None (fun _ => Ok 0%Z) (Some OperationalError)
        false (fun _ => None).

(** ** Statistics of recorded GET visits, in terms of the requests *)

Definition date_eqb (d d' : Datetime.date) : bool :=
  ((Datetime.d_year d =? Datetime.d_year d')
   && (Datetime.d_month d =? Datetime.d_month d')
   && (Datetime.d_day d =? Datetime.d_day d'))%Z.

(** The [event] and [sid] query parameters of a request, and the UTC day
    on which it was received. *)
Definition event_of (s : served) : string :=
  query_param (snd (fst s)) "event" "".

Definition session_of (s : served) : string :=
  query_param (snd (fst s)) "sid" "".

Definition day_of (s : served) : Datetime.date :=
  Datetime.date_of (utcnow (snd s)).

Definition tally (p : served -> bool) (reqs : list served) : Z :=
  Z.of_nat (List.length (filter p reqs)).

(** The counters one expects from the requests themselves. *)
Definition expected_stats (today : Datetime.date) (reqs : list served)
  : list (string * Z) :=
  [ ("totalEvents", Z.of_nat (List.length reqs));
    ("visits", tally (fun s => String.eqb (event_of s) "visit") reqs);
    ("clicks", tally (fun s => String.eqb (event_of s) "click") reqs);
    ("exits", tally (fun s => String.eqb (event_of s) "exit") reqs);
    ("uniqueSessions",
     Z.of_nat (List.length (nodup string_dec (map session_of reqs))));
    ("visitsToday",
     tally (fun s => String.eqb (event_of s) "visit"
                     && date_eqb (day_of s) today) reqs);
    ("clicksToday",
     tally (fun s => String.eqb (event_of s) "click"
                     && date_eqb (day_of s) today) reqs) ].

(** A GET of [/api/visit] with the given [event] and [sid], received at
    [dt] by a server whose engine works. *)
Definition get_visit (dt : Datetime.datetime) (kind sid : string) : served :=
  (GET,
   mkrequest "/api/visit" [("event", kind); ("sid", sid)] None
             (Some "10.0.0.9") "10.0.0.9" LengthAbsent RawEmpty,
   mkenv dt None None None None (fun _ => Ok 0%Z) None false
         (fun _ => None)).

(** ** Backend selection, in closed form *)

(** [if POSTGRES_DSN:] *)
Definition configured (POSTGRES_DSN : option string) : bool :=
  match POSTGRES_DSN with
  | Some dsn => Text.truthy dsn
  | None => false
  end.

(** The driver imports, the server accepts the connection and the table
    can be created. *)
Definition postgres_ready (b : boot_env) : bool :=
  negb (is_some (import_psycopg_error b))
  && negb (is_some (connect_error b))
  && negb (is_some (create_table_error b)).

(** The same request with another [Content-Length] and body. *)
Definition with_body (req : request) (len : length_header) (b : raw_body)
  : request :=
  mkrequest (url_path req) (query req) (x_forwarded_for req) (client req)
            (client_address req) len b.

(** A computation that delivers nothing to the collector when no token is
    configured, and leaves the token as it is. *)
Definition silent {A : Type} (m : M A) : Prop :=
  forall (ev : env) (w : world),
    token_missing (LOGTAIL_TOKEN w) = true ->
    collector (fst (m ev w)) = collector w
    /\ LOGTAIL_TOKEN (fst (m ev w)) = LOGTAIL_TOKEN w.

(** ** Static files: [translate_path] of [server.py] *)

(** [path.lstrip("/")] *)
Fixpoint lstrip_slashes (s : string) : string :=
  match s with
  | String c s' => if Ascii.eqb c "/" then lstrip_slashes s' else s
  | "" => ""
  end.

(** The components [pathlib] keeps of a relative path: the pieces between
    slashes, without the empty ones and without ["."]; [".."] is kept. *)
Definition path_parts (s : string) : list string :=
  filter (fun p => negb (String.eqb p "") && negb (String.eqb p "."))
         (Text.split "/" s).

(** [str] of the absolute path with the given components. *)
Definition path_str (parts : list string) : string :=
  "/" ++ String.concat "/" parts.

(** [translate_path].  [urlparse_path] is the library's
    [urlparse(...).path], which raises on some targets; [ROOT] is given by
    the components of the resolved directory of the script. *)
Definition translate_path (urlparse_path : string -> result string)
  (ROOT : list string) (path : string) : result string :=
  match urlparse_path path with
  | Raise e => Raise e
  | Ok path =>
      let path := if String.eqb path "/" then "/index.html" else path in
      let full := (ROOT ++ path_parts (lstrip_slashes path))%list in
      Ok (path_str full)
  end.

(** A boot in which the networked server is reachable and ready. *)
Definition boot_ready : boot_env := mkboot None None None (Raise OSError).

(** ** Requests outside the visit routes *)

(** [w'] differs from [w] at most in what was printed on [sys.stderr]. *)
Definition only_printed (w w' : world) : Prop :=
  LOGTAIL_TOKEN w' = LOGTAIL_TOKEN w /\ PG_CONN w' = PG_CONN w
  /\ SQLITE_CONN w' = SQLITE_CONN w /\ collector w' = collector w
  /\ visits_log w' = visits_log w /\ calls w' = calls w.

(** * Properties *)

(** ** Dictionaries *)

Section DictFacts.

Context {V : Type}.

Lemma lookup_setitem (k k' : string) (v : V) (d : list (string * V)) :
  dict_lookup k (dict_setitem k' v d)
  = if String.eqb k' k then Some v else dict_lookup k d.
Proof.
  induction d as [|[k0 v0] d IH]; simpl.
  - reflexivity.
  - destruct (String.eqb k0 k') eqn:E0; simpl.
    + apply String.eqb_eq in E0; subst k0.
      destruct (String.eqb k' k); reflexivity.
    + destruct (String.eqb k0 k) eqn:E1.
      * apply String.eqb_eq in E1; subst k0.
        rewrite String.eqb_sym, E0. reflexivity.
      * exact IH.
Qed.

Lemma keys_setitem_present (k : string) (v : V) (d : list (string * V)) :
  dict_lookup k d <> None -> dict_keys (dict_setitem k v d) = dict_keys d.
Proof.
  induction d as [|[k0 v0] d IH]; simpl; intros H.
  - congruence.
  - destruct (String.eqb k0 k) eqn:E; simpl.
    + apply String.eqb_eq in E. subst. reflexivity.
    + f_equal. apply IH. exact H.
Qed.

End DictFacts.

Lemma lookup_update (k : string) (other d : dict) :
  dict_lookup k (dict_update d other)
  = match last_binding k other with
    | Some v => Some v
    | None => dict_lookup k d
    end.
Proof.
  unfold dict_update. revert d.
  induction other as [|[k0 v0] other IH]; intros d; simpl.
  - reflexivity.
  - rewrite IH. destruct (last_binding k other); [reflexivity|].
    rewrite lookup_setitem. destruct (String.eqb k0 k); reflexivity.
Qed.

Lemma lookup_setdefault (k k' : string) (v : value) (d : dict) :
  dict_lookup k (dict_setdefault k' v d)
  = match dict_lookup k d with
    | Some x => Some x
    | None => if String.eqb k' k then Some v else None
    end.
Proof.
  unfold dict_setdefault.
  destruct (dict_lookup k' d) eqn:E.
  - destruct (dict_lookup k d) eqn:E1; [reflexivity|].
    destruct (String.eqb k' k) eqn:E2; [|reflexivity].
    apply String.eqb_eq in E2. congruence.
  - rewrite lookup_setitem.
    destruct (String.eqb k' k) eqn:E2.
    + apply String.eqb_eq in E2. subst. rewrite E. reflexivity.
    + destruct (dict_lookup k d); reflexivity.
Qed.

Lemma lookup_update_if_dict (k : string) (payload : value) (d : dict) :
  dict_lookup k (update_if_dict d payload)
  = match supplied payload k with
    | Some v => Some v
    | None => dict_lookup k d
    end.
Proof.
  destruct payload; simpl; try reflexivity. apply lookup_update.
Qed.

(** ** C2: who sets [ts], [method] and [requestPath] *)

Lemma app_post_lookup (now : Datetime.datetime) (req : request)
  (payload : value) (k : string) :
  dict_lookup k (App.post_entry now req payload)
  = match supplied payload k with
    | Some v => Some v
    | None =>
        match dict_lookup k
                [ ("ts", JStr (Datetime.isoformat now ++ "Z"));
                  ("method", JStr "POST");
                  ("ip", JStr (App.client_host req));
                  ("requestPath", JStr (url_path req)) ] with
        | Some v => Some v
        | None =>
            if String.eqb "path" k || String.eqb "referrer" k
               || String.eqb "userAgent" k
            then Some (JStr "") else None
        end
    end.
Proof.
  unfold App.post_entry.
  rewrite !lookup_setdefault, lookup_update_if_dict.
  destruct (supplied payload k); [reflexivity|].
  match goal with |- context [dict_lookup k ?d] => destruct (dict_lookup k d) end;
    [reflexivity|].
  destruct (String.eqb "path" k), (String.eqb "referrer" k),
    (String.eqb "userAgent" k); reflexivity.
Qed.

Lemma server_post_lookup (now : Datetime.datetime) (req : request)
  (payload : value) (k : string) :
  dict_lookup k (Server.post_entry now req payload)
  = match supplied payload k with
    | Some v => Some v
    | None =>
        match dict_lookup k
                [ ("ts", JStr (Datetime.isoformat now ++ "Z"));
                  ("method", JStr "POST");
                  ("ip", JStr (Server.forwarded_ip req));
                  ("requestPath", JStr (url_path req)) ] with
        | Some v => Some v
        | None =>
            if String.eqb "path" k || String.eqb "referrer" k
               || String.eqb "userAgent" k
            then Some (JStr "") else None
        end
    end.
Proof.
  unfold Server.post_entry.
  rewrite !lookup_setdefault, lookup_update_if_dict.
  destruct (supplied payload k); [reflexivity|].
  match goal with |- context [dict_lookup k ?d] => destruct (dict_lookup k d) end;
    [reflexivity|].
  destruct (String.eqb "path" k), (String.eqb "referrer" k),
    (String.eqb "userAgent" k); reflexivity.
Qed.

(** C2, as stated, fails: a POST whose body is [{"method": "DELETE"}]
    produces an Event whose [method] is the caller's ["DELETE"], not the
    server's ["POST"]. *)
Lemma caller_replaces_method :
  let payload := JObj [("method", JStr "DELETE")] in
  let req := post_request (RawJson payload) in
  dict_lookup "method" (App.post_entry now0 req payload) = Some (JStr "DELETE")
  /\ ~ server_fields_kept now0 req "POST" (App.post_entry now0 req payload)
  /\ ~ server_fields_kept now0 req "POST" (Server.post_entry now0 req payload).
Proof.
  cbv zeta. split; [reflexivity|].
  split; intros (_ & H & _); vm_compute in H; discriminate H.
Qed.

(** C2, amended: on GET the three fields always hold the transport values;
    on POST each of them holds the transport value unless the payload is
    an object with a member of that name, in which case the caller's value
    (the last such member) is what the Event holds. *)
Theorem transport_fields_unless_supplied :
  forall (now : Datetime.datetime) (req : request),
    server_fields_kept now req "GET" (App.get_entry now req)
    /\ server_fields_kept now req "GET" (Server.get_entry now req)
    /\ forall (payload : value) (k : string),
         In k ["ts"; "method"; "requestPath"] ->
         let expected :=
           match supplied payload k with
           | Some v => v
           | None => transport_value now req "POST" k
           end in
         dict_lookup k (App.post_entry now req payload) = Some expected
         /\ dict_lookup k (Server.post_entry now req payload) = Some expected.
Proof.
  intros now req.
  split; [repeat split|].
  split; [repeat split|].
  intros payload k Hk. cbv zeta.
  rewrite app_post_lookup, server_post_lookup.
  destruct (supplied payload k); [split; reflexivity|].
  simpl in Hk. destruct Hk as [<-|[<-|[<-|[]]]]; split; reflexivity.
Qed.

Lemma transport_fields_unless_supplied_witness :
  dict_lookup "method"
    (Server.post_entry now0 (post_request (RawJson (JObj [])))
       (JObj [("path", JStr "/home")]))
  = Some (JStr "POST").
Proof.
  pose proof
    (proj2 (proj2 (transport_fields_unless_supplied now0
                     (post_request (RawJson (JObj [])))))
       (JObj [("path", JStr "/home")]) "method") as H.
  assert (Hin : In "method" ["ts"; "method"; "requestPath"])
    by (simpl; auto).
  exact (proj2 (H Hin)).
Defined.

(** ** C7: the client address *)

Lemma split_first (h : string) :
  exists tok rest,
    Text.split "," h = tok :: rest /\ first_token h tok.
Proof.
  induction h as [|c h IH]; simpl.
  - exists "", []. repeat split; auto.
  - destruct IH as (tok & rest & Hs & Hc & Hh).
    destruct (Ascii.eqb c ",") eqn:E.
    + apply Ascii.eqb_eq in E. subst c.
      exists "", (Text.split "," h). repeat split; auto.
      right. exists h. reflexivity.
    + rewrite Hs. exists (String c tok), rest. repeat split.
      * simpl. rewrite E, Hc. reflexivity.
      * destruct Hh as [->|[r ->]]; [left; reflexivity|].
        right. exists r. reflexivity.
Qed.

Lemma lstrip_spec (s : string) :
  exists l,
    s = l ++ Text.lstrip s /\ Text.all_space l = true
    /\ Text.first_char_space (Text.lstrip s) = false.
Proof.
  induction s as [|c s (l & Hs & Hl & Hf)]; simpl.
  - exists "". auto.
  - destruct (Text.isspace c) eqn:E.
    + exists (String c l). simpl. rewrite E, Hl, <- Hs. auto.
    + exists "". simpl. auto.
Qed.

Lemma rstrip_spec (s : string) :
  exists r,
    s = Text.rstrip s ++ r /\ Text.all_space r = true
    /\ Text.last_char_space (Text.rstrip s) = false
    /\ (Text.first_char_space s = false ->
        Text.first_char_space (Text.rstrip s) = false).
Proof.
  induction s as [|c s (r & Hs & Hr & Hl & Hf)]; simpl.
  - exists "". auto.
  - destruct (Text.rstrip s) as [|c' t] eqn:E.
    + simpl in Hs. subst r.
      destruct (Text.isspace c) eqn:Ec.
      * exists (String c s). simpl. rewrite Ec, Hr. repeat split; auto.
      * exists s. simpl. rewrite Ec. auto.
    + exists r. simpl. rewrite Hs at 1. repeat split; auto.
Qed.

Lemma strip_spec (tok : string) : trimmed tok (Text.strip tok).
Proof.
  unfold Text.strip.
  destruct (lstrip_spec tok) as (l & Hl & Hls & Hf).
  destruct (rstrip_spec (Text.lstrip tok)) as (r & Hr & Hrs & Hlast & Hfirst).
  exists l, r. repeat split; auto.
  rewrite <- Hr. exact Hl.
Qed.

Lemma str_or_spec (a b : string) :
  Text.str_or a b = if String.eqb a "" then b else a.
Proof. destruct a; reflexivity. Qed.

Lemma forwarded_ip_spec (req : request) :
  client_ip_spec (x_forwarded_for req) (client_address req)
                 (Server.forwarded_ip req).
Proof.
  unfold Server.forwarded_ip, client_ip_spec.
  set (h := match x_forwarded_for req with Some h => h | None => "" end).
  destruct (split_first h) as (tok & rest & Hs & Hft).
  exists tok, (Text.strip tok). rewrite Hs. simpl.
  split; [exact Hft|]. split; [apply strip_spec|]. apply str_or_spec.
Qed.

Lemma has_char_middle (tok rest : string) :
  Text.has_char "," (tok ++ "," ++ rest) = true.
Proof.
  induction tok as [|c tok IH]; simpl in *; [reflexivity|].
  rewrite IH. apply orb_true_r.
Qed.

Lemma first_token_cut (tok tok' rest rest' : string) :
  Text.has_char "," tok = false -> Text.has_char "," tok' = false ->
  tok ++ "," ++ rest = tok' ++ "," ++ rest' -> tok = tok'.
Proof.
  revert tok'. induction tok as [|c tok IH]; intros [|c' tok'] Hc Hc' H;
    simpl in *.
  - reflexivity.
  - injection H as <- _. discriminate Hc'.
  - injection H as -> _. discriminate Hc.
  - injection H as -> H.
    apply orb_false_iff in Hc, Hc'. destruct Hc as [_ Hc], Hc' as [_ Hc'].
    rewrite (IH tok' Hc Hc' H). reflexivity.
Qed.

Lemma first_token_unique (h tok tok' : string) :
  first_token h tok -> first_token h tok' -> tok = tok'.
Proof.
  intros [Hc [->|[rest Hr]]] [Hc' [Heq|[rest' Hr']]].
  - exact Heq.
  - rewrite Hr', has_char_middle in Hc. discriminate Hc.
  - rewrite Hr in Heq. rewrite <- Heq, has_char_middle in Hc'.
    discriminate Hc'.
  - rewrite Hr in Hr'. apply (first_token_cut _ _ _ _ Hc Hc' Hr').
Qed.

Lemma lstrip_spaces (l x : string) :
  Text.all_space l = true -> Text.lstrip (l ++ x) = Text.lstrip x.
Proof.
  induction l as [|c l IH]; simpl; intros H; [reflexivity|].
  apply andb_true_iff in H. destruct H as [Hc Hl]. rewrite Hc. apply IH, Hl.
Qed.

Lemma lstrip_all_space (r : string) :
  Text.all_space r = true -> Text.lstrip r = "".
Proof.
  induction r as [|c r IH]; simpl; intros H; [reflexivity|].
  apply andb_true_iff in H. destruct H as [Hc Hr]. rewrite Hc. apply IH, Hr.
Qed.

Lemma rstrip_all_space (r : string) :
  Text.all_space r = true -> Text.rstrip r = "".
Proof.
  induction r as [|c r IH]; simpl; intros H; [reflexivity|].
  apply andb_true_iff in H. destruct H as [Hc Hr].
  rewrite (IH Hr), Hc. reflexivity.
Qed.

Lemma rstrip_spaces (x r : string) :
  Text.all_space r = true -> Text.rstrip (x ++ r) = Text.rstrip x.
Proof.
  intros Hr. induction x as [|c x IH]; simpl.
  - apply rstrip_all_space, Hr.
  - rewrite IH. reflexivity.
Qed.

Lemma rstrip_fixed (x : string) :
  Text.last_char_space x = false -> Text.rstrip x = x.
Proof.
  induction x as [|c x IH]; intros H; [reflexivity|].
  destruct x as [|c' x'].
  - simpl in *. rewrite H. reflexivity.
  - change (Text.last_char_space (String c' x') = false) in H.
    change (Text.rstrip (String c (String c' x')))
      with (match Text.rstrip (String c' x') with
            | "" => if Text.isspace c then "" else String c ""
            | t => String c t
            end).
    rewrite (IH H). reflexivity.
Qed.

Lemma trimmed_unique (tok t : string) : trimmed tok t -> t = Text.strip tok.
Proof.
  intros (l & r & -> & Hl & Hr & Hf & Hla).
  unfold Text.strip. rewrite (lstrip_spaces l _ Hl).
  destruct t as [|c t].
  - simpl. rewrite (lstrip_all_space r Hr). reflexivity.
  - simpl in Hf. simpl Text.lstrip. rewrite Hf.
    change (String c (t ++ r)) with (String c t ++ r).
    rewrite (rstrip_spaces _ r Hr), (rstrip_fixed _ Hla). reflexivity.
Qed.

(** The specification determines the address: it is the one [server.py]
    computes. *)
Lemma client_ip_spec_unique (req : request) (ip : string) :
  client_ip_spec (x_forwarded_for req) (client_address req) ip ->
  ip = Server.forwarded_ip req.
Proof.
  intros (tok & t & Hft & Htr & ->).
  destruct (forwarded_ip_spec req) as (tok' & t' & Hft' & Htr' & ->).
  rewrite (first_token_unique _ _ _ Hft' Hft) in Htr'.
  rewrite (trimmed_unique _ _ Htr), (trimmed_unique _ _ Htr'). reflexivity.
Qed.

(** C7, as stated, fails: in [app.py] a request carrying the forwarding
    header ["1.2.3.4, 5.6.7.8"] from peer ["10.0.0.9"] gets the peer
    address, for GET and POST alike. *)
Lemma app_ignores_forwarding_header :
  let req := post_request (RawJson (JObj [])) in
  x_forwarded_for req = Some "1.2.3.4, 5.6.7.8"
  /\ dict_lookup "ip" (App.get_entry now0 req) = Some (JStr "10.0.0.9")
  /\ dict_lookup "ip" (App.post_entry now0 req (JObj [])) = Some (JStr "10.0.0.9")
  /\ ~ client_ip_spec (x_forwarded_for req) "10.0.0.9" "10.0.0.9".
Proof.
  cbv zeta. repeat split.
  intros (tok & t & (Hc & Hh) & (l & r & Htok & Hl & Hr & Hf & Hla) & Hip).
  simpl in Hh.
  assert (Etok : tok = "1.2.3.4").
  { destruct Hh as [<-|[rest Hrest]]; [discriminate Hc|].
    repeat (destruct tok as [|? tok];
            [ simpl in Hrest; try discriminate Hrest
            | simpl in Hrest; injection Hrest as <- Hrest;
              try discriminate Hc ]).
    all: try reflexivity.
    all: try (simpl in Hc; discriminate Hc). }
  rewrite Etok in Htok. clear Etok Hc Hh.
  assert (El : l = "").
  { destruct l as [|c l]; [reflexivity|].
    simpl in Htok. injection Htok as <- _. discriminate Hl. }
  subst l. simpl in Htok.
  destruct (String.eqb t "") eqn:Et.
  - apply String.eqb_eq in Et. subst t. simpl in Htok. subst r.
    discriminate Hr.
  - subst t. simpl in Htok.
    repeat (match type of Htok with
            | String _ _ = String _ _ => injection Htok as ? Htok; try discriminate
            | _ => discriminate Htok
            end).
Qed.

Lemma forwarded_ip_example :
  Server.forwarded_ip (post_request RawEmpty) = "1.2.3.4".
Proof. reflexivity. Qed.

Lemma forwarded_ip_absent (req : request) :
  x_forwarded_for req = None ->
  Server.forwarded_ip req = client_address req.
Proof.
  intros H. unfold Server.forwarded_ip. rewrite H. simpl.
  destruct (client_address req); reflexivity.
Qed.

(** C7, amended: [server.py] computes the address as the specification
    says (first comma-separated token of the forwarding header, trimmed,
    else the peer address) in both of its handlers; [app.py] does not read
    the forwarding header and takes the peer host reported by the
    framework (or [""] when there is none).  On GET this computed address
    is the Event's [ip]; on POST it is the Event's [ip] unless the payload
    supplies an [ip] member, which then replaces it. *)
Theorem client_ip_by_front_end :
  forall (now : Datetime.datetime) (req : request),
    (forall ip,
       client_ip_spec (x_forwarded_for req) (client_address req) ip
       <-> ip = Server.forwarded_ip req)
    /\ dict_lookup "ip" (Server.get_entry now req)
       = Some (JStr (Server.forwarded_ip req))
    /\ dict_lookup "ip" (App.get_entry now req)
       = Some (JStr (App.client_host req))
    /\ forall (payload : value),
         dict_lookup "ip" (Server.post_entry now req payload)
         = Some (match supplied payload "ip" with
                 | Some v => v
                 | None => JStr (Server.forwarded_ip req)
                 end)
         /\ dict_lookup "ip" (App.post_entry now req payload)
            = Some (match supplied payload "ip" with
                    | Some v => v
                    | None => JStr (App.client_host req)
                    end).
Proof.
  intros now req.
  split.
  { intros ip. split; [apply client_ip_spec_unique|].
    intros ->. apply forwarded_ip_spec. }
  split; [reflexivity|]. split; [reflexivity|].
  intros payload. rewrite app_post_lookup, server_post_lookup.
  destruct (supplied payload "ip"); split; reflexivity.
Qed.

(** ** The connection globals are never reassigned *)

Create HintDb keeps.

(** Unfolds the monad and the primitive actions. *)
Ltac run_m :=
  cbv beta iota zeta delta
    [bind ret raise try_except try_except_on ask read modify attempt called
     print_stderr urlopen log_append pg_execute_insert sqlite_execute_insert
     write_db pg_fetch fst snd].

Lemma keeps_ret {A : Type} (a : A) : keeps (ret a).
Proof. intros ev w. reflexivity. Qed.

Lemma keeps_raise {A : Type} (e : exn) : keeps (@raise A e).
Proof. intros ev w. reflexivity. Qed.

Lemma keeps_ask {A : Type} (f : env -> A) : keeps (ask f).
Proof. intros ev w. reflexivity. Qed.

Lemma keeps_read {A : Type} (f : world -> A) : keeps (read f).
Proof. intros ev w. reflexivity. Qed.

Lemma keeps_attempt (err : env -> option exn) : keeps (attempt err).
Proof. intros ev w. unfold attempt. destruct (err ev); reflexivity. Qed.

Lemma keeps_bind {A B : Type} (m : M A) (k : A -> M B) :
  keeps m -> (forall a, keeps (k a)) -> keeps (bind m k).
Proof.
  intros Hm Hk ev w. unfold bind.
  specialize (Hm ev w). destruct (m ev w) as [w' [a|e]]; simpl in *.
  - rewrite Hk. exact Hm.
  - exact Hm.
Qed.

Lemma keeps_try_except_on {A : Type} (c : exn -> bool) (m : M A)
  (h : exn -> M A) :
  keeps m -> (forall e, keeps (h e)) -> keeps (try_except_on c m h).
Proof.
  intros Hm Hh ev w. unfold try_except_on.
  specialize (Hm ev w). destruct (m ev w) as [w' [a|e]]; simpl in *.
  - exact Hm.
  - destruct (c e); simpl; [rewrite Hh|]; exact Hm.
Qed.

Lemma keeps_try_except {A : Type} (m : M A) (h : exn -> M A) :
  keeps m -> (forall e, keeps (h e)) -> keeps (try_except m h).
Proof. apply keeps_try_except_on. Qed.

Lemma keeps_print_stderr (msg : string) : keeps (print_stderr msg).
Proof. intros ev w. reflexivity. Qed.

Lemma keeps_called (c : call) : keeps (called c).
Proof. intros ev w. reflexivity. Qed.

Lemma keeps_urlopen (d : document) : keeps (urlopen d).
Proof.
  intros ev w. unfold urlopen, bind, attempt, modify.
  destruct (urlopen_error ev); reflexivity.
Qed.

Lemma keeps_log_append (d : document) : keeps (log_append d).
Proof.
  intros ev w. unfold log_append, bind, attempt, modify.
  destruct (log_write_error ev); reflexivity.
Qed.

#[local] Hint Resolve keeps_ret keeps_raise keeps_ask keeps_read keeps_attempt
  keeps_print_stderr keeps_called keeps_urlopen keeps_log_append : keeps.
#[local] Hint Extern 2 (keeps (bind _ _)) =>
  apply keeps_bind; [|intro] : keeps.
#[local] Hint Extern 2 (keeps (try_except _ _)) =>
  apply keeps_try_except; [|intro] : keeps.
#[local] Hint Extern 2 (keeps (try_except_on _ _ _)) =>
  apply keeps_try_except_on; [|intro] : keeps.
#[local] Hint Extern 3 (keeps (if ?b then _ else _)) => destruct b : keeps.

Lemma keeps_write_db (entry : dict) : keeps (write_db entry).
Proof.
  intros ev w. unfold conns. run_m. simpl.
  destruct (PG_CONN w) as [acc|] eqn:Epg; simpl.
  - destruct (pg_insert_error ev); simpl; rewrite ?Epg; reflexivity.
  - destruct (SQLITE_CONN w) as [t|] eqn:Esq; simpl.
    + destruct (sqlite_insert _ t); simpl.
      * destruct (sqlite_insert_error ev); simpl;
          [destruct (sqlite_row_pending ev); simpl|];
          rewrite ?Epg, ?Esq; reflexivity.
      * rewrite Epg, Esq. reflexivity.
    + rewrite Epg, Esq. reflexivity.
Qed.

Lemma keeps_assign_counts (fetch : select -> M Z)
  (stmts : list (string * select)) (stats : list (string * Z)) :
  (forall q, keeps (fetch q)) -> keeps (assign_counts fetch stmts stats).
Proof.
  intros Hf. revert stats.
  induction stmts as [|[k q] rest IH]; intros stats ev w; simpl.
  - reflexivity.
  - specialize (Hf q ev w). destruct (fetch q ev w) as [w' [n|e]]; simpl in *.
    + rewrite IH. exact Hf.
    + exact Hf.
Qed.

Lemma keeps_pg_fetch (q : select) : keeps (pg_fetch q).
Proof. intros ev w. reflexivity. Qed.

Lemma keeps_sqlite_fetch (q : select) : keeps (sqlite_fetch q).
Proof.
  intros ev w. unfold sqlite_fetch.
  destruct (SQLITE_CONN w); [destruct (sqlite_select_error ev q)|]; reflexivity.
Qed.

#[local] Hint Resolve keeps_write_db keeps_pg_fetch keeps_sqlite_fetch : keeps.

Lemma keeps_get_stats : keeps get_stats.
Proof.
  unfold get_stats.
  apply keeps_bind; [auto with keeps|]. intros now.
  apply keeps_bind; [auto with keeps|]. intros pg.
  apply keeps_bind.
  - destruct pg; apply keeps_assign_counts; auto with keeps.
  - intros [stats [err|]]; simpl; auto with keeps.
Qed.

#[local] Hint Resolve keeps_get_stats : keeps.

Lemma keeps_app_send_to_logtail (entry : dict) : keeps (App.send_to_logtail entry).
Proof. unfold App.send_to_logtail. auto 10 with keeps. Qed.

Lemma keeps_app_append_file (entry : dict) : keeps (App.append_file entry).
Proof. unfold App.append_file. auto 10 with keeps. Qed.

Lemma keeps_server_send_to_logtail (entry : dict) :
  keeps (Server.send_to_logtail entry).
Proof. unfold Server.send_to_logtail. auto 10 with keeps. Qed.

Lemma keeps_server_append_file (entry : dict) : keeps (Server.append_file entry).
Proof. unfold Server.append_file. auto 10 with keeps. Qed.

Lemma keeps_server_send_response (code : nat) :
  keeps (Server.send_response code).
Proof. intros ev w. reflexivity. Qed.

Lemma keeps_server_send_error (code : nat) (message : string) :
  keeps (Server.send_error code message).
Proof. intros ev w. reflexivity. Qed.

#[local] Hint Resolve keeps_app_send_to_logtail keeps_app_append_file
  keeps_server_send_to_logtail keeps_server_append_file
  keeps_server_send_response keeps_server_send_error : keeps.

Lemma keeps_app_serve (m : http_method) (req : request) : keeps (App.serve m req).
Proof.
  unfold App.serve, App.health, App.stats, App.visit_get, App.visit_post,
    App.persist, App.req_json.
  destruct m; repeat match goal with
                     | |- keeps (if ?b then _ else _) => destruct b
                     end; auto 12 with keeps.
  apply keeps_bind; [|auto 12 with keeps].
  apply keeps_try_except; [destruct (body req)|]; auto with keeps.
Qed.

Lemma keeps_server_serve (m : http_method) (req : request) :
  keeps (Server.serve m req).
Proof.
  unfold Server.serve, Server.do_GET, Server.do_POST, Server.parse_payload,
    Server.read_length, Server.loads_raw.
  destruct m; repeat match goal with
                     | |- keeps (if ?b then _ else _) => destruct b
                     end; auto 12 with keeps.
  apply keeps_bind; [destruct (content_length req); auto with keeps|].
  intros length. apply keeps_bind.
  - apply keeps_try_except_on; [|auto with keeps].
    apply keeps_bind; [|auto with keeps].
    destruct (Server.read_raw req length); auto with keeps.
  - intros [payload|]; auto 12 with keeps.
Qed.

Lemma run_keeps (serve : http_method -> request -> M response)
  (reqs : list served) (w : world) :
  (forall m req, keeps (serve m req)) ->
  conns (run serve reqs w) = conns w.
Proof.
  intros H. revert w.
  induction reqs as [|[[m req] ev] rest IH]; intros w; simpl.
  - reflexivity.
  - rewrite IH. apply H.
Qed.

Lemma active_conns (w w' : world) : conns w' = conns w -> active w' = active w.
Proof.
  unfold conns, active. intros H. injection H as H1 H2.
  destruct (PG_CONN w), (PG_CONN w'), (SQLITE_CONN w), (SQLITE_CONN w');
    simpl in *; congruence.
Qed.

(** ** C4: backend selection *)

(** C4: when the networked backend cannot be initialised, whatever the
    reason, its exception does not escape the selection: the embedded
    backend is initialised instead (only a failure of that initialisation
    itself can end the import).  From then on the networked connection is
    unset and the embedded one set, and both stay so through any sequence
    of requests served by either front-end. *)
Theorem fallback_to_embedded :
  forall (token POSTGRES_DSN : option string) (b : boot_env) (e : exn),
    try_postgres POSTGRES_DSN b = Raise e ->
    (forall e', select_backend token POSTGRES_DSN b = Raise e' ->
                init_sqlite b = Raise e')
    /\ forall conn,
         init_sqlite b = Ok conn ->
         exists w0,
           select_backend token POSTGRES_DSN b = Ok w0
           /\ PG_CONN w0 = None /\ SQLITE_CONN w0 = Some conn
           /\ forall reqs,
                active (run App.serve reqs w0) = Some Embedded
                /\ active (run Server.serve reqs w0) = Some Embedded.
Proof.
  intros token dsn b e Hpg. unfold select_backend. rewrite Hpg. simpl.
  split.
  - intros e' H. destruct (init_sqlite b); [discriminate H|congruence].
  - intros conn Hsq. rewrite Hsq. eexists. split; [reflexivity|].
    split; [reflexivity|]. split; [reflexivity|].
    intros reqs. split.
    + erewrite active_conns; [|apply run_keeps, keeps_app_serve]. reflexivity.
    + erewrite active_conns; [|apply run_keeps, keeps_server_serve]. reflexivity.
Qed.

Lemma fallback_to_embedded_witness :
  exists w0,
    select_backend None (Some "postgresql://db.invalid/visits") boot_refused
    = Ok w0
    /\ active (run Server.serve [(GET, post_request RawEmpty, calm)] w0)
       = Some Embedded.
Proof.
  assert (Hpg : try_postgres (Some "postgresql://db.invalid/visits")
                  boot_refused = Raise OSError) by reflexivity.
  assert (Hsq : init_sqlite boot_refused = Ok []) by reflexivity.
  destruct (proj2 (fallback_to_embedded None _ boot_refused OSError Hpg) [] Hsq)
    as (w0 & Hw0 & _ & _ & Hrun).
  exists w0. split; [exact Hw0|].
  exact (proj2 (Hrun [(GET, post_request RawEmpty, calm)])).
Defined.

(** Whatever the selection chose, exactly one connection is set and the
    choice does not change while requests are served. *)
Lemma one_backend_for_life
  (token POSTGRES_DSN : option string) (b : boot_env) (w0 : world) :
  select_backend token POSTGRES_DSN b = Ok w0 ->
  exists v,
    active w0 = Some v
    /\ forall reqs,
         active (run App.serve reqs w0) = Some v
         /\ active (run Server.serve reqs w0) = Some v.
Proof.
  unfold select_backend. intros H.
  assert (Hv : exists v, active w0 = Some v).
  { destruct (try_postgres POSTGRES_DSN b) as [[c|]|e]; simpl in H.
    - injection H as <-. exists Networked. reflexivity.
    - destruct (init_sqlite b); [|discriminate H].
      injection H as <-. exists Embedded. reflexivity.
    - destruct (init_sqlite b); [|discriminate H].
      injection H as <-. exists Embedded. reflexivity. }
  destruct Hv as [v Hv]. exists v. split; [exact Hv|].
  intros reqs. rewrite <- Hv. split.
  - apply active_conns, run_keeps, keeps_app_serve.
  - apply active_conns, run_keeps, keeps_server_serve.
Qed.

(** ** C5: [get_stats] *)

Lemma lookup_setitem_present {V : Type} (k k' : string) (v : V)
  (d : list (string * V)) :
  dict_lookup k d <> None -> dict_lookup k (dict_setitem k' v d) <> None.
Proof.
  intros H. rewrite lookup_setitem. destruct (String.eqb k' k); congruence.
Qed.

Lemma assign_counts_returns (fetch : select -> M Z)
  (stmts : list (string * select)) :
  forall (stats : list (string * Z)) (ev : env) (w : world),
    (forall k q, In (k, q) stmts -> dict_lookup k stats <> None) ->
    exists w' s err,
      assign_counts fetch stmts stats ev w = (w', Ok (s, err))
      /\ dict_keys s = dict_keys stats.
Proof.
  induction stmts as [|[k q] rest IH]; intros stats ev w Hin; simpl.
  - exists w, stats, None. split; reflexivity.
  - destruct (fetch q ev w) as [w1 [n|e]].
    + destruct (IH (dict_setitem k n stats) ev w1) as (w' & s & err & Hr & Hk).
      { intros k' q' H'. apply lookup_setitem_present. apply (Hin k' q').
        right. exact H'. }
      exists w', s, err. split; [exact Hr|]. rewrite Hk.
      apply keys_setitem_present. apply (Hin k q). left. reflexivity.
    + exists w1, stats, (Some e). split; reflexivity.
Qed.

Lemma assign_counts_first_raises (fetch : select -> M Z) (k : string)
  (q : select) (rest : list (string * select)) (stats : list (string * Z))
  (ev : env) (w w1 : world) (e : exn) :
  fetch q ev w = (w1, Raise e) ->
  assign_counts fetch ((k, q) :: rest) stats ev w = (w1, Ok (stats, Some e)).
Proof. intros H. simpl. rewrite H. reflexivity. Qed.

Lemma statements_have_counters (today k : string) (q : select) :
  In (k, q) pg_statements \/ In (k, q) (sqlite_statements today) ->
  dict_lookup k zero_stats <> None.
Proof.
  unfold pg_statements, sqlite_statements. simpl.
  intros [H|H];
    repeat (destruct H as [H|H]; [injection H as <- _; simpl; discriminate|]);
    destruct H.
Qed.

(** C5: [get_stats] returns for every state of the process and of the
    backend, never raising; what it returns has exactly the seven counters;
    and when the backend cannot be reached all seven are zero. *)
Theorem get_stats_total :
  forall (ev : env) (w : world),
  exists w' stats,
    get_stats ev w = (w', Ok stats)
    /\ dict_keys stats = counter_names
    /\ (unreachable ev w -> stats = zero_stats).
Proof.
  intros ev w. unfold get_stats.
  cbv beta iota zeta delta [bind ask read].
  set (today := Datetime.date_isoformat (Datetime.date_of (utcnow ev))).
  destruct (PG_CONN w) as [acc|] eqn:Epg.
  - destruct (assign_counts_returns pg_fetch pg_statements zero_stats ev w)
      as (w1 & s & err & Hr & Hk).
    { intros k q H. apply (statements_have_counters today k q). left. exact H. }
    assert (Hzero : unreachable ev w -> s = zero_stats).
    { unfold unreachable. rewrite Epg. intros Hu.
      destruct (Hu count_all) as [e He].
      unfold pg_statements in Hr.
      rewrite (assign_counts_first_raises pg_fetch _ _ _ _ ev w w e) in Hr.
      - congruence.
      - unfold pg_fetch. rewrite He. reflexivity. }
    rewrite Hr. simpl.
    destruct err; simpl; eexists; eexists;
      (split; [reflexivity|split; [exact Hk|exact Hzero]]).
  - destruct (assign_counts_returns sqlite_fetch (sqlite_statements today)
                zero_stats ev w) as (w1 & s & err & Hr & Hk).
    { intros k q H. apply (statements_have_counters today k q). right. exact H. }
    assert (Hzero : unreachable ev w -> s = zero_stats).
    { unfold unreachable. rewrite Epg. intros Hu.
      assert (Hf : exists e, sqlite_fetch count_all ev w = (w, Raise e)).
      { unfold sqlite_fetch. destruct Hu as [Hn|Hq].
        - rewrite Hn. eexists. reflexivity.
        - destruct (SQLITE_CONN w); [|eexists; reflexivity].
          destruct (Hq count_all) as [e He]. rewrite He. eexists. reflexivity. }
      destruct Hf as [e He].
      unfold sqlite_statements in Hr.
      rewrite (assign_counts_first_raises sqlite_fetch _ _ _ _ ev w w e He) in Hr.
      congruence. }
    rewrite Hr. simpl.
    destruct err; simpl; eexists; eexists;
      (split; [reflexivity|split; [exact Hk|exact Hzero]]).
Qed.

Lemma get_stats_total_witness :
  exists w',
    get_stats database_down embedded_world = (w', Ok zero_stats).
Proof.
  destruct (get_stats_total database_down embedded_world)
    as (w' & stats & Hrun & _ & Hzero).
  exists w'. rewrite Hrun.
  assert (Hu : unreachable database_down embedded_world).
  { right. intros q. exists OperationalError. reflexivity. }
  rewrite (Hzero Hu). reflexivity.
Defined.

(** ** C1: the fan-out *)

Lemma app_send_to_logtail_isolated (entry : dict) :
  isolated (call_send_to_logtail entry) (App.send_to_logtail entry).
Proof.
  intros ev w. unfold App.send_to_logtail. run_m. simpl.
  destruct (token_missing (LOGTAIL_TOKEN w)); simpl.
  - eexists. split; reflexivity.
  - destruct (urlopen_error ev); simpl; eexists; split; reflexivity.
Qed.

Lemma app_append_file_isolated (entry : dict) :
  isolated (call_append_file entry) (App.append_file entry).
Proof.
  intros ev w. unfold App.append_file. run_m. simpl.
  destruct (log_write_error ev); simpl; eexists; split; reflexivity.
Qed.

Lemma write_db_isolated (entry : dict) :
  isolated (call_write_db entry) (write_db entry).
Proof.
  intros ev w. run_m. simpl.
  destruct (PG_CONN w) as [acc|]; simpl.
  - destruct (pg_insert_error ev); simpl; eexists; split; reflexivity.
  - destruct (SQLITE_CONN w) as [t|]; simpl.
    + destruct (sqlite_insert _ t); simpl.
      * destruct (sqlite_insert_error ev); simpl;
          [destruct (sqlite_row_pending ev); simpl|];
          eexists; split; reflexivity.
      * eexists; split; reflexivity.
    + eexists; split; reflexivity.
Qed.

Lemma server_send_to_logtail_isolated (entry : dict) :
  isolated (call_send_to_logtail entry) (Server.send_to_logtail entry).
Proof.
  intros ev w. unfold Server.send_to_logtail. run_m. simpl.
  destruct (token_missing (LOGTAIL_TOKEN w)); simpl.
  - eexists. split; reflexivity.
  - destruct (urlopen_error ev); simpl; eexists; split; reflexivity.
Qed.

Lemma isolated_then {A : Type} (c : call) (m : M unit) (k : M A)
  (ev : env) (w : world) :
  isolated c m ->
  exists w1,
    calls w1 = (calls w ++ [c])%list
    /\ bind m (fun _ => k) ev w = k ev w1.
Proof.
  intros H. destruct (H ev w) as (w1 & Hm & Hc).
  exists w1. split; [exact Hc|]. unfold bind. rewrite Hm. reflexivity.
Qed.

(** In [app.py] the three sinks are entered in order with the same entry,
    and [persist] returns, whatever fails inside them. *)
Lemma app_persist_fan_out (entry : dict) (ev : env) (w : world) :
  exists w',
    App.persist entry ev w = (w', Ok tt)
    /\ calls w' = (calls w ++ fan_out entry)%list.
Proof.
  unfold App.persist.
  destruct (isolated_then _ _ (bind (App.append_file entry)
                                  (fun _ => write_db entry)) ev w
              (app_send_to_logtail_isolated entry)) as (w1 & Hc1 & ->).
  destruct (isolated_then _ _ (write_db entry) ev w1
              (app_append_file_isolated entry)) as (w2 & Hc2 & ->).
  destruct (write_db_isolated entry ev w2) as (w3 & -> & Hc3).
  exists w3. split; [reflexivity|].
  rewrite Hc3, Hc2, Hc1, <- !app_assoc. reflexivity.
Qed.

Lemma app_visit_post_accepted (req : request) (ev : env) (w : world) :
  exists w',
    App.visit_post req ev w = (w', Ok (Response 204))
    /\ calls w'
       = (calls w
          ++ fan_out (App.post_entry (utcnow ev) req
                        (parsed_or_empty (body req))))%list.
Proof.
  unfold App.visit_post, App.req_json.
  cbv beta iota zeta delta [bind try_except try_except_on ask ret raise].
  destruct (app_persist_fan_out
              (App.post_entry (utcnow ev) req (parsed_or_empty (body req)))
              ev w) as (w' & Hp & Hc).
  exists w'. split; [|exact Hc].
  destruct (body req); simpl in *; rewrite Hp; reflexivity.
Qed.

Lemma app_visit_get_accepted (req : request) (ev : env) (w : world) :
  exists w',
    App.visit_get req ev w = (w', Ok (Response 204))
    /\ calls w' = (calls w ++ fan_out (App.get_entry (utcnow ev) req))%list.
Proof.
  unfold App.visit_get.
  cbv beta iota zeta delta [bind ask ret].
  destruct (app_persist_fan_out (App.get_entry (utcnow ev) req) ev w)
    as (w' & Hp & Hc).
  exists w'. split; [|exact Hc]. rewrite Hp. reflexivity.
Qed.

(** C1 against [server.py]: with a log file that cannot be written, a POST
    and a GET of a visit both end in the [OSError] raised inside
    [append_file].  The remote and file sinks were entered, the storage
    insert never was (the table is still empty), and no 204 is returned. *)
Theorem server_file_failure_escapes :
  let req := post_request (RawJson (JObj [])) in
  let post := Server.do_POST req log_unwritable embedded_world in
  let get := Server.do_GET req log_unwritable embedded_world in
  snd post = Raise OSError
  /\ calls (fst post)
     = [ call_send_to_logtail (Server.post_entry now0 req (JObj []));
         call_append_file (Server.post_entry now0 req (JObj [])) ]
  /\ SQLITE_CONN (fst post) = Some []
  /\ snd get = Raise OSError
  /\ calls (fst get)
     = [ call_send_to_logtail (Server.get_entry now0 req);
         call_append_file (Server.get_entry now0 req) ]
  /\ SQLITE_CONN (fst get) = Some [].
Proof. cbv zeta. repeat split; reflexivity. Qed.

(** The same requests against [app.py]: all three sinks are entered and
    the caller gets its 204. *)
Lemma app_file_failure_contained :
  let req := post_request (RawJson (JObj [])) in
  let post := App.visit_post req log_unwritable embedded_world in
  snd post = Ok (Response 204)
  /\ calls (fst post) = fan_out (App.post_entry now0 req (JObj []))
  /\ option_map (@List.length _) (SQLITE_CONN (fst post)) = Some 1.
Proof. cbv zeta. repeat split; reflexivity. Qed.

(** ** C3: bodies that are not a JSON object *)

Lemma update_if_dict_usable (entry : dict) (b : raw_body) :
  update_if_dict entry (parsed_or_empty b) = update_if_dict entry (usable b).
Proof. destruct b as [| | |v|e]; try reflexivity. destruct v; reflexivity. Qed.

Lemma app_post_entry_usable (now : Datetime.datetime) (req : request)
  (b : raw_body) :
  App.post_entry now req (parsed_or_empty b) = App.post_entry now req (usable b).
Proof. unfold App.post_entry. rewrite update_if_dict_usable. reflexivity. Qed.


Lemma server_append_file_writable (entry : dict) (ev : env) (w : world) :
  mkdir_error ev = None -> log_write_error ev = None ->
  exists w',
    Server.append_file entry ev w = (w', Ok tt)
    /\ calls w' = (calls w ++ [call_append_file entry])%list.
Proof.
  intros Hm Hl. unfold Server.append_file. run_m. rewrite Hm, Hl. simpl.
  eexists. split; reflexivity.
Qed.


Lemma server_do_POST_read (req : request) (ev : env) (w : world) (n : Z) :
  visit_path (url_path req) = true ->
  Server.read_length req = ret n ->
  Server.do_POST req ev w
  = (parsed <- Server.parse_payload (Server.read_raw req n) ;;
     match parsed with
     | None => Server.send_error 400 "Invalid JSON"
     | Some payload =>
         now <- ask utcnow ;;
         let entry := Server.post_entry now req payload in
         Server.send_to_logtail entry ;;
         Server.append_file entry ;;
         write_db entry ;;
         Server.send_response 204 ;;
         ret (Response 204)
     end) ev w.
Proof.
  intros Hpath Hlen. unfold Server.do_POST.
  rewrite Hpath, Hlen. reflexivity.
Qed.




(** ** C10: what [write_db] stores *)

Lemma insert_params_defaults (entry : dict) :
  insert_params entry
  = map (fun cd => dict_get entry (fst cd) (snd cd)) column_defaults.
Proof. reflexivity. Qed.

Lemma insert_columns_defaults : insert_columns = map fst column_defaults.
Proof. reflexivity. Qed.

Lemma assoc_not_in (c : string) (names : list string)
  (xs : list Sqlite.sqlval) :
  ~ In c names -> Sqlite.assoc c (combine names xs) = Sqlite.NULL.
Proof.
  revert xs. induction names as [|n names IH]; intros xs Hn; simpl.
  - reflexivity.
  - destruct xs as [|x xs]; [reflexivity|]. simpl.
    destruct (String.eqb n c) eqn:E.
    + apply String.eqb_eq in E. subst. exfalso. apply Hn. left. reflexivity.
    + apply IH. intros H. apply Hn. right. exact H.
Qed.

(** Each bound parameter lands in the column of the same position. *)
Lemma bind_all_cells (entry : dict) (cds : list (string * value)) :
  forall xs,
    NoDup (map fst cds) ->
    Sqlite.bind_all (map (fun cd => dict_get entry (fst cd) (snd cd)) cds)
    = Ok xs ->
    forall c dflt,
      In (c, dflt) cds ->
      Sqlite.bind (dict_get entry c dflt)
      = Ok (Sqlite.assoc c (combine (map fst cds) xs)).
Proof.
  induction cds as [|[c0 d0] cds IH]; intros xs Hnd Hb c dflt Hin.
  - destruct Hin.
  - simpl in Hb. inversion Hnd as [|? ? Hnot Hnd']; subst.
    destruct (Sqlite.bind (dict_get entry c0 d0)) as [x|e] eqn:Eb;
      [|discriminate Hb].
    destruct (Sqlite.bind_all _) as [xs'|e] eqn:Eall; [|discriminate Hb].
    injection Hb as <-. simpl.
    destruct Hin as [Heq|Hin].
    + injection Heq as -> ->. rewrite String.eqb_refl. exact Eb.
    + destruct (String.eqb c0 c) eqn:E.
      * apply String.eqb_eq in E. subst c0. exfalso. apply Hnot.
        change c with (fst (c, dflt)). apply in_map. exact Hin.
      * apply (IH xs' Hnd' eq_refl c dflt Hin).
Qed.

Lemma column_defaults_nodup : NoDup (map fst column_defaults).
Proof.
  simpl. repeat (constructor; [simpl; intuition discriminate|]). constructor.
Qed.

(** A column keeps, under its own affinity, the parameter bound for it. *)
Lemma assoc_store_row (c : string) (names : list string) :
  forall xs,
    Sqlite.assoc c (Sqlite.store_row names xs)
    = Sqlite.store (Sqlite.column_affinity c)
                   (Sqlite.assoc c (combine names xs)).
Proof.
  unfold Sqlite.store_row.
  induction names as [|n names IH]; intros xs.
  - destruct (Sqlite.column_affinity c); reflexivity.
  - destruct xs as [|x xs].
    + destruct (Sqlite.column_affinity c); reflexivity.
    + cbn [combine map Sqlite.assoc fst snd].
      destruct (String.eqb n c) eqn:E.
      * apply String.eqb_eq in E. subst n. reflexivity.
      * apply IH.
Qed.

Lemma row_cells (entry : dict) (xs : list Sqlite.sqlval) (c : string)
  (dflt : value) :
  Sqlite.bind_all (insert_params entry) = Ok xs ->
  In (c, dflt) column_defaults ->
  exists x,
    Sqlite.bind (dict_get entry c dflt) = Ok x
    /\ Sqlite.cell c (row_of entry xs)
       = Sqlite.store (Sqlite.column_affinity c) x.
Proof.
  intros Hb Hin.
  exists (Sqlite.assoc c (combine (map fst column_defaults) xs)). split.
  - apply (bind_all_cells entry column_defaults xs column_defaults_nodup);
      [rewrite <- insert_params_defaults; exact Hb|exact Hin].
  - unfold Sqlite.cell, row_of. cbn [Sqlite.cells].
    rewrite assoc_store_row, insert_columns_defaults. reflexivity.
Qed.

(** The embedded branch of [write_db] when the parameters bind and the
    engine does not fail: one row is appended. *)
Lemma write_db_embedded (entry : dict) (ev : env) (w : world)
  (t : Sqlite.table) (xs : list Sqlite.sqlval) :
  PG_CONN w = None -> SQLITE_CONN w = Some t ->
  sqlite_insert_error ev = None ->
  Sqlite.bind_all (insert_params entry) = Ok xs ->
  write_db entry ev w
  = (set_SQLITE_CONN (Some (t ++ [row_of entry xs])%list)
       (add_call (call_write_db entry) w), Ok tt).
Proof.
  intros Hpg Hsq Herr Hb. run_m. simpl.
  rewrite Hpg. simpl. rewrite Hsq. unfold sqlite_insert.
  cbn [keyed payload_json]. rewrite Hb, Herr. reflexivity.
Qed.

(** The embedded branch when a parameter does not bind: nothing is stored. *)
Lemma write_db_unbound (entry : dict) (ev : env) (w : world)
  (t : Sqlite.table) (e : exn) :
  PG_CONN w = None -> SQLITE_CONN w = Some t ->
  Sqlite.bind_all (insert_params entry) = Raise e ->
  SQLITE_CONN (fst (write_db entry ev w)) = Some t
  /\ snd (write_db entry ev w) = Ok tt.
Proof.
  intros Hpg Hsq Hb. run_m. simpl.
  rewrite Hpg. simpl. rewrite Hsq. unfold sqlite_insert.
  cbn [keyed payload_json]. rewrite Hb. simpl. rewrite Hsq. split; reflexivity.
Qed.

(** The networked branch when the server accepts the statement. *)
Lemma write_db_networked (entry : dict) (ev : env) (w : world)
  (accepted : list params) :
  PG_CONN w = Some accepted -> pg_insert_error ev = None ->
  PG_CONN (fst (write_db entry ev w))
  = Some (accepted
          ++ [mkparams
                (map (fun cd => dict_get entry (fst cd) (snd cd)) column_defaults)
                (json_dumps false entry)])%list.
Proof.
  intros Hpg Herr. run_m. simpl. rewrite Hpg. simpl. rewrite Herr. reflexivity.
Qed.

Lemma bind_null (v : value) :
  Sqlite.bind v = Ok Sqlite.NULL <-> v = JNull \/ v = JFloat NaN.
Proof.
  split.
  - destruct v as [|b|n|[|text]|s|items|members]; unfold Sqlite.bind; intros H;
      try discriminate H; auto.
    destruct ((- 2 ^ 63 <=? n) && (n <? 2 ^ 63))%Z; discriminate H.
  - intros [->| ->]; reflexivity.
Qed.

Lemma store_null (a : Sqlite.affinity) (x : Sqlite.sqlval) :
  Sqlite.store a x = Sqlite.NULL <-> x = Sqlite.NULL.
Proof.
  split.
  - destruct a, x; simpl; intros H; try discriminate H; reflexivity.
  - intros ->. destruct a; reflexivity.
Qed.

Lemma default_not_null (c : string) (dflt : value) :
  In (c, dflt) column_defaults -> dflt <> JNull /\ dflt <> JFloat NaN.
Proof.
  simpl. intros H.
  repeat (destruct H as [H|H];
          [injection H as <- <-; split; discriminate|]).
  destruct H.
Qed.

Lemma default_cell (c : string) (dflt : value) (x : Sqlite.sqlval) :
  In (c, dflt) column_defaults ->
  Sqlite.bind dflt = Ok x ->
  Sqlite.store (Sqlite.column_affinity c) x
  = if String.eqb c "sessionStarted" then Sqlite.INTEGER 0 else Sqlite.TEXT "".
Proof.
  simpl. intros H.
  repeat (destruct H as [H|H];
          [injection H as <- <-; simpl; intros Hx; injection Hx as <-;
           reflexivity|]).
  destruct H.
Qed.

Lemma bind_bindable (v : value) :
  bindable v = true <-> exists x, Sqlite.bind v = Ok x.
Proof.
  destruct v as [|b|n|[|text]|s|items|members]; unfold bindable, Sqlite.bind;
    try (split; [intros _; eexists; reflexivity|reflexivity]);
    try (split; [discriminate|intros [x H]; discriminate H]).
  destruct ((- 2 ^ 63 <=? n) && (n <? 2 ^ 63))%Z.
  - split; [intros _; eexists; reflexivity|reflexivity].
  - split; [discriminate|intros [x H]; discriminate H].
Qed.

Lemma bind_all_forall (vs : list value) :
  (exists xs, Sqlite.bind_all vs = Ok xs) <-> forallb bindable vs = true.
Proof.
  induction vs as [|v vs IH]; simpl.
  - split; [reflexivity|intros _; eexists; reflexivity].
  - rewrite andb_true_iff, <- IH, bind_bindable. split.
    + intros [xs H]. destruct (Sqlite.bind v) as [x|e]; [|discriminate H].
      destruct (Sqlite.bind_all vs) as [xs'|e]; [|discriminate H].
      split; eexists; reflexivity.
    + intros [[x Hx] [xs Hxs]]. rewrite Hx, Hxs. eexists. reflexivity.
Qed.

(** One keyed value that cannot be bound keeps the whole tuple out. *)
Lemma unbindable_param (entry : dict) (c : string) (dflt : value) :
  In (c, dflt) column_defaults ->
  bindable (dict_get entry c dflt) = false ->
  forallb bindable (insert_params entry) = false.
Proof.
  intros Hin Hb.
  destruct (forallb bindable (insert_params entry)) eqn:E; [|reflexivity].
  rewrite insert_params_defaults in E.
  rewrite forallb_forall in E.
  rewrite <- Hb. symmetry. apply E.
  apply (in_map (fun cd => dict_get entry (fst cd) (snd cd)) _ _ Hin).
Qed.

Lemma write_db_bind_error (entry : dict) (ev : env) (w : world)
  (t : Sqlite.table) :
  PG_CONN w = None -> SQLITE_CONN w = Some t ->
  forallb bindable (insert_params entry) = false ->
  write_db entry ev w
  = (add_stderr "DB write error:" (add_call (call_write_db entry) w), Ok tt).
Proof.
  intros Hpg Hsq Hb. run_m. simpl.
  rewrite Hpg. simpl. rewrite Hsq. unfold sqlite_insert.
  cbn [keyed payload_json].
  destruct (Sqlite.bind_all (insert_params entry)) as [xs|e] eqn:E.
  - assert (H : forallb bindable (insert_params entry) = true)
      by (apply bind_all_forall; exists xs; exact E).
    congruence.
  - reflexivity.
Qed.

Lemma app_one_more {A : Type} (l : list A) (a : A) : (l ++ [a])%list <> l.
Proof.
  intros H. apply (f_equal (@List.length A)) in H.
  rewrite length_app in H. simpl in H. lia.
Qed.

(** The embedded branch when the parameters bind and the engine raises:
    the error is printed, and the row is on the connection or not as the
    environment says. *)
Lemma write_db_engine_error (entry : dict) (ev : env) (w : world)
  (t : Sqlite.table) (xs : list Sqlite.sqlval) (e : exn) :
  PG_CONN w = None -> SQLITE_CONN w = Some t ->
  sqlite_insert_error ev = Some e ->
  Sqlite.bind_all (insert_params entry) = Ok xs ->
  write_db entry ev w
  = (add_stderr "DB write error:"
       (if sqlite_row_pending ev
        then set_SQLITE_CONN (Some (t ++ [row_of entry xs])%list)
               (add_call (call_write_db entry) w)
        else add_call (call_write_db entry) w), Ok tt).
Proof.
  intros Hpg Hsq Herr Hb. run_m. simpl.
  rewrite Hpg. simpl. rewrite Hsq. unfold sqlite_insert.
  cbn [keyed payload_json]. rewrite Hb, Herr.
  destruct (sqlite_row_pending ev); reflexivity.
Qed.

(** What the embedded branch of [write_db] leaves on the connection: the
    table as it was, or the table with the entry's row behind it. *)
Lemma write_db_table (entry : dict) (ev : env) (w : world) (t : Sqlite.table) :
  PG_CONN w = None -> SQLITE_CONN w = Some t ->
  SQLITE_CONN (fst (write_db entry ev w)) = Some t
  \/ exists xs,
       Sqlite.bind_all (insert_params entry) = Ok xs
       /\ SQLITE_CONN (fst (write_db entry ev w))
          = Some (t ++ [row_of entry xs])%list.
Proof.
  intros Hpg Hsq.
  destruct (Sqlite.bind_all (insert_params entry)) as [xs|e] eqn:E.
  - destruct (sqlite_insert_error ev) as [e|] eqn:Herr.
    + rewrite (write_db_engine_error entry ev w t xs e Hpg Hsq Herr E).
      destruct (sqlite_row_pending ev).
      * right. exists xs. split; reflexivity.
      * left. exact Hsq.
    + right. exists xs. split; [reflexivity|].
      rewrite (write_db_embedded entry ev w t xs Hpg Hsq Herr E). reflexivity.
  - left. apply (write_db_unbound entry ev w t e Hpg Hsq E).
Qed.

(** When [write_db] prints nothing, the row is there. *)
Lemma write_db_silent (entry : dict) (ev : env) (w : world) (t : Sqlite.table) :
  PG_CONN w = None -> SQLITE_CONN w = Some t ->
  stderr (fst (write_db entry ev w)) = stderr w ->
  exists xs,
    Sqlite.bind_all (insert_params entry) = Ok xs
    /\ SQLITE_CONN (fst (write_db entry ev w))
       = Some (t ++ [row_of entry xs])%list.
Proof.
  intros Hpg Hsq.
  destruct (forallb bindable (insert_params entry)) eqn:Hb.
  - apply bind_all_forall in Hb. destruct Hb as [xs Hxs].
    destruct (sqlite_insert_error ev) as [e|] eqn:Herr.
    + rewrite (write_db_engine_error entry ev w t xs e Hpg Hsq Herr Hxs).
      destruct (sqlite_row_pending ev); cbn [fst stderr add_stderr];
        intros H; destruct (app_one_more _ _ H).
    + rewrite (write_db_embedded entry ev w t xs Hpg Hsq Herr Hxs).
      intros _. exists xs. split; [exact Hxs|reflexivity].
  - rewrite (write_db_bind_error entry ev w t Hpg Hsq Hb).
    cbn [fst stderr add_stderr]. intros H. destruct (app_one_more _ _ H).
Qed.

(** A row that [write_db] added is the row of the entry. *)
Lemma write_db_row (entry : dict) (ev : env) (w : world) (t : Sqlite.table)
  (r : Sqlite.row) :
  PG_CONN w = None -> SQLITE_CONN w = Some t ->
  SQLITE_CONN (fst (write_db entry ev w)) = Some (t ++ [r])%list ->
  exists xs,
    Sqlite.bind_all (insert_params entry) = Ok xs /\ r = row_of entry xs.
Proof.
  intros Hpg Hsq Hr.
  destruct (write_db_table entry ev w t Hpg Hsq) as [H|(xs & Hxs & H)];
    rewrite H in Hr; injection Hr as Hr.
  - symmetry in Hr. destruct (app_one_more _ _ Hr).
  - exists xs. split; [exact Hxs|].
    apply app_inv_head in Hr. injection Hr as <-. reflexivity.
Qed.

(** C10, as stated, fails: a POST with body [{"event": null}] is stored
    with NULL in the [event] column. *)
Lemma explicit_null_is_stored :
  let req := post_request (RawJson (JObj [("event", JNull)])) in
  exists r,
    SQLITE_CONN (fst (App.visit_post req calm embedded_world)) = Some [r]
    /\ Sqlite.cell "event" r = Sqlite.NULL
    /\ ~ populated r.
Proof.
  cbv zeta. eexists. split; [reflexivity|]. split; [reflexivity|].
  intros H. apply (H "event" (JStr "")); [simpl; tauto|reflexivity].
Qed.

(** A POST with body [{"utm": ["a"]}] is not stored at all: the parameter
    does not bind and [write_db] swallows the error. *)
Lemma list_value_is_not_stored :
  let req := post_request (RawJson (JObj [("utm", JArr [JStr "a"])])) in
  App.visit_post req calm embedded_world
  = (mkworld None None (Some [])
       [] [json_dumps false
             (App.post_entry now0 req (JObj [("utm", JArr [JStr "a"])]))]
       ["DB write error:"]
       (fan_out (App.post_entry now0 req (JObj [("utm", JArr [JStr "a"])]))),
     Ok (Response 204)).
Proof. reflexivity. Qed.

(** A POST with body [{"event": NaN}], which [json.loads] accepts, is
    stored with NULL in the [event] column as well. *)
Lemma nan_is_stored_as_null :
  let req := post_request (RawJson (JObj [("event", JFloat NaN)])) in
  exists r,
    SQLITE_CONN (fst (Server.do_POST req calm embedded_world)) = Some [r]
    /\ Sqlite.cell "event" r = Sqlite.NULL.
Proof. cbv zeta. eexists. split; reflexivity. Qed.

(** C10, amended.  A row that [write_db] adds on the embedded backend
    holds, in each keyed column, the entry's value under that key if the
    key is present and otherwise the default -- the empty string, or 0
    for [sessionStarted] -- as the sqlite3 module binds it and the column
    keeps it (a number under a text column becomes its text); the
    [payload] column holds the serialization of the whole entry.  A
    missing key therefore never leaves a NULL, but a key present with
    [null] or with a NaN does: a column is NULL exactly in these two
    cases.  The row is there whenever [write_db] printed no error; it is
    not when one of the keyed values is a list, an object or an integer
    beyond 64 bits.  The networked branch sends the same values. *)
Theorem stored_row_columns :
  forall (entry : dict) (ev : env) (w : world),
    (forall t r,
       PG_CONN w = None -> SQLITE_CONN w = Some t ->
       SQLITE_CONN (fst (write_db entry ev w)) = Some (t ++ [r])%list ->
       Sqlite.payload r = json_dumps false entry
       /\ forall c dflt,
            In (c, dflt) column_defaults ->
            (exists x,
               Sqlite.bind (dict_get entry c dflt) = Ok x
               /\ Sqlite.cell c r
                  = Sqlite.store (Sqlite.column_affinity c) x)
            /\ (dict_lookup c entry = None ->
                Sqlite.cell c r
                = if String.eqb c "sessionStarted" then Sqlite.INTEGER 0
                  else Sqlite.TEXT "")
            /\ (Sqlite.cell c r = Sqlite.NULL <->
                dict_lookup c entry = Some JNull
                \/ dict_lookup c entry = Some (JFloat NaN)))
    /\ (forall t,
          PG_CONN w = None -> SQLITE_CONN w = Some t ->
          stderr (fst (write_db entry ev w)) = stderr w ->
          exists r,
            SQLITE_CONN (fst (write_db entry ev w)) = Some (t ++ [r])%list)
    /\ (forall t c dflt,
          PG_CONN w = None -> SQLITE_CONN w = Some t ->
          In (c, dflt) column_defaults ->
          bindable (dict_get entry c dflt) = false ->
          SQLITE_CONN (fst (write_db entry ev w)) = Some t)
    /\ (forall accepted,
          PG_CONN w = Some accepted -> pg_insert_error ev = None ->
          PG_CONN (fst (write_db entry ev w))
          = Some (accepted
                  ++ [mkparams
                        (map (fun cd => dict_get entry (fst cd) (snd cd))
                             column_defaults)
                        (json_dumps false entry)])%list).
Proof.
  intros entry ev w. split; [|split; [|split]].
  - intros t r Hpg Hsq Hr.
    destruct (write_db_row entry ev w t r Hpg Hsq Hr) as (xs & Hb & ->).
    split; [reflexivity|].
    intros c dflt Hin.
    destruct (row_cells entry xs c dflt Hb Hin) as (x & Hx & Hcell).
    split; [exists x; split; assumption|]. split.
    + intros Hmiss. unfold dict_get in Hx. rewrite Hmiss in Hx.
      rewrite Hcell. apply (default_cell c dflt x Hin Hx).
    + rewrite Hcell, store_null. split.
      * intros ->. apply bind_null in Hx. unfold dict_get in Hx.
        destruct (dict_lookup c entry) as [v|].
        -- destruct Hx as [->| ->]; auto.
        -- destruct (default_not_null c dflt Hin) as [H1 H2].
           destruct Hx; contradiction.
      * intros Hl.
        assert (Hnull : Sqlite.bind (dict_get entry c dflt) = Ok Sqlite.NULL).
        { apply bind_null. unfold dict_get.
          destruct Hl as [->| ->]; auto. }
        congruence.
  - intros t Hpg Hsq Hquiet.
    destruct (write_db_silent entry ev w t Hpg Hsq Hquiet) as (xs & _ & H).
    exists (row_of entry xs). exact H.
  - intros t c dflt Hpg Hsq Hin Hb.
    rewrite (write_db_bind_error entry ev w t Hpg Hsq
               (unbindable_param entry c dflt Hin Hb)).
    exact Hsq.
  - intros accepted Hpg Herr. apply write_db_networked; assumption.
Qed.

Lemma stored_row_columns_witness :
  let entry := [("event", JInt 5); ("path", JFloat NaN);
                ("sessionStarted", JStr "123")] in
  let r := stored_row entry in
  Sqlite.payload r = json_dumps false entry
  /\ Sqlite.cell "event" r = Sqlite.TEXT "5"
  /\ Sqlite.cell "path" r = Sqlite.NULL
  /\ Sqlite.cell "sessionStarted" r = Sqlite.NUMERIC_TEXT "123"
  /\ Sqlite.cell "utm" r = Sqlite.TEXT "".
Proof.
  cbv zeta.
  destruct (proj1 (stored_row_columns
                     [("event", JInt 5); ("path", JFloat NaN);
                      ("sessionStarted", JStr "123")] calm embedded_world)
              []
              (stored_row [("event", JInt 5); ("path", JFloat NaN);
                           ("sessionStarted", JStr "123")])
              eq_refl eq_refl eq_refl) as (Hpay & Hcols).
  split; [exact Hpay|]. split; [|split; [|split]].
  - destruct (Hcols "event" (JStr "")) as ((x & Hx & Hc) & _ & _);
      [simpl; tauto|].
    injection Hx as <-. exact Hc.
  - destruct (Hcols "path" (JStr "")) as (_ & _ & Hnull); [simpl; tauto|].
    apply Hnull. right. reflexivity.
  - destruct (Hcols "sessionStarted" (JInt 0)) as ((x & Hx & Hc) & _ & _);
      [simpl; tauto|].
    injection Hx as <-. exact Hc.
  - destruct (Hcols "utm" (JStr "")) as (_ & Hmiss & _); [simpl; tauto|].
    exact (Hmiss eq_refl).
Defined.

(** ** C6: which optional fields the Event carries *)

(** C6, as stated, fails: the Event built for a POST with body [{}] has no
    [sessionStarted] (nor [event], [sessionId], [utm]) member, and that is
    the record the file sink writes. *)
Lemma empty_post_leaves_fields_unset :
  let req := post_request (RawJson (JObj [])) in
  let entry := App.post_entry now0 req (JObj []) in
  dict_lookup "sessionStarted" entry = None
  /\ ~ fully_populated entry
  /\ visits_log (fst (App.visit_post req calm embedded_world))
     = [json_dumps false entry]
  /\ ~ fully_populated (Server.post_entry now0 req (JObj [])).
Proof.
  cbv zeta. split; [reflexivity|]. split; [|split; [reflexivity|]].
  - intros H. apply (H "sessionStarted"); [simpl; tauto|reflexivity].
  - intros H. apply (H "sessionStarted"); [simpl; tauto|reflexivity].
Qed.

Lemma empty_post_binds (now : Datetime.datetime) (req : request) :
  Sqlite.bind_all (insert_params (App.post_entry now req (JObj [])))
  = Ok [ Sqlite.TEXT (Datetime.isoformat now ++ "Z"); Sqlite.TEXT "POST";
         Sqlite.TEXT (App.client_host req); Sqlite.TEXT (url_path req);
         Sqlite.TEXT ""; Sqlite.TEXT ""; Sqlite.TEXT ""; Sqlite.TEXT "";
         Sqlite.TEXT ""; Sqlite.INTEGER 0; Sqlite.TEXT "" ].
Proof. reflexivity. Qed.

(** C6, amended.  [path], [referrer] and [userAgent] are always set in the
    Event of a POST -- to the caller's value, or to [""] -- and a GET sets
    these three and [event], [sessionId], [utm] to strings.  The other
    optional fields are not normalized in the Event: on a POST [event],
    [sessionId], [utm] and [sessionStarted] are present only if the caller
    supplied them, and a GET never has [sessionStarted].  [app.py] hands
    the same Event to all three sinks.  The defaults for fields that are
    still missing are applied to the stored row alone: for a POST with body
    [{}] the Event has [path], [referrer], [userAgent] equal to [""] and no
    [sessionStarted], and the row has [""] in the six text columns and 0 in
    [sessionStarted]. *)
Theorem optional_fields_normalization :
  forall (now : Datetime.datetime) (req : request),
    (forall payload k,
       In k ["path"; "referrer"; "userAgent"] ->
       let expected :=
         match supplied payload k with Some v => v | None => JStr "" end in
       dict_lookup k (App.post_entry now req payload) = Some expected
       /\ dict_lookup k (Server.post_entry now req payload) = Some expected)
    /\ (forall payload k,
          In k ["event"; "sessionId"; "utm"; "sessionStarted"] ->
          dict_lookup k (App.post_entry now req payload) = supplied payload k
          /\ dict_lookup k (Server.post_entry now req payload)
             = supplied payload k)
    /\ (forall k,
          In k ["path"; "referrer"; "userAgent"; "event"; "sessionId"; "utm"] ->
          exists s,
            dict_lookup k (App.get_entry now req) = Some (JStr s)
            /\ dict_lookup k (Server.get_entry now req) = Some (JStr s))
    /\ dict_lookup "sessionStarted" (App.get_entry now req) = None
    /\ dict_lookup "sessionStarted" (Server.get_entry now req) = None
    /\ (forall ev w,
          exists w',
            App.visit_post req ev w = (w', Ok (Response 204))
            /\ calls w'
               = (calls w
                  ++ fan_out (App.post_entry (utcnow ev) req
                                (usable (body req))))%list)
    /\ (forall ev w t,
          PG_CONN w = None -> SQLITE_CONN w = Some t ->
          sqlite_insert_error ev = None ->
          exists r,
            SQLITE_CONN (fst (write_db (App.post_entry now req (JObj [])) ev w))
            = Some (t ++ [r])%list
            /\ map (fun c => Sqlite.cell c r)
                   ["path"; "referrer"; "userAgent"; "event"; "sessionId"; "utm"]
               = repeat (Sqlite.TEXT "") 6
            /\ Sqlite.cell "sessionStarted" r = Sqlite.INTEGER 0).
Proof.
  intros now req.
  split.
  { intros payload k Hk. cbv zeta.
    rewrite app_post_lookup, server_post_lookup.
    destruct (supplied payload k); [split; reflexivity|].
    simpl in Hk. destruct Hk as [<-|[<-|[<-|[]]]]; split; reflexivity. }
  split.
  { intros payload k Hk.
    rewrite app_post_lookup, server_post_lookup.
    destruct (supplied payload k); [split; reflexivity|].
    simpl in Hk. destruct Hk as [<-|[<-|[<-|[<-|[]]]]]; split; reflexivity. }
  split.
  { intros k Hk. simpl in Hk.
    destruct Hk as [<-|[<-|[<-|[<-|[<-|[<-|[]]]]]]];
      eexists; split; reflexivity. }
  split; [reflexivity|]. split; [reflexivity|].
  split.
  { intros ev w. rewrite <- app_post_entry_usable.
    apply app_visit_post_accepted. }
  intros ev w t Hpg Hsq Herr.
  eexists.
  rewrite (write_db_embedded _ ev w t _ Hpg Hsq Herr
             (empty_post_binds now req)).
  split; [reflexivity|]. split; reflexivity.
Qed.

Lemma optional_fields_normalization_witness :
  dict_lookup "referrer"
    (App.post_entry now0 (post_request (RawJson (JObj []))) (JObj []))
  = Some (JStr "")
  /\ exists r,
       SQLITE_CONN
         (fst (write_db
                 (App.post_entry now0 (post_request (RawJson (JObj [])))
                    (JObj []))
                 calm embedded_world))
       = Some [r]
       /\ Sqlite.cell "sessionStarted" r = Sqlite.INTEGER 0.
Proof.
  pose proof (optional_fields_normalization now0
                (post_request (RawJson (JObj [])))) as H.
  split.
  - apply (proj1 H (JObj []) "referrer"). simpl. tauto.
  - destruct H as (_ & _ & _ & _ & _ & _ & Hrow).
    destruct (Hrow calm embedded_world [] eq_refl eq_refl eq_refl)
      as (r & Hr & _ & Hs).
    exists r. split; [exact Hr|exact Hs].
Defined.

(** ** Dates as text *)

Lemma length_append (a b : string) :
  String.length (a ++ b) = String.length a + String.length b.
Proof. induction a as [|c a IH]; simpl; [reflexivity|rewrite IH; reflexivity]. Qed.

Lemma append_assoc (a b c : string) : (a ++ b) ++ c = a ++ (b ++ c).
Proof. induction a as [|x a IH]; simpl; [reflexivity|rewrite IH; reflexivity]. Qed.

Lemma append_inj (a a' b b' : string) :
  String.length a = String.length a' ->
  a ++ b = a' ++ b' -> a = a' /\ b = b'.
Proof.
  revert a'. induction a as [|c a IH]; intros [|c' a'] Hlen H;
    simpl in *; try discriminate Hlen.
  - split; [reflexivity|exact H].
  - injection H as -> H. injection Hlen as Hlen.
    destruct (IH a' Hlen H) as [-> ->]. split; reflexivity.
Qed.

Lemma length_zfill (w : nat) (n : Z) : String.length (Datetime.zfill w n) = w.
Proof.
  revert n. induction w as [|w IH]; intros n; simpl; [reflexivity|].
  rewrite length_append, IH. simpl. lia.
Qed.

Lemma digit_inj (n m : Z) :
  Datetime.digit n = Datetime.digit m -> (n mod 10 = m mod 10)%Z.
Proof.
  unfold Datetime.digit. intros H.
  apply (f_equal nat_of_ascii) in H.
  pose proof (Z.mod_pos_bound n 10 ltac:(lia)).
  pose proof (Z.mod_pos_bound m 10 ltac:(lia)).
  rewrite !nat_ascii_embedding in H by lia. lia.
Qed.

Lemma zfill_inj (w : nat) :
  forall n m : Z,
    (0 <= n < 10 ^ Z.of_nat w)%Z -> (0 <= m < 10 ^ Z.of_nat w)%Z ->
    Datetime.zfill w n = Datetime.zfill w m -> n = m.
Proof.
  induction w as [|w IH]; intros n m Hn Hm H.
  - simpl in Hn, Hm. lia.
  - simpl in H.
    apply append_inj in H; [|rewrite !length_zfill; reflexivity].
    destruct H as [Hq Hd]. injection Hd as Hd. apply digit_inj in Hd.
    rewrite Nat2Z.inj_succ, Z.pow_succ_r in Hn, Hm by lia.
    assert (Hq' : (n / 10 = m / 10)%Z).
    { apply IH; [| |exact Hq].
      - split; [apply Z.div_pos; lia|apply Z.div_lt_upper_bound; lia].
      - split; [apply Z.div_pos; lia|apply Z.div_lt_upper_bound; lia]. }
    rewrite (Z.div_mod n 10), (Z.div_mod m 10) by lia. lia.
Qed.

Lemma length_date_isoformat (d : Datetime.date) :
  String.length (Datetime.date_isoformat d) = 10.
Proof.
  unfold Datetime.date_isoformat.
  rewrite !length_append, !length_zfill. reflexivity.
Qed.

Lemma date_isoformat_inj (d d' : Datetime.date) :
  Datetime.valid_date d -> Datetime.valid_date d' ->
  Datetime.date_isoformat d = Datetime.date_isoformat d' -> d = d'.
Proof.
  destruct d as [y m a], d' as [y' m' a'].
  unfold Datetime.valid_date, Datetime.date_isoformat.
  cbn [Datetime.d_year Datetime.d_month Datetime.d_day].
  intros (Hy & Hm & Ha) (Hy' & Hm' & Ha') H.
  apply append_inj in H; [|rewrite !length_zfill; reflexivity].
  destruct H as [Ey H]. apply (append_inj "-" "-") in H; [|reflexivity].
  destruct H as [_ H].
  apply append_inj in H; [|rewrite !length_zfill; reflexivity].
  destruct H as [Em H]. apply (append_inj "-" "-") in H; [|reflexivity].
  destruct H as [_ Ea].
  apply (zfill_inj 4) in Ey; [|simpl; lia|simpl; lia].
  apply (zfill_inj 2) in Em; [|simpl; lia|simpl; lia].
  apply (zfill_inj 2) in Ea; [|simpl; lia|simpl; lia].
  subst. reflexivity.
Qed.

Lemma startswith_append (p rest : string) :
  Text.startswith (p ++ rest) p = true.
Proof.
  induction p as [|c p IH]; simpl; [reflexivity|].
  rewrite Ascii.eqb_refl. exact IH.
Qed.

Lemma startswith_same_length (a b rest : string) :
  String.length a = String.length b ->
  Text.startswith (a ++ rest) b = true -> a = b.
Proof.
  revert b. induction a as [|c a IH]; intros [|c' b] Hlen H;
    simpl in *; try discriminate Hlen; [reflexivity|].
  apply andb_true_iff in H. destruct H as [Hc H].
  apply Ascii.eqb_eq in Hc. subst c'. injection Hlen as Hlen.
  rewrite (IH b Hlen H). reflexivity.
Qed.

(** A timestamp written by the server starts with the ISO date of a day
    exactly when it was taken on that day. *)
Lemma timestamp_startswith_date (dt : Datetime.datetime) (d : Datetime.date) :
  Datetime.valid_datetime dt -> Datetime.valid_date d ->
  Text.startswith (Datetime.isoformat dt ++ "Z") (Datetime.date_isoformat d)
  = true
  <-> Datetime.date_of dt = d.
Proof.
  intros [Hdt _] Hd. unfold Datetime.isoformat.
  rewrite append_assoc. split.
  - intros H. apply startswith_same_length in H.
    + apply date_isoformat_inj; assumption.
    + rewrite !length_date_isoformat. reflexivity.
  - intros <-. apply startswith_append.
Qed.

(** ** LIKE with a literal prefix *)

Lemma like_percent (s : string) : Sqlite.like "%" s = true.
Proof.
  induction s as [|c s IH]; [reflexivity|].
  simpl in *. exact IH.
Qed.

Lemma lower_literal (p c : ascii) :
  literal_char p = true ->
  Ascii.eqb (Sqlite.lower p) (Sqlite.lower c) = Ascii.eqb p c.
Proof.
  unfold literal_char, Sqlite.lower. intros H.
  apply andb_true_iff in H. destruct H as [H Hlow].
  apply andb_true_iff in H. destruct H as [_ Hup].
  apply negb_true_iff in Hup, Hlow. rewrite Hup.
  destruct ((65 <=? nat_of_ascii c) && (nat_of_ascii c <=? 90))%nat eqn:Ec;
    [|reflexivity].
  apply andb_true_iff in Ec. destruct Ec as [Ec1 Ec2].
  apply Nat.leb_le in Ec1, Ec2.
  destruct (Ascii.eqb p c) eqn:Epc.
  - apply Ascii.eqb_eq in Epc. subst c.
    apply andb_false_iff in Hup.
    destruct Hup as [Hup|Hup]; apply Nat.leb_gt in Hup; lia.
  - apply Ascii.eqb_neq. intros Heq.
    apply (f_equal nat_of_ascii) in Heq.
    rewrite nat_ascii_embedding in Heq by lia.
    apply andb_false_iff in Hlow.
    destruct Hlow as [Hlow|Hlow]; apply Nat.leb_gt in Hlow; lia.
Qed.

Lemma like_prefix (p s : string) :
  literal p = true -> Sqlite.like (p ++ "%") s = Text.startswith s p.
Proof.
  revert s. induction p as [|a p IH]; intros s Hp.
  - simpl append. rewrite like_percent. destruct s; reflexivity.
  - simpl in Hp. apply andb_true_iff in Hp. destruct Hp as [Ha Hp].
    assert (Hw : Ascii.eqb a "%" = false /\ Ascii.eqb a "_" = false).
    { unfold literal_char in Ha.
      repeat (apply andb_true_iff in Ha; destruct Ha as [Ha ?]).
      split; apply negb_true_iff; assumption. }
    destruct Hw as [Hw1 Hw2].
    simpl. rewrite Hw1, Hw2.
    destruct s as [|c s]; [reflexivity|].
    rewrite (lower_literal a c Ha), (IH s Hp). reflexivity.
Qed.

Lemma literal_append (a b : string) :
  literal a = true -> literal b = true -> literal (a ++ b) = true.
Proof.
  induction a as [|c a IH]; simpl; intros Ha Hb; [exact Hb|].
  apply andb_true_iff in Ha. destruct Ha as [Hc Ha].
  rewrite Hc, (IH Ha Hb). reflexivity.
Qed.

Lemma literal_digit (n : Z) : literal_char (Datetime.digit n) = true.
Proof.
  unfold Datetime.digit.
  pose proof (Z.mod_pos_bound n 10 ltac:(lia)) as H.
  assert (Hc : exists k, (k < 10)%nat /\ Z.to_nat (n mod 10) = k)
    by (exists (Z.to_nat (n mod 10)); split; [lia|reflexivity]).
  destruct Hc as (k & Hk & ->).
  do 10 (destruct k as [|k]; [reflexivity|]). lia.
Qed.

Lemma literal_zfill (w : nat) (n : Z) : literal (Datetime.zfill w n) = true.
Proof.
  revert n. induction w as [|w IH]; intros n; simpl; [reflexivity|].
  apply literal_append; [apply IH|].
  cbn [literal]. rewrite literal_digit. reflexivity.
Qed.

Lemma literal_date_isoformat (d : Datetime.date) :
  literal (Datetime.date_isoformat d) = true.
Proof.
  unfold Datetime.date_isoformat.
  apply literal_append; [apply literal_zfill|].
  apply (literal_append "-"); [reflexivity|].
  apply literal_append; [apply literal_zfill|].
  apply (literal_append "-"); [reflexivity|].
  apply literal_zfill.
Qed.

(** ** C8: the statistics of six stored events *)

Lemma insert_all_rows (es : list dict) (ev : env) :
  forall (w : world) (t : Sqlite.table),
    PG_CONN w = None -> SQLITE_CONN w = Some t ->
    sqlite_insert_error ev = None ->
    (forall e, In e es -> insertable e) ->
    PG_CONN (insert_all es ev w) = None
    /\ SQLITE_CONN (insert_all es ev w) = Some (t ++ map stored_row es)%list.
Proof.
  induction es as [|e es IH]; intros w t Hpg Hsq Herr Hins; simpl.
  - rewrite app_nil_r. split; assumption.
  - destruct (Hins e (or_introl eq_refl)) as [xs Hxs].
    rewrite (write_db_embedded e ev w t xs Hpg Hsq Herr Hxs).
    destruct (IH (fst (set_SQLITE_CONN (Some (t ++ [row_of e xs])%list)
                         (add_call (call_write_db e) w), Ok tt))
                 (t ++ [row_of e xs])%list) as [H1 H2];
      try reflexivity; try assumption.
    + intros e' He'. apply Hins. right. exact He'.
    + split; [exact H1|]. rewrite H2, <- app_assoc.
      unfold stored_row at 2. rewrite Hxs. reflexivity.
Qed.

(** [get_stats] on the embedded backend when the engine answers. *)
Lemma get_stats_embedded (ev : env) (w : world) (t : Sqlite.table) :
  PG_CONN w = None -> SQLITE_CONN w = Some t ->
  (forall q, sqlite_select_error ev q = None) ->
  let today := Datetime.date_isoformat (Datetime.date_of (utcnow ev)) in
  let kind k := fun r => Sqlite.text_eq (Sqlite.cell "event" r) k in
  let kind_today k :=
    fun r => Sqlite.text_eq (Sqlite.cell "event" r) k
             && Sqlite.text_like (Sqlite.cell "ts" r) (today ++ "%") in
  get_stats ev w
  = (w, Ok [ ("totalEvents", Sqlite.count_where (fun _ => true) t);
             ("visits", Sqlite.count_where (kind "visit") t);
             ("clicks", Sqlite.count_where (kind "click") t);
             ("exits", Sqlite.count_where (kind "exit") t);
             ("uniqueSessions", Sqlite.count_distinct "sessionId" t);
             ("visitsToday", Sqlite.count_where (kind_today "visit") t);
             ("clicksToday", Sqlite.count_where (kind_today "click") t) ]).
Proof.
  intros Hpg Hsq Herr. cbv zeta. unfold get_stats.
  cbv beta iota zeta delta [bind ask read ret].
  rewrite Hpg. unfold sqlite_statements, assign_counts, sqlite_fetch.
  repeat (rewrite ?Hsq, ?Herr; cbv beta iota delta [sqlite_select]).
  reflexivity.
Qed.

(** A string under a text column is stored as it is. *)
Lemma stored_cell_text (e : dict) (c s : string) (dflt : value) :
  Sqlite.column_affinity c = Sqlite.TEXT_AFFINITY ->
  insertable e -> In (c, dflt) column_defaults ->
  dict_lookup c e = Some (JStr s) ->
  Sqlite.cell c (stored_row e) = Sqlite.TEXT s.
Proof.
  intros Ha [xs Hxs] Hin Hl. unfold stored_row. rewrite Hxs.
  destruct (row_cells e xs c dflt Hxs Hin) as (x & Hx & Hcell).
  unfold dict_get in Hx. rewrite Hl in Hx. injection Hx as <-.
  rewrite Hcell, Ha. reflexivity.
Qed.

Lemma stored_event (e : dict) (k k' : string) :
  insertable e -> kind_is e k ->
  Sqlite.text_eq (Sqlite.cell "event" (stored_row e)) k' = String.eqb k k'.
Proof.
  intros Hi Hk.
  rewrite (stored_cell_text e "event" k (JStr "") eq_refl Hi); [reflexivity| |exact Hk].
  simpl. tauto.
Qed.

Lemma stored_session (e : dict) (s : string) :
  insertable e -> session_is e s ->
  Sqlite.column_text (Sqlite.cell "sessionId" (stored_row e)) = Some s.
Proof.
  intros Hi Hs.
  rewrite (stored_cell_text e "sessionId" s (JStr "") eq_refl Hi); [reflexivity| |exact Hs].
  simpl. tauto.
Qed.

(** The embedded variant's "today" test agrees with the day of the
    server timestamp. *)
Lemma stored_today (e : dict) (d today : Datetime.date) :
  insertable e -> dated e d -> Datetime.valid_date today ->
  Sqlite.text_like (Sqlite.cell "ts" (stored_row e))
                   (Datetime.date_isoformat today ++ "%") = true
  <-> d = today.
Proof.
  intros Hi (dt & Hv & Hd & Hts) Ht.
  rewrite (stored_cell_text e "ts" (Datetime.isoformat dt ++ "Z") (JStr "") eq_refl Hi);
    [|simpl; tauto|exact Hts].
  unfold Sqlite.text_like, Sqlite.column_text.
  rewrite like_prefix by apply literal_date_isoformat.
  rewrite timestamp_startswith_date by assumption.
  rewrite Hd. reflexivity.
Qed.

Lemma stored_not_today (e : dict) (today : Datetime.date) :
  insertable e -> dated_otherwise e today -> Datetime.valid_date today ->
  Sqlite.text_like (Sqlite.cell "ts" (stored_row e))
                   (Datetime.date_isoformat today ++ "%") = false.
Proof.
  intros Hi (d & Hne & Hd) Ht.
  apply not_true_is_false. intros H.
  apply (stored_today e d today Hi Hd Ht) in H. contradiction.
Qed.

Lemma count_where_perm (p : Sqlite.row -> bool) (l l' : Sqlite.table) :
  Permutation l l' -> Sqlite.count_where p l = Sqlite.count_where p l'.
Proof.
  intros H. unfold Sqlite.count_where. f_equal.
  induction H as [|x l l' _ IH|x y l|l l' l'' _ IH1 _ IH2]; simpl.
  - reflexivity.
  - destruct (p x); simpl; rewrite IH; reflexivity.
  - destruct (p x), (p y); reflexivity.
  - rewrite IH1. exact IH2.
Qed.

Lemma distinct_two (l : list string) (s1 s2 : string) :
  s1 <> s2 ->
  (forall x, In x l -> x = s1 \/ x = s2) -> In s1 l -> In s2 l ->
  List.length (nodup string_dec l) = 2.
Proof.
  intros Hne Hall H1 H2.
  assert (Hp : Permutation (nodup string_dec l) [s1; s2]).
  { apply NoDup_Permutation.
    - apply NoDup_nodup.
    - constructor; [simpl; intuition congruence|].
      constructor; [simpl; tauto|constructor].
    - intros x. rewrite nodup_In. simpl. split.
      + intros Hx. destruct (Hall x Hx) as [->| ->]; auto.
      + intros [<-|[<-|[]]]; assumption. }
  rewrite (Permutation_length Hp). reflexivity.
Qed.

Lemma stored_sessions (es : list dict) :
  (forall e, In e es -> insertable e) ->
  (forall e, In e es -> exists s, session_is e s) ->
  forall x,
    In x (Sqlite.non_null
            (map (fun r => Sqlite.column_text (Sqlite.cell "sessionId" r))
                 (map stored_row es)))
    <-> exists e, In e es /\ session_is e x.
Proof.
  induction es as [|e es IH]; intros Hi Hs x; simpl.
  - split; [tauto|intros (e & [] & _)].
  - destruct (Hs e (or_introl eq_refl)) as [s Hse].
    rewrite (stored_session e s (Hi e (or_introl eq_refl)) Hse). simpl.
    rewrite IH;
      [| intros e' He'; apply Hi; right; exact He'
       | intros e' He'; apply Hs; right; exact He'].
    split.
    + intros [<-|(e' & He' & Hx)].
      * exists e. split; [left; reflexivity|exact Hse].
      * exists e'. split; [right; exact He'|exact Hx].
    + intros (e' & [<-|He'] & Hx).
      * left. unfold session_is in *. congruence.
      * right. exists e'. split; assumption.
Qed.

(** C8: six events are inserted, in any order, into an empty embedded
    store: three visits of which exactly one was stamped today (server UTC
    date), two clicks stamped on other days, one exit, all of them in one
    of two distinct sessions, both of which occur.  Then [get_stats]
    returns totalEvents 6, visits 3, clicks 2, exits 1, uniqueSessions 2,
    visitsToday 1, clicksToday 0. *)
Theorem stats_of_six_events :
  forall (v1 v2 v3 c1 c2 x : dict) (es : list dict) (s1 s2 : string)
         (today : Datetime.date) (ev_insert ev : env) (w0 : world),
    Permutation es [v1; v2; v3; c1; c2; x] ->
    kind_is v1 "visit" -> kind_is v2 "visit" -> kind_is v3 "visit" ->
    kind_is c1 "click" -> kind_is c2 "click" -> kind_is x "exit" ->
    dated v1 today -> dated_otherwise v2 today -> dated_otherwise v3 today ->
    dated_otherwise c1 today -> dated_otherwise c2 today ->
    s1 <> s2 ->
    (forall e, In e es -> session_is e s1 \/ session_is e s2) ->
    (exists e, In e es /\ session_is e s1) ->
    (exists e, In e es /\ session_is e s2) ->
    (forall e, In e es -> insertable e) ->
    PG_CONN w0 = None -> SQLITE_CONN w0 = Some [] ->
    sqlite_insert_error ev_insert = None ->
    (forall q, sqlite_select_error ev q = None) ->
    Datetime.valid_date today -> Datetime.date_of (utcnow ev) = today ->
    snd (get_stats ev (insert_all es ev_insert w0)) = Ok scenario_stats.
Proof.
  intros v1 v2 v3 c1 c2 x es s1 s2 today evi ev w0 Hperm
    Kv1 Kv2 Kv3 Kc1 Kc2 Kx Dv1 Dv2 Dv3 Dc1 Dc2 Hne Hsess Hs1 Hs2 Hins
    Hpg Hsq Herr Hsel Htoday Hnow.
  destruct (insert_all_rows es evi w0 [] Hpg Hsq Herr Hins) as [Hpg' Hsq'].
  simpl in Hsq'.
  rewrite (get_stats_embedded ev _ _ Hpg' Hsq' Hsel). cbv zeta. rewrite Hnow.
  cbn [snd]. unfold scenario_stats.
  assert (Hin : forall e, In e [v1; v2; v3; c1; c2; x] -> insertable e).
  { intros e He. apply Hins. apply (Permutation_in e (Permutation_sym Hperm) He). }
  assert (I1 := Hin v1 ltac:(simpl; tauto)).
  assert (I2 := Hin v2 ltac:(simpl; tauto)).
  assert (I3 := Hin v3 ltac:(simpl; tauto)).
  assert (I4 := Hin c1 ltac:(simpl; tauto)).
  assert (I5 := Hin c2 ltac:(simpl; tauto)).
  assert (I6 := Hin x ltac:(simpl; tauto)).
  assert (T1 : Sqlite.text_like (Sqlite.cell "ts" (stored_row v1))
                 (Datetime.date_isoformat today ++ "%") = true)
    by (apply (stored_today v1 today today I1 Dv1 Htoday); reflexivity).
  pose proof (stored_not_today v2 today I2 Dv2 Htoday) as T2.
  pose proof (stored_not_today v3 today I3 Dv3 Htoday) as T3.
  pose proof (stored_not_today c1 today I4 Dc1 Htoday) as T4.
  pose proof (stored_not_today c2 today I5 Dc2 Htoday) as T5.
  assert (Hp : Permutation (map stored_row es)
                 (map stored_row [v1; v2; v3; c1; c2; x]))
    by (apply Permutation_map; exact Hperm).
  rewrite !(count_where_perm _ _ _ Hp).
  assert (Hd : Sqlite.count_distinct "sessionId" (map stored_row es) = 2%Z).
  { unfold Sqlite.count_distinct.
    rewrite (distinct_two _ s1 s2 Hne); [reflexivity| | |].
    - intros y Hy. apply stored_sessions in Hy; [| exact Hins |].
      + destruct Hy as (e & He & Hy).
        destruct (Hsess e He) as [H|H]; unfold session_is in *;
          [left|right]; congruence.
      + intros e He. destruct (Hsess e He); [exists s1|exists s2]; assumption.
    - apply stored_sessions; [exact Hins| |exact Hs1].
      intros e He. destruct (Hsess e He); [exists s1|exists s2]; assumption.
    - apply stored_sessions; [exact Hins| |exact Hs2].
      intros e He. destruct (Hsess e He); [exists s1|exists s2]; assumption. }
  rewrite Hd.
  unfold Sqlite.count_where. cbn [map filter].
  rewrite !(stored_event v1 "visit" _ I1 Kv1), !(stored_event v2 "visit" _ I2 Kv2),
    !(stored_event v3 "visit" _ I3 Kv3), !(stored_event c1 "click" _ I4 Kc1),
    !(stored_event c2 "click" _ I5 Kc2), !(stored_event x "exit" _ I6 Kx).
  rewrite T1, T2, T3, T4, T5.
  reflexivity.
Qed.

Lemma sample_dated (dt : Datetime.datetime) (kind sid : string) :
  Datetime.valid_datetime dt ->
  dated (sample_event dt kind sid) (Datetime.date_of dt).
Proof. intros Hv. exists dt. repeat split; apply Hv. Qed.

Lemma now0_valid : Datetime.valid_datetime now0.
Proof. unfold Datetime.valid_datetime, Datetime.valid_date. simpl. lia. Defined.

Lemma yesterday0_valid : Datetime.valid_datetime yesterday0.
Proof. unfold Datetime.valid_datetime, Datetime.valid_date. simpl. lia. Defined.

Lemma stats_of_six_events_witness :
  snd (get_stats calm
         (insert_all [visit_old_a; visit_today; click_old_a; exit_today;
                      visit_old_b; click_old_b]
            calm embedded_world))
  = Ok scenario_stats.
Proof.
  assert (Hold : forall kind sid,
             dated_otherwise (sample_event yesterday0 kind sid) today0).
  { intros kind sid. exists (Datetime.date_of yesterday0).
    split; [discriminate|].
    exists yesterday0. split; [exact yesterday0_valid|]. split; reflexivity. }
  apply (stats_of_six_events visit_today visit_old_a visit_old_b click_old_a
           click_old_b exit_today _ "s-1" "s-2" today0 calm calm embedded_world);
    try reflexivity; try apply Hold.
  - apply perm_trans with
      [visit_today; visit_old_a; click_old_a; exit_today; visit_old_b; click_old_b];
      [apply perm_swap|].
    do 2 apply perm_skip.
    apply perm_trans with
      [click_old_a; visit_old_b; exit_today; click_old_b];
      [apply perm_skip; apply perm_swap|].
    apply perm_trans with
      [visit_old_b; click_old_a; exit_today; click_old_b];
      [apply perm_swap|].
    do 2 apply perm_skip. apply perm_swap.
  - exists now0. split; [exact now0_valid|]. split; reflexivity.
  - discriminate.
  - intros e He. simpl in He.
    destruct He as [<-|[<-|[<-|[<-|[<-|[<-|[]]]]]]];
      (left; reflexivity) || (right; reflexivity).
  - exists visit_today. split; [simpl; tauto|reflexivity].
  - exists exit_today. split; [simpl; tauto|reflexivity].
  - intros e He. simpl in He.
    destruct He as [<-|[<-|[<-|[<-|[<-|[<-|[]]]]]]]; eexists; reflexivity.
  - unfold Datetime.valid_date. simpl. lia.
Defined.

(** * Further properties of the two servers *)

(** ** The destinations only grow, by at most one record per request *)

Lemma appended_refl {A : Type} (n : nat) (l : list A) : appended n l l.
Proof. exists []. rewrite app_nil_r. split; [reflexivity|simpl; lia]. Qed.

Lemma appended_trans {A : Type} (n m : nat) (l1 l2 l3 : list A) :
  appended n l1 l2 -> appended m l2 l3 -> appended (n + m) l1 l3.
Proof.
  intros (a & -> & Ha) (b & -> & Hb). exists (a ++ b)%list.
  rewrite app_assoc, length_app. split; [reflexivity|lia].
Qed.

Lemma appended_weaken {A : Type} (n m : nat) (l l' : list A) :
  n <= m -> appended n l l' -> appended m l l'.
Proof. intros Hle (a & -> & Ha). exists a. split; [reflexivity|lia]. Qed.

Lemma appended_zero {A : Type} (l l' : list A) : appended 0 l l' -> l' = l.
Proof.
  intros (a & -> & Ha). destruct a; [apply app_nil_r|simpl in Ha; lia].
Qed.

Lemma appended_one {A : Type} (l : list A) (x : A) : appended 1 l (l ++ [x]).
Proof. exists [x]. split; [reflexivity|simpl; lia]. Qed.

Lemma appended_opt_refl {A : Type} (n : nat) (o : option (list A)) :
  appended_opt n o o.
Proof. destruct o; simpl; [apply appended_refl|exact I]. Qed.

Lemma appended_opt_trans {A : Type} (n m : nat) (o1 o2 o3 : option (list A)) :
  appended_opt n o1 o2 -> appended_opt m o2 o3 -> appended_opt (n + m) o1 o3.
Proof.
  destruct o1, o2, o3; simpl; try tauto. apply appended_trans.
Qed.

Lemma appended_opt_weaken {A : Type} (n m : nat) (o o' : option (list A)) :
  n <= m -> appended_opt n o o' -> appended_opt m o o'.
Proof. destruct o, o'; simpl; try tauto. apply appended_weaken. Qed.

Lemma appended_opt_zero {A : Type} (o o' : option (list A)) :
  appended_opt 0 o o' -> o' = o.
Proof.
  destruct o, o'; simpl; try tauto.
  intros H. rewrite (appended_zero _ _ H). reflexivity.
Qed.

Lemma sinks_appended_refl (w : world) : sinks_appended 0 0 0 w w.
Proof.
  repeat split; try apply appended_refl; apply appended_opt_refl.
Qed.

Lemma sinks_appended_trans (c f d c' f' d' : nat) (w1 w2 w3 : world) :
  sinks_appended c f d w1 w2 -> sinks_appended c' f' d' w2 w3 ->
  sinks_appended (c + c') (f + f') (d + d') w1 w3.
Proof.
  intros (H1 & H2 & H3 & H4 & H5) (K1 & K2 & K3 & K4 & K5).
  repeat split.
  - eapply appended_trans; eassumption.
  - eapply appended_trans; eassumption.
  - eapply appended_opt_trans; eassumption.
  - eapply appended_opt_trans; eassumption.
  - congruence.
Qed.

Lemma sinks_appended_weaken (c f d c' f' d' : nat) (w w' : world) :
  c <= c' -> f <= f' -> d <= d' ->
  sinks_appended c f d w w' -> sinks_appended c' f' d' w w'.
Proof.
  intros Hc Hf Hd (H1 & H2 & H3 & H4 & H5). repeat split.
  - eapply appended_weaken; eassumption.
  - eapply appended_weaken; eassumption.
  - eapply appended_opt_weaken; eassumption.
  - eapply appended_opt_weaken; eassumption.
  - exact H5.
Qed.

Lemma adds_weaken {A : Type} (c f d c' f' d' : nat) (m : M A) :
  c <= c' -> f <= f' -> d <= d' -> adds c f d m -> adds c' f' d' m.
Proof.
  intros Hc Hf Hd H ev w. eapply sinks_appended_weaken; eauto.
Qed.

Lemma adds_ret {A : Type} (a : A) : adds 0 0 0 (ret a).
Proof. intros ev w. apply sinks_appended_refl. Qed.

Lemma adds_raise {A : Type} (e : exn) : adds 0 0 0 (@raise A e).
Proof. intros ev w. apply sinks_appended_refl. Qed.

Lemma adds_ask {A : Type} (g : env -> A) : adds 0 0 0 (ask g).
Proof. intros ev w. apply sinks_appended_refl. Qed.

Lemma adds_read {A : Type} (g : world -> A) : adds 0 0 0 (read g).
Proof. intros ev w. apply sinks_appended_refl. Qed.

Lemma adds_attempt (err : env -> option exn) : adds 0 0 0 (attempt err).
Proof.
  intros ev w. unfold attempt. destruct (err ev); apply sinks_appended_refl.
Qed.

Lemma adds_print_stderr (msg : string) : adds 0 0 0 (print_stderr msg).
Proof. intros ev w. apply (sinks_appended_refl w). Qed.

Lemma adds_called (c : call) : adds 0 0 0 (called c).
Proof. intros ev w. apply (sinks_appended_refl w). Qed.

Lemma adds_bind {A B : Type} (c f d c' f' d' : nat) (m : M A) (k : A -> M B) :
  adds c f d m -> (forall a, adds c' f' d' (k a)) ->
  adds (c + c') (f + f') (d + d') (bind m k).
Proof.
  intros Hm Hk ev w. unfold bind.
  specialize (Hm ev w). destruct (m ev w) as [w1 [a|e]]; simpl in *.
  - eapply sinks_appended_trans; [exact Hm|apply Hk].
  - eapply sinks_appended_weaken; [| | |exact Hm]; lia.
Qed.

Lemma adds_try_except_on {A : Type} (c f d : nat) (catches : exn -> bool)
  (m : M A) (h : exn -> M A) :
  adds c f d m -> (forall e, adds 0 0 0 (h e)) ->
  adds c f d (try_except_on catches m h).
Proof.
  intros Hm Hh ev w. unfold try_except_on.
  specialize (Hm ev w). destruct (m ev w) as [w1 [a|e]]; simpl in *.
  - exact Hm.
  - destruct (catches e); [|exact Hm].
    replace c with (c + 0) by lia. replace f with (f + 0) by lia.
    replace d with (d + 0) by lia.
    eapply sinks_appended_trans; [exact Hm|apply Hh].
Qed.

Lemma adds_urlopen (data : document) : adds 1 0 0 (urlopen data).
Proof.
  intros ev w. unfold urlopen, bind, attempt, modify.
  destruct (urlopen_error ev); simpl.
  - eapply sinks_appended_weaken; [| | |apply sinks_appended_refl]; lia.
  - repeat split; try apply appended_refl; try apply appended_opt_refl.
    apply appended_one.
Qed.

Lemma adds_log_append (line : document) : adds 0 1 0 (log_append line).
Proof.
  intros ev w. unfold log_append, bind, attempt, modify.
  destruct (log_write_error ev); simpl.
  - eapply sinks_appended_weaken; [| | |apply sinks_appended_refl]; lia.
  - repeat split; try apply appended_refl; try apply appended_opt_refl.
    apply appended_one.
Qed.

Lemma adds_app_send_to_logtail (entry : dict) :
  adds 1 0 0 (App.send_to_logtail entry).
Proof.
  unfold App.send_to_logtail.
  apply (adds_bind 0 0 0 1 0 0); [apply adds_called|]. intros _.
  apply (adds_bind 0 0 0 1 0 0); [apply adds_read|]. intros token.
  destruct (token_missing token).
  - eapply adds_weaken; [| | |apply adds_ret]; lia.
  - apply adds_try_except_on; [apply adds_urlopen|].
    intros e. apply adds_print_stderr.
Qed.

Lemma adds_server_send_to_logtail (entry : dict) :
  adds 1 0 0 (Server.send_to_logtail entry).
Proof.
  unfold Server.send_to_logtail.
  apply (adds_bind 0 0 0 1 0 0); [apply adds_called|]. intros _.
  apply (adds_bind 0 0 0 1 0 0); [apply adds_read|]. intros token.
  destruct (token_missing token).
  - eapply adds_weaken; [| | |apply adds_ret]; lia.
  - apply adds_try_except_on; [apply adds_urlopen|].
    intros e. apply adds_print_stderr.
Qed.

Lemma adds_app_append_file (entry : dict) : adds 0 1 0 (App.append_file entry).
Proof.
  unfold App.append_file.
  apply (adds_bind 0 0 0 0 1 0); [apply adds_called|]. intros _.
  apply adds_try_except_on; [apply adds_log_append|].
  intros e. apply adds_print_stderr.
Qed.

Lemma adds_server_append_file (entry : dict) :
  adds 0 1 0 (Server.append_file entry).
Proof.
  unfold Server.append_file.
  apply (adds_bind 0 0 0 0 1 0); [apply adds_called|]. intros _.
  apply (adds_bind 0 0 0 0 1 0); [apply adds_attempt|]. intros _.
  apply adds_log_append.
Qed.

Lemma adds_write_db (entry : dict) : adds 0 0 1 (write_db entry).
Proof.
  intros ev w. run_m. simpl.
  destruct (PG_CONN w) as [acc|] eqn:Epg; simpl.
  - destruct (pg_insert_error ev); simpl;
      repeat split; simpl; rewrite ?Epg; simpl;
        try apply appended_refl; try apply appended_opt_refl;
        try apply appended_one.
  - destruct (SQLITE_CONN w) as [t|] eqn:Esq; simpl.
    + unfold sqlite_insert. cbn [keyed payload_json].
      destruct (Sqlite.bind_all (insert_params entry)) as [xs|e]; simpl.
      * destruct (sqlite_insert_error ev); simpl;
          [destruct (sqlite_row_pending ev); simpl|];
          repeat split; simpl; rewrite ?Epg, ?Esq; simpl;
            try apply appended_refl; try apply appended_opt_refl;
            try apply appended_one; exact I.
      * repeat split; simpl; rewrite ?Epg, ?Esq; simpl;
          try apply appended_refl; exact I.
    + repeat split; simpl; rewrite ?Epg, ?Esq; simpl;
        try apply appended_refl; exact I.
Qed.

Lemma adds_assign_counts (fetch : select -> M Z)
  (stmts : list (string * select)) (stats : list (string * Z)) :
  (forall q, adds 0 0 0 (fetch q)) ->
  adds 0 0 0 (assign_counts fetch stmts stats).
Proof.
  intros Hf. revert stats.
  induction stmts as [|[k q] rest IH]; intros stats ev w; simpl.
  - apply sinks_appended_refl.
  - specialize (Hf q ev w). destruct (fetch q ev w) as [w1 [n|e]]; simpl in *.
    + apply (sinks_appended_trans 0 0 0 0 0 0 w w1); [exact Hf|apply IH].
    + exact Hf.
Qed.

Lemma adds_pg_fetch (q : select) : adds 0 0 0 (pg_fetch q).
Proof. intros ev w. apply sinks_appended_refl. Qed.

Lemma adds_sqlite_fetch (q : select) : adds 0 0 0 (sqlite_fetch q).
Proof.
  intros ev w. unfold sqlite_fetch.
  destruct (SQLITE_CONN w); [destruct (sqlite_select_error ev q)|];
    apply sinks_appended_refl.
Qed.

Lemma adds_get_stats : adds 0 0 0 get_stats.
Proof.
  unfold get_stats.
  apply (adds_bind 0 0 0 0 0 0); [apply adds_ask|]. intros now.
  apply (adds_bind 0 0 0 0 0 0); [apply adds_read|]. intros pg.
  apply (adds_bind 0 0 0 0 0 0).
  - destruct pg; apply adds_assign_counts;
      [apply adds_pg_fetch|apply adds_sqlite_fetch].
  - intros [stats [err|]]; simpl.
    + apply (adds_bind 0 0 0 0 0 0); [apply adds_print_stderr|].
      intros _. apply adds_ret.
    + apply (adds_bind 0 0 0 0 0 0); [apply adds_ret|].
      intros _. apply adds_ret.
Qed.

Lemma adds_app_persist (entry : dict) : adds 1 1 1 (App.persist entry).
Proof.
  unfold App.persist.
  apply (adds_bind 1 0 0 0 1 1); [apply adds_app_send_to_logtail|]. intros _.
  apply (adds_bind 0 1 0 0 0 1); [apply adds_app_append_file|]. intros _.
  apply adds_write_db.
Qed.

Lemma adds_server_send_response (code : nat) :
  adds 0 0 0 (Server.send_response code).
Proof. apply adds_print_stderr. Qed.

Lemma adds_server_log_error (format : string) :
  adds 0 0 0 (Server.log_error format).
Proof.
  unfold Server.log_error.
  destruct (Text.contains "Broken pipe" format);
    [apply adds_ret|apply adds_print_stderr].
Qed.

Lemma adds_server_send_error (code : nat) (message : string) :
  adds 0 0 0 (Server.send_error code message).
Proof.
  unfold Server.send_error.
  apply (adds_bind 0 0 0 0 0 0); [apply adds_server_log_error|]. intros _.
  apply (adds_bind 0 0 0 0 0 0); [apply adds_server_send_response|]. intros _.
  apply adds_ret.
Qed.

Lemma adds_server_respond {A : Type} (code : nat) (a : A) :
  adds 0 0 0 (Server.send_response code ;; ret a).
Proof.
  apply (adds_bind 0 0 0 0 0 0); [apply adds_server_send_response|]. intros _.
  apply adds_ret.
Qed.

Lemma adds_server_fan_out {A : Type} (entry : dict) (a : A) :
  adds 1 1 1
    (Server.send_to_logtail entry ;; Server.append_file entry ;;
     write_db entry ;; Server.send_response 204 ;; ret a).
Proof.
  apply (adds_bind 1 0 0 0 1 1); [apply adds_server_send_to_logtail|]. intros _.
  apply (adds_bind 0 1 0 0 0 1); [apply adds_server_append_file|]. intros _.
  apply (adds_bind 0 0 1 0 0 0); [apply adds_write_db|]. intros _.
  apply (adds_bind 0 0 0 0 0 0); [apply adds_server_send_response|]. intros _.
  apply adds_ret.
Qed.

(** ** [get_stats] when statements fail part-way *)

Lemma fetch_answer (ev : env) (w : world) (q : select) :
  (match PG_CONN w with Some _ => pg_fetch | None => sqlite_fetch end) q ev w
  = (w, answer ev w q).
Proof.
  unfold answer, pg_fetch, sqlite_fetch.
  destruct (PG_CONN w); [reflexivity|].
  destruct (SQLITE_CONN w); [|reflexivity].
  destruct (sqlite_select_error ev q); reflexivity.
Qed.

Lemma nth_error_key {A B : Type} (l : list (A * B)) (i : nat) (k : A) (q : B) :
  nth_error l i = Some (k, q) -> In k (map fst l).
Proof.
  intros H. apply nth_error_In in H.
  change k with (fst (k, q)). apply in_map. exact H.
Qed.

Lemma assign_counts_lookup (fetch : select -> M Z) (ans : select -> result Z)
  (ev : env) (w : world) :
  (forall q, fetch q ev w = (w, ans q)) ->
  forall (stmts : list (string * select)) (stats : list (string * Z)),
    NoDup (map fst stmts) ->
    let ok := fun kq : string * select =>
                match ans (snd kq) with Ok _ => true | Raise _ => false end in
    exists s err,
      assign_counts fetch stmts stats ev w = (w, Ok (s, err))
      /\ (err = None <-> forallb ok stmts = true)
      /\ (forall k, ~ In k (map fst stmts) ->
                    dict_lookup k s = dict_lookup k stats)
      /\ (forall i k q,
            nth_error stmts i = Some (k, q) ->
            dict_lookup k s
            = if forallb ok (firstn (S i) stmts)
              then Some (count_or_zero (ans q))
              else dict_lookup k stats).
Proof.
  intros Hf stmts. induction stmts as [|[k0 q0] rest IH]; intros stats Hnd;
    cbv zeta.
  - exists stats, None. simpl. repeat split; auto.
    intros i k q H. destruct i; discriminate H.
  - inversion Hnd as [|? ? Hnot Hnd']; subst. simpl assign_counts.
    rewrite Hf. destruct (ans q0) as [n|e] eqn:Ea.
    + destruct (IH (dict_setitem k0 n stats) Hnd')
        as (s & err & Hrun & Herr & Hout & Hin).
      cbv zeta in Herr, Hin.
      exists s, err. split; [exact Hrun|]. split.
      { cbn [forallb snd]. rewrite Ea. exact Herr. }
      split.
      { intros k Hk. rewrite Hout.
        - rewrite lookup_setitem. destruct (String.eqb k0 k) eqn:E;
            [|reflexivity].
          apply String.eqb_eq in E. subst. exfalso. apply Hk. left. reflexivity.
        - intros H. apply Hk. right. exact H. }
      intros i k q Hnth. destruct i as [|j].
      * simpl in Hnth. injection Hnth as <- <-.
        rewrite (Hout k0 Hnot), lookup_setitem, String.eqb_refl.
        cbn [firstn forallb snd]. rewrite Ea. reflexivity.
      * simpl in Hnth. rewrite (Hin j k q Hnth).
        change (firstn (S (S j)) ((k0, q0) :: rest))
          with ((k0, q0) :: firstn (S j) rest).
        cbn [forallb snd]. rewrite Ea. cbn [andb].
        rewrite lookup_setitem.
        destruct (String.eqb k0 k) eqn:E; [|reflexivity].
        apply String.eqb_eq in E. subst k0. exfalso. apply Hnot.
        apply (nth_error_key rest j k q Hnth).
    + exists stats, (Some e). split; [reflexivity|]. split.
      { cbn [forallb snd]. rewrite Ea. split; discriminate. }
      split; [reflexivity|].
      intros i k q Hnth.
      change (firstn (S i) ((k0, q0) :: rest)) with ((k0, q0) :: firstn i rest).
      cbn [forallb snd]. rewrite Ea. reflexivity.
Qed.

Lemma statements_nodup (ev : env) (w : world) :
  NoDup (map fst (statements ev w)).
Proof.
  unfold statements.
  destruct (PG_CONN w); simpl;
    repeat (constructor; [simpl; intuition discriminate|]); constructor.
Qed.

Lemma statements_zero (ev : env) (w : world) (i : nat) (k : string)
  (q : select) :
  nth_error (statements ev w) i = Some (k, q) ->
  dict_lookup k zero_stats = Some 0%Z.
Proof.
  unfold statements. intros H.
  destruct (PG_CONN w);
    do 7 (destruct i as [|i]; [injection H as <- _; reflexivity|]);
    destruct i; discriminate H.
Qed.

(** X3: [get_stats] never touches the stores, the log or the collector, and
    fills the counters in statement order: a counter holds the backend's
    answer exactly when its statement and all earlier ones were answered;
    from the first failing statement on, the counters stay 0 and one
    ["Stats error:"] line is printed. *)
Theorem get_stats_partial :
  forall (ev : env) (w : world),
  exists stats,
    get_stats ev w
    = ((if forallb (answered ev w) (statements ev w) then w
        else add_stderr "Stats error:" w), Ok stats)
    /\ forall i k q,
         nth_error (statements ev w) i = Some (k, q) ->
         dict_lookup k stats
         = Some (if forallb (answered ev w) (firstn (S i) (statements ev w))
                 then count_or_zero (answer ev w q) else 0%Z).
Proof.
  intros ev w.
  destruct (assign_counts_lookup
              (match PG_CONN w with Some _ => pg_fetch | None => sqlite_fetch end)
              (answer ev w) ev w (fetch_answer ev w)
              (statements ev w) zero_stats (statements_nodup ev w))
    as (s & err & Hrun & Herr & _ & Hin).
  cbv zeta in Herr, Hin.
  change (fun kq : string * select =>
            match answer ev w (snd kq) with Ok _ => true | Raise _ => false end)
    with (answered ev w) in Herr, Hin.
  assert (Hget : get_stats ev w
                 = (match err with
                    | Some _ => add_stderr "Stats error:" w
                    | None => w
                    end, Ok s)).
  { unfold get_stats. cbv beta iota zeta delta [bind ask read].
    unfold statements in Hrun.
    destruct (PG_CONN w) as [acc|]; rewrite Hrun; destruct err; reflexivity. }
  exists s. split.
  - rewrite Hget. destruct (forallb (answered ev w) (statements ev w)).
    + rewrite (proj2 Herr eq_refl). reflexivity.
    + destruct err as [e|]; [reflexivity|].
      discriminate (proj1 Herr eq_refl).
  - intros i k q Hnth. rewrite (Hin i k q Hnth).
    rewrite (statements_zero ev w i k q Hnth).
    destruct (forallb (answered ev w) (firstn (S i) (statements ev w)));
      reflexivity.
Qed.

Lemma get_stats_partial_witness :
  snd (get_stats drops_after_two networked_world)
  = Ok [ ("totalEvents", 6%Z); ("visits", 3%Z); ("clicks", 0%Z);
         ("exits", 0%Z); ("uniqueSessions", 0%Z); ("visitsToday", 0%Z);
         ("clicksToday", 0%Z) ]
  /\ exists stats,
       snd (get_stats drops_after_two networked_world) = Ok stats
       /\ dict_lookup "visits" stats = Some 3%Z
       /\ dict_lookup "exits" stats = Some 0%Z.
Proof.
  split; [reflexivity|].
  destruct (get_stats_partial drops_after_two networked_world)
    as (stats & Hrun & Hk).
  exists stats. rewrite Hrun. split; [reflexivity|]. split.
  - apply (Hk 1 "visits" (count_event "visit")). reflexivity.
  - apply (Hk 3 "exits" (count_event "exit")). reflexivity.
Defined.

(** ** Requests and the destinations *)

Lemma adds_app_serve (m : http_method) (req : request) :
  let n := if app_visit_route req then 1 else 0 in
  adds n n n (App.serve m req).
Proof.
  cbv zeta. unfold App.serve, app_visit_route.
  destruct m.
  - destruct (String.eqb (url_path req) "/health") eqn:E1.
    { apply String.eqb_eq in E1. rewrite E1. apply adds_ret. }
    destruct (String.eqb (url_path req) "/api/stats") eqn:E2.
    { apply String.eqb_eq in E2. rewrite E2. simpl.
      unfold App.stats. apply (adds_bind 0 0 0 0 0 0); [apply adds_get_stats|].
      intros s. apply adds_ret. }
    destruct (String.eqb (url_path req) "/api/visit").
    + unfold App.visit_get.
      apply (adds_bind 0 0 0 1 1 1); [apply adds_ask|]. intros now.
      apply (adds_bind 1 1 1 0 0 0); [apply adds_app_persist|]. intros _.
      apply adds_ret.
    + apply adds_ret.
  - destruct (String.eqb (url_path req) "/api/visit").
    + unfold App.visit_post.
      apply (adds_bind 0 0 0 1 1 1).
      { apply adds_try_except_on; [|intros e; apply adds_ret].
        unfold App.req_json. destruct (body req);
          try apply adds_raise; apply adds_ret. }
      intros payload.
      apply (adds_bind 0 0 0 1 1 1); [apply adds_ask|]. intros now.
      apply (adds_bind 1 1 1 0 0 0); [apply adds_app_persist|]. intros _.
      apply adds_ret.
    + apply adds_ret.
Qed.

Lemma adds_server_serve (m : http_method) (req : request) :
  let n := if server_visit_route m req then 1 else 0 in
  adds n n n (Server.serve m req).
Proof.
  cbv zeta. unfold Server.serve, server_visit_route.
  destruct m.
  - unfold Server.do_GET.
    destruct (String.eqb (url_path req) "/health");
      [apply adds_server_respond|].
    destruct (String.eqb (url_path req) "/api/stats"); simpl.
    { apply (adds_bind 0 0 0 0 0 0); [apply adds_get_stats|].
      intros s. apply adds_server_respond. }
    destruct (String.eqb (url_path req) "/favicon.ico");
      [apply adds_server_respond|].
    simpl. destruct (visit_path (url_path req)); [|apply adds_ret].
    apply (adds_bind 0 0 0 1 1 1); [apply adds_ask|]. intros now.
    apply adds_server_fan_out.
  - unfold Server.do_POST.
    destruct (visit_path (url_path req)); simpl;
      [|apply adds_server_send_error].
    apply (adds_bind 0 0 0 1 1 1).
    { unfold Server.read_length. destruct (content_length req);
        try apply adds_raise; apply adds_ret. }
    intros length.
    apply (adds_bind 0 0 0 1 1 1).
    { unfold Server.parse_payload.
      apply adds_try_except_on; [|intros e; apply adds_ret].
      apply (adds_bind 0 0 0 0 0 0); [|intros p; apply adds_ret].
      unfold Server.loads_raw. destruct (Server.read_raw req length);
        try apply adds_raise; apply adds_ret. }
    intros [payload|].
    + apply (adds_bind 0 0 0 1 1 1); [apply adds_ask|]. intros now.
      apply adds_server_fan_out.
    + eapply adds_weaken; [| | |apply adds_server_send_error]; lia.
Qed.

Lemma run_adds (serve : http_method -> request -> M response)
  (route : http_method -> request -> bool) :
  (forall m req,
     adds (if route m req then 1 else 0) (if route m req then 1 else 0)
          (if route m req then 1 else 0) (serve m req)) ->
  forall reqs w,
    sinks_appended (routed route reqs) (routed route reqs) (routed route reqs)
                   w (run serve reqs w).
Proof.
  intros H reqs. unfold routed.
  induction reqs as [|[[m req] ev] rest IH]; intros w; simpl.
  - apply sinks_appended_refl.
  - specialize (H m req ev w). specialize (IH (fst (serve m req ev w))).
    destruct (route m req); simpl.
    + apply (sinks_appended_trans 1 1 1 _ _ _ w _ _ H IH).
    + apply (sinks_appended_trans 0 0 0 _ _ _ w _ _ H IH).
Qed.

(** X5: whatever a sequence of requests does, and whatever fails on the
    way, both servers only ever append: the collector's deliveries, the
    lines of the log file and the rows of the active store after the
    requests are those from before followed by at most one new record per
    request that went to a visit route.  Nothing recorded is changed or
    removed, and a connection that was unset stays unset. *)
Theorem destinations_only_grow :
  forall (reqs : list served) (w : world),
    (let n := routed (fun _ req => app_visit_route req) reqs in
     sinks_appended n n n w (run App.serve reqs w))
    /\ (let n := routed server_visit_route reqs in
        sinks_appended n n n w (run Server.serve reqs w)).
Proof.
  intros reqs w. split; cbv zeta.
  - apply (run_adds App.serve (fun _ req => app_visit_route req)).
    intros m req. apply adds_app_serve.
  - apply (run_adds Server.serve server_visit_route).
    intros m req. apply adds_server_serve.
Qed.

Lemma get_stats_world (ev : env) (w : world) :
  fst (get_stats ev w) = w \/ fst (get_stats ev w) = add_stderr "Stats error:" w.
Proof.
  destruct (assign_counts_lookup
              (match PG_CONN w with Some _ => pg_fetch | None => sqlite_fetch end)
              (answer ev w) ev w (fetch_answer ev w)
              (statements ev w) zero_stats (statements_nodup ev w))
    as (s & err & Hrun & _).
  unfold get_stats. cbv beta iota zeta delta [bind ask read].
  unfold statements in Hrun.
  destruct (PG_CONN w) as [acc|]; rewrite Hrun; destruct err; simpl; auto.
Qed.

Lemma only_printed_refl (w : world) : only_printed w w.
Proof. repeat split. Qed.

Lemma only_printed_stderr (msg : string) (w w' : world) :
  only_printed w w' -> only_printed w (add_stderr msg w').
Proof. intros H. exact H. Qed.

Lemma get_stats_only_printed (ev : env) (w : world) :
  only_printed w (fst (get_stats ev w)).
Proof.
  destruct (get_stats_world ev w) as [-> | ->];
    [|apply only_printed_stderr]; apply only_printed_refl.
Qed.

(** X6: a request that does not go to a visit route -- health check,
    statistics, favicon, static file, a POST to an unknown path -- enters
    no sink and records nothing.  The token, the connections with the
    rows they hold, the lines of the log file, the collector's deliveries
    and the trace of sink calls are afterwards what they were before;
    whatever such a request writes, it writes to [sys.stderr]. *)
Theorem other_routes_write_nothing :
  forall (m : http_method) (req : request) (ev : env) (w : world),
    (app_visit_route req = false ->
     only_printed w (fst (App.serve m req ev w)))
    /\ (server_visit_route m req = false ->
        only_printed w (fst (Server.serve m req ev w))).
Proof.
  intros m req ev w. split.
  - unfold app_visit_route, App.serve. intros Hr. rewrite Hr.
    destruct m; [|apply only_printed_refl].
    destruct (String.eqb (url_path req) "/health"); [apply only_printed_refl|].
    destruct (String.eqb (url_path req) "/api/stats");
      [|apply only_printed_refl].
    unfold App.stats, bind.
    pose proof (get_stats_only_printed ev w) as H.
    destruct (get_stats ev w) as [w' [s|e]]; exact H.
  - unfold server_visit_route, Server.serve. intros Hr.
    destruct m.
    + unfold Server.do_GET.
      destruct (String.eqb (url_path req) "/health"); [repeat split|].
      destruct (String.eqb (url_path req) "/api/stats").
      { unfold bind at 1.
        pose proof (get_stats_only_printed ev w) as H.
        destruct (get_stats ev w) as [w' [s|e]]; exact H. }
      destruct (String.eqb (url_path req) "/favicon.ico"); [repeat split|].
      simpl in Hr. rewrite Hr. apply only_printed_refl.
    + unfold Server.do_POST. rewrite Hr. repeat split.
Qed.

Lemma other_routes_write_nothing_witness :
  only_printed embedded_world
    (fst (Server.serve POST (mkrequest "/admin" [] None None "10.0.0.9"
                               (LengthInt 2) (RawJson (JObj [])))
            log_unwritable embedded_world))
  /\ stderr (fst (Server.serve POST
                    (mkrequest "/admin" [] None None "10.0.0.9"
                       (LengthInt 2) (RawJson (JObj [])))
                    log_unwritable embedded_world))
     = [Server.error_format; Server.request_format].
Proof.
  split; [|reflexivity].
  apply (proj2 (other_routes_write_nothing POST
                  (mkrequest "/admin" [] None None "10.0.0.9" (LengthInt 2)
                     (RawJson (JObj [])))
                  log_unwritable embedded_world)).
  reflexivity.
Defined.

(** ** [write_db]: all or nothing *)

(** X8: on the embedded backend [write_db] stores all of an entry or
    nothing, never touches the log or the collector, and always returns
    normally.  The table afterwards is the table from before, or that
    table with exactly one row behind it, the row of the entry; at most
    the one line ["DB write error:"] is printed, and when nothing was
    printed the row is there.  A keyed value that is a list, an object or
    an integer beyond 64 bits leaves the table as it was and prints the
    error. *)
Theorem write_db_all_or_nothing :
  forall (entry : dict) (ev : env) (w : world) (t : Sqlite.table),
    PG_CONN w = None -> SQLITE_CONN w = Some t ->
    let w' := fst (write_db entry ev w) in
    snd (write_db entry ev w) = Ok tt
    /\ visits_log w' = visits_log w /\ collector w' = collector w
    /\ PG_CONN w' = None
    /\ (SQLITE_CONN w' = Some t
        \/ exists xs,
             Sqlite.bind_all (insert_params entry) = Ok xs
             /\ SQLITE_CONN w' = Some (t ++ [row_of entry xs])%list)
    /\ (stderr w' = stderr w
        \/ stderr w' = (stderr w ++ ["DB write error:"])%list)
    /\ (stderr w' = stderr w ->
        exists r,
          SQLITE_CONN w' = Some (t ++ [r])%list
          /\ Sqlite.payload r = json_dumps false entry)
    /\ (forallb bindable (insert_params entry) = false ->
        SQLITE_CONN w' = Some t
        /\ stderr w' = (stderr w ++ ["DB write error:"])%list).
Proof.
  intros entry ev w t Hpg Hsq. cbv zeta.
  destruct (forallb bindable (insert_params entry)) eqn:Hb.
  - apply bind_all_forall in Hb. destruct Hb as [xs Hxs].
    destruct (sqlite_insert_error ev) as [e|] eqn:Herr.
    + rewrite (write_db_engine_error entry ev w t xs e Hpg Hsq Herr Hxs).
      cbn [fst snd].
      destruct (sqlite_row_pending ev);
        cbn [visits_log collector PG_CONN SQLITE_CONN stderr add_stderr
             set_SQLITE_CONN add_call];
        (split; [reflexivity|]); (split; [reflexivity|]);
        (split; [reflexivity|]); (split; [exact Hpg|]);
        (split; [|split; [right; reflexivity|split; [|discriminate]]]).
      * right. exists xs. split; [exact Hxs|reflexivity].
      * intros H. destruct (app_one_more _ _ H).
      * left. exact Hsq.
      * intros H. destruct (app_one_more _ _ H).
    + rewrite (write_db_embedded entry ev w t xs Hpg Hsq Herr Hxs).
      cbn [fst snd visits_log collector PG_CONN SQLITE_CONN stderr
           set_SQLITE_CONN add_call].
      split; [reflexivity|]. split; [reflexivity|]. split; [reflexivity|].
      split; [exact Hpg|].
      split; [right; exists xs; split; [exact Hxs|reflexivity]|].
      split; [left; reflexivity|]. split; [|discriminate].
      intros _. exists (row_of entry xs). split; reflexivity.
  - rewrite (write_db_bind_error entry ev w t Hpg Hsq Hb).
    cbn [fst snd visits_log collector PG_CONN SQLITE_CONN stderr add_stderr
         add_call].
    split; [reflexivity|]. split; [reflexivity|]. split; [reflexivity|].
    split; [exact Hpg|]. split; [left; exact Hsq|].
    split; [right; reflexivity|]. split.
    + intros H. destruct (app_one_more _ _ H).
    + intros _. split; [exact Hsq|reflexivity].
Qed.

Lemma write_db_all_or_nothing_witness :
  (exists r,
     SQLITE_CONN (fst (write_db visit_today calm embedded_world)) = Some [r]
     /\ Sqlite.payload r = json_dumps false visit_today)
  /\ SQLITE_CONN (fst (write_db [("utm", JArr [])] calm embedded_world))
     = Some []
  /\ stderr (fst (write_db [("utm", JArr [])] calm embedded_world))
     = ["DB write error:"].
Proof.
  split.
  - destruct (write_db_all_or_nothing visit_today calm embedded_world []
                eq_refl eq_refl) as (_ & _ & _ & _ & _ & _ & Hsilent & _).
    apply Hsilent. reflexivity.
  - destruct (write_db_all_or_nothing [("utm", JArr [])] calm embedded_world []
                eq_refl eq_refl) as (_ & _ & _ & _ & _ & _ & _ & Hlist).
    apply Hlist. reflexivity.
Defined.

(** ** Which events the embedded backend can store *)

Lemma get_entry_params (now : Datetime.datetime) (req : request) (ip : string) :
  insert_params
    [ ("ts", JStr (Datetime.isoformat now ++ "Z"));
      ("method", JStr "GET");
      ("path", JStr (query_param req "path" ""));
      ("referrer", JStr (query_param req "referrer" ""));
      ("userAgent", JStr (query_param req "ua" ""));
      ("event", JStr (query_param req "event" ""));
      ("sessionId", JStr (query_param req "sid" ""));
      ("utm", JStr (query_param req "utm" ""));
      ("ip", JStr ip);
      ("requestPath", JStr (url_path req)) ]
  = [ JStr (Datetime.isoformat now ++ "Z"); JStr "GET"; JStr ip;
      JStr (url_path req); JStr (query_param req "path" "");
      JStr (query_param req "referrer" ""); JStr (query_param req "ua" "");
      JStr (query_param req "event" ""); JStr (query_param req "sid" "");
      JInt 0; JStr (query_param req "utm" "") ].
Proof. reflexivity. Qed.

Lemma app_get_insertable (now : Datetime.datetime) (req : request) :
  insertable (App.get_entry now req).
Proof.
  unfold insertable, App.get_entry. rewrite get_entry_params.
  eexists. reflexivity.
Qed.

Lemma server_get_insertable (now : Datetime.datetime) (req : request) :
  insertable (Server.get_entry now req).
Proof.
  unfold insertable, Server.get_entry. rewrite get_entry_params.
  eexists. reflexivity.
Qed.

(** The parameters of a POST: the caller's value where the payload has a
    member of the column's name, else what the server put there. *)
Lemma app_post_params (now : Datetime.datetime) (req : request)
  (payload : value) :
  insert_params (App.post_entry now req payload)
  = map (fun cf => match supplied payload (fst cf) with
                   | Some v => v
                   | None => snd cf
                   end)
        [ ("ts", JStr (Datetime.isoformat now ++ "Z"));
          ("method", JStr "POST");
          ("ip", JStr (App.client_host req));
          ("requestPath", JStr (url_path req));
          ("path", JStr ""); ("referrer", JStr ""); ("userAgent", JStr "");
          ("event", JStr ""); ("sessionId", JStr "");
          ("sessionStarted", JInt 0); ("utm", JStr "") ].
Proof.
  unfold insert_params, dict_get. rewrite !app_post_lookup.
  cbn [map fst snd].
  repeat (apply f_equal2; [destruct (supplied payload _); reflexivity|]).
  reflexivity.
Qed.

Lemma server_post_params (now : Datetime.datetime) (req : request)
  (payload : value) :
  insert_params (Server.post_entry now req payload)
  = map (fun cf => match supplied payload (fst cf) with
                   | Some v => v
                   | None => snd cf
                   end)
        [ ("ts", JStr (Datetime.isoformat now ++ "Z"));
          ("method", JStr "POST");
          ("ip", JStr (Server.forwarded_ip req));
          ("requestPath", JStr (url_path req));
          ("path", JStr ""); ("referrer", JStr ""); ("userAgent", JStr "");
          ("event", JStr ""); ("sessionId", JStr "");
          ("sessionStarted", JInt 0); ("utm", JStr "") ].
Proof.
  unfold insert_params, dict_get. rewrite !server_post_lookup.
  cbn [map fst snd].
  repeat (apply f_equal2; [destruct (supplied payload _); reflexivity|]).
  reflexivity.
Qed.

Lemma forallb_supplied (payload : value) (cfs : list (string * value)) :
  forallb (fun cf => bindable (snd cf)) cfs = true ->
  forallb bindable
    (map (fun cf => match supplied payload (fst cf) with
                    | Some v => v
                    | None => snd cf
                    end) cfs)
  = forallb (fun c => match supplied payload c with
                      | Some v => bindable v
                      | None => true
                      end) (map fst cfs).
Proof.
  induction cfs as [|[c f] cfs IH]; simpl; intros H; [reflexivity|].
  apply andb_true_iff in H. destruct H as [Hf H]. rewrite (IH H).
  destruct (supplied payload c); [reflexivity|]. rewrite Hf. reflexivity.
Qed.

(** X9: a GET visit always carries parameters the embedded engine can
    bind, whatever the query string holds.  A POST visit whose payload
    gives a list, an object or an integer beyond 64 bits under the name
    of one of the eleven keyed columns -- [ts], [method], [ip] and
    [requestPath] included -- does not: such an event is kept out of the
    store by both front-ends. *)
Theorem insertable_events :
  forall (now : Datetime.datetime) (req : request),
    insertable (App.get_entry now req)
    /\ insertable (Server.get_entry now req)
    /\ forall (payload : value) (c : string) (v : value),
         In c insert_columns ->
         supplied payload c = Some v -> bindable v = false ->
         ~ insertable (App.post_entry now req payload)
         /\ ~ insertable (Server.post_entry now req payload).
Proof.
  intros now req.
  split; [apply app_get_insertable|]. split; [apply server_get_insertable|].
  intros payload c v Hin Hs Hv. unfold insertable.
  rewrite !bind_all_forall, app_post_params, server_post_params.
  rewrite !forallb_supplied by reflexivity.
  assert (H : forallb (fun c => match supplied payload c with
                                | Some v => bindable v
                                | None => true
                                end) insert_columns = false).
  { destruct (forallb _ insert_columns) eqn:E; [|reflexivity].
    rewrite forallb_forall in E. specialize (E c Hin).
    rewrite Hs, Hv in E. discriminate E. }
  change (map fst
            [("ts", JStr (Datetime.isoformat now ++ "Z"));
             ("method", JStr "POST"); ("ip", JStr (App.client_host req));
             ("requestPath", JStr (url_path req)); ("path", JStr "");
             ("referrer", JStr ""); ("userAgent", JStr "");
             ("event", JStr ""); ("sessionId", JStr "");
             ("sessionStarted", JInt 0); ("utm", JStr "")])
    with insert_columns.
  change (map fst
            [("ts", JStr (Datetime.isoformat now ++ "Z"));
             ("method", JStr "POST"); ("ip", JStr (Server.forwarded_ip req));
             ("requestPath", JStr (url_path req)); ("path", JStr "");
             ("referrer", JStr ""); ("userAgent", JStr "");
             ("event", JStr ""); ("sessionId", JStr "");
             ("sessionStarted", JInt 0); ("utm", JStr "")])
    with insert_columns.
  rewrite H. split; discriminate.
Qed.

Lemma insertable_events_witness :
  ~ insertable
      (App.post_entry now0
         (post_request (RawJson (JObj [("ts", JInt (2 ^ 63))])))
         (JObj [("ts", JInt (2 ^ 63))]))
  /\ ~ insertable
        (Server.post_entry now0
           (post_request (RawJson (JObj [("ts", JInt (2 ^ 63))])))
           (JObj [("ts", JInt (2 ^ 63))])).
Proof.
  apply (proj2 (proj2 (insertable_events now0
                         (post_request
                            (RawJson (JObj [("ts", JInt (2 ^ 63))])))))
           (JObj [("ts", JInt (2 ^ 63))]) "ts" (JInt (2 ^ 63))).
  - simpl. tauto.
  - reflexivity.
  - reflexivity.
Defined.

(** ** [persist] in [app.py]: what each destination receives *)

Lemma adds_stores_unchanged {A : Type} (c f : nat) (m : M A) (ev : env)
  (w : world) :
  adds c f 0 m ->
  PG_CONN (fst (m ev w)) = PG_CONN w
  /\ SQLITE_CONN (fst (m ev w)) = SQLITE_CONN w.
Proof.
  intros H. destruct (H ev w) as (_ & _ & Hpg & Hsq & _).
  split; apply appended_opt_zero; assumption.
Qed.

Lemma adds_log_unchanged {A : Type} (c d : nat) (m : M A) (ev : env)
  (w : world) :
  adds c 0 d m -> visits_log (fst (m ev w)) = visits_log w.
Proof.
  intros H. destruct (H ev w) as (_ & Hlog & _).
  apply appended_zero. exact Hlog.
Qed.

Lemma app_append_file_line (entry : dict) (ev : env) (w : world) :
  log_write_error ev = None ->
  App.append_file entry ev w
  = (add_visits_log (json_dumps false entry)
       (add_call (call_append_file entry) w), Ok tt).
Proof.
  intros H. unfold App.append_file. run_m. rewrite H. reflexivity.
Qed.

Lemma app_persist_embedded (entry : dict) (ev : env) (w : world)
  (t : Sqlite.table) :
  PG_CONN w = None -> SQLITE_CONN w = Some t ->
  sqlite_insert_error ev = None -> insertable entry ->
  snd (App.persist entry ev w) = Ok tt
  /\ PG_CONN (fst (App.persist entry ev w)) = None
  /\ SQLITE_CONN (fst (App.persist entry ev w))
     = Some (t ++ [stored_row entry])%list
  /\ (log_write_error ev = None ->
      visits_log (fst (App.persist entry ev w))
      = (visits_log w ++ [json_dumps false entry])%list).
Proof.
  intros Hpg Hsq Herr [xs Hxs]. unfold App.persist.
  destruct (app_send_to_logtail_isolated entry ev w) as (w1 & Hs & _).
  destruct (adds_stores_unchanged 1 0 _ ev w (adds_app_send_to_logtail entry))
    as [Hpg1 Hsq1].
  pose proof (adds_log_unchanged 1 0 _ ev w (adds_app_send_to_logtail entry))
    as Hlog1.
  rewrite Hs in Hpg1, Hsq1, Hlog1. simpl in Hpg1, Hsq1, Hlog1.
  destruct (app_append_file_isolated entry ev w1) as (w2 & Ha & _).
  destruct (adds_stores_unchanged 0 1 _ ev w1 (adds_app_append_file entry))
    as [Hpg2 Hsq2].
  rewrite Ha in Hpg2, Hsq2. simpl in Hpg2, Hsq2.
  assert (Hpg' : PG_CONN w2 = None) by congruence.
  assert (Hsq' : SQLITE_CONN w2 = Some t) by congruence.
  unfold bind. rewrite Hs, Ha.
  rewrite (write_db_embedded entry ev w2 t xs Hpg' Hsq' Herr Hxs). simpl.
  unfold stored_row. rewrite Hxs, Hpg'.
  split; [reflexivity|]. split; [reflexivity|]. split; [reflexivity|].
  intros Hlog. rewrite (app_append_file_line entry ev w1 Hlog) in Ha.
  injection Ha as <-. simpl. rewrite Hlog1. reflexivity.
Qed.



(** ** Statistics of GET visits recorded by [app.py] *)

Lemma date_eqb_eq (d d' : Datetime.date) : date_eqb d d' = true <-> d = d'.
Proof.
  destruct d as [y m a], d' as [y' m' a']. unfold date_eqb. simpl.
  rewrite !andb_true_iff, !Z.eqb_eq. split.
  - intros [[-> ->] ->]. reflexivity.
  - intros H. injection H as -> -> ->. auto.
Qed.

Lemma app_get_dated (now : Datetime.datetime) (req : request) :
  Datetime.valid_datetime now ->
  dated (App.get_entry now req) (Datetime.date_of now).
Proof. intros Hv. exists now. repeat split; apply Hv. Qed.

Lemma stored_today_bool (e : dict) (d today : Datetime.date) :
  insertable e -> dated e d -> Datetime.valid_date today ->
  Sqlite.text_like (Sqlite.cell "ts" (stored_row e))
                   (Datetime.date_isoformat today ++ "%")
  = date_eqb d today.
Proof.
  intros Hi Hd Ht.
  destruct (date_eqb d today) eqn:E.
  - apply date_eqb_eq in E. apply (stored_today e d today Hi Hd Ht). exact E.
  - apply not_true_is_false. intros H.
    apply (stored_today e d today Hi Hd Ht) in H.
    apply date_eqb_eq in H. congruence.
Qed.

Lemma count_where_map {A : Type} (p : Sqlite.row -> bool) (p' : A -> bool)
  (f : A -> Sqlite.row) (l : list A) :
  (forall x, In x l -> p (f x) = p' x) ->
  Sqlite.count_where p (map f l) = Z.of_nat (List.length (filter p' l)).
Proof.
  intros H. unfold Sqlite.count_where. f_equal.
  induction l as [|x l IH]; simpl; [reflexivity|].
  rewrite (H x (or_introl eq_refl)).
  assert (IH' := IH (fun y Hy => H y (or_intror Hy))).
  destruct (p' x); simpl; rewrite IH'; reflexivity.
Qed.

Lemma app_get_row_of (s : served) (t : Sqlite.table) (w : world) :
  fst (fst s) = GET -> url_path (snd (fst s)) = "/api/visit" ->
  sqlite_insert_error (snd s) = None ->
  PG_CONN w = None -> SQLITE_CONN w = Some t ->
  let w' := fst (App.serve (fst (fst s)) (snd (fst s)) (snd s) w) in
  PG_CONN w' = None
  /\ SQLITE_CONN w'
     = Some (t ++ [stored_row (App.get_entry (utcnow (snd s)) (snd (fst s)))])%list.
Proof.
  destruct s as [[m req] ev]. simpl. intros -> Hpath Herr Hpg Hsq.
  unfold App.serve. rewrite Hpath. simpl.
  unfold App.visit_get. cbv beta iota zeta delta [bind ask ret].
  destruct (app_persist_embedded (App.get_entry (utcnow ev) req) ev w t
              Hpg Hsq Herr (app_get_insertable _ _)) as (Hok & Hpg' & Hsq' & _).
  destruct (App.persist (App.get_entry (utcnow ev) req) ev w) as [w' r].
  simpl in *. subst r. simpl. split; assumption.
Qed.

Lemma app_get_rows (reqs : list served) :
  forall (w : world) (t : Sqlite.table),
    (forall s, In s reqs ->
               fst (fst s) = GET /\ url_path (snd (fst s)) = "/api/visit"
               /\ sqlite_insert_error (snd s) = None) ->
    PG_CONN w = None -> SQLITE_CONN w = Some t ->
    SQLITE_CONN (run App.serve reqs w)
    = Some (t ++ map (fun s => stored_row (App.get_entry (utcnow (snd s))
                                              (snd (fst s)))) reqs)%list
    /\ PG_CONN (run App.serve reqs w) = None.
Proof.
  induction reqs as [|s reqs IH]; intros w t Hall Hpg Hsq.
  - simpl. rewrite app_nil_r. split; assumption.
  - destruct (Hall s (or_introl eq_refl)) as (Hm & Hp & He).
    destruct (app_get_row_of s t w Hm Hp He Hpg Hsq) as [Hpg' Hsq'].
    destruct s as [[m req] ev]. simpl in *.
    destruct (IH _ _ (fun s' H' => Hall s' (or_intror H')) Hpg' Hsq')
      as [Hrows Hpgr].
    split; [|exact Hpgr]. rewrite Hrows, <- app_assoc. reflexivity.
Qed.

Lemma stored_sessions_get (reqs : list served) :
  Sqlite.non_null
    (map (fun r => Sqlite.column_text (Sqlite.cell "sessionId" r))
         (map (fun s => stored_row (App.get_entry (utcnow (snd s))
                                       (snd (fst s)))) reqs))
  = map session_of reqs.
Proof.
  induction reqs as [|s reqs IH]; [reflexivity|].
  cbn [map].
  rewrite (stored_session _ (session_of s) (app_get_insertable _ _));
    [|reflexivity].
  cbn [Sqlite.non_null]. rewrite IH. reflexivity.
Qed.

(** X1: the statistics of GET visits, end to end.  Starting from an empty
    embedded store, after any sequence of GETs of [/api/visit] handled by
    [app.py] with a working engine, [get_stats] returns: the number of
    requests; the numbers of requests whose [event] parameter is [visit],
    [click] and [exit]; the number of distinct [sid] values (a missing
    [sid] counts as the session [""]); and the numbers of [visit] and
    [click] requests received on the UTC day of the query.  Failures of
    the collector or of the log file do not change these numbers. *)
Theorem stats_of_get_visits :
  forall (reqs : list served) (ev : env) (w0 : world),
    PG_CONN w0 = None -> SQLITE_CONN w0 = Some [] ->
    (forall s, In s reqs ->
               fst (fst s) = GET /\ url_path (snd (fst s)) = "/api/visit"
               /\ sqlite_insert_error (snd s) = None
               /\ Datetime.valid_datetime (utcnow (snd s))) ->
    (forall q, sqlite_select_error ev q = None) ->
    Datetime.valid_datetime (utcnow ev) ->
    snd (get_stats ev (run App.serve reqs w0))
    = Ok (expected_stats (Datetime.date_of (utcnow ev)) reqs).
Proof.
  intros reqs ev w0 Hpg Hsq Hall Hsel [Htoday _].
  destruct (app_get_rows reqs w0 []) as [Hrows Hpg']; try assumption.
  { intros s Hs. destruct (Hall s Hs) as (H1 & H2 & H3 & _). auto. }
  simpl in Hrows.
  rewrite (get_stats_embedded ev _ _ Hpg' Hrows Hsel). cbv zeta. cbn [snd].
  unfold expected_stats, tally. repeat f_equal.
  - unfold Sqlite.count_where. rewrite forallb_filter_id.
    + rewrite length_map. reflexivity.
    + apply forallb_forall. reflexivity.
  - apply count_where_map. intros s Hs.
    apply stored_event; [apply app_get_insertable|reflexivity].
  - apply count_where_map. intros s Hs.
    apply stored_event; [apply app_get_insertable|reflexivity].
  - apply count_where_map. intros s Hs.
    apply stored_event; [apply app_get_insertable|reflexivity].
  - unfold Sqlite.count_distinct. rewrite stored_sessions_get. reflexivity.
  - apply count_where_map. intros s Hs.
    destruct (Hall s Hs) as (_ & _ & _ & Hv).
    rewrite (stored_event _ (event_of s) "visit" (app_get_insertable _ _))
      by reflexivity.
    rewrite (stored_today_bool _ (day_of s) _ (app_get_insertable _ _)
               (app_get_dated _ _ Hv) Htoday).
    reflexivity.
  - apply count_where_map. intros s Hs.
    destruct (Hall s Hs) as (_ & _ & _ & Hv).
    rewrite (stored_event _ (event_of s) "click" (app_get_insertable _ _))
      by reflexivity.
    rewrite (stored_today_bool _ (day_of s) _ (app_get_insertable _ _)
               (app_get_dated _ _ Hv) Htoday).
    reflexivity.
Qed.

Lemma stats_of_get_visits_witness :
  snd (get_stats calm
         (run App.serve
            [ get_visit now0 "visit" "a"; get_visit yesterday0 "click" "b";
              get_visit now0 "visit" "" ]
            embedded_world))
  = Ok [ ("totalEvents", 3%Z); ("visits", 2%Z); ("clicks", 1%Z);
         ("exits", 0%Z); ("uniqueSessions", 3%Z); ("visitsToday", 2%Z);
         ("clicksToday", 0%Z) ].
Proof.
  rewrite (stats_of_get_visits
             [ get_visit now0 "visit" "a"; get_visit yesterday0 "click" "b";
               get_visit now0 "visit" "" ]
             calm embedded_world eq_refl eq_refl).
  - reflexivity.
  - intros s Hs. simpl in Hs.
    destruct Hs as [<-|[<-|[<-|[]]]]; repeat split;
      try apply now0_valid; apply yesterday0_valid.
  - reflexivity.
  - exact now0_valid.
Defined.

(** ** [do_POST] of [server.py]: length and body edge cases *)

(** X11: [server.py] reads no body when [Content-Length] is absent or 0:
    such a POST to a visit path is handled exactly like one whose body is
    [{}], whatever bytes the client sent. *)
Theorem server_post_without_length :
  forall (req : request) (ev : env) (w : world),
    visit_path (url_path req) = true ->
    content_length req = LengthAbsent \/ content_length req = LengthInt 0 ->
    Server.do_POST req ev w
    = Server.do_POST (with_body req (LengthInt 2) (RawJson (JObj []))) ev w.
Proof.
  intros req ev w Hpath Hlen.
  rewrite (server_do_POST_read req ev w 0 Hpath).
  - rewrite (server_do_POST_read (with_body req (LengthInt 2) (RawJson (JObj [])))
               ev w 2 Hpath eq_refl).
    reflexivity.
  - unfold Server.read_length. destruct Hlen as [-> | ->]; reflexivity.
Qed.

Lemma server_post_without_length_witness :
  Server.do_POST (with_body (post_request RawNotJson) LengthAbsent RawNotJson)
    calm embedded_world
  = Server.do_POST (post_request (RawJson (JObj []))) calm embedded_world.
Proof.
  rewrite (server_post_without_length
             (with_body (post_request RawNotJson) LengthAbsent RawNotJson)
             calm embedded_world eq_refl (or_introl eq_refl)).
  reflexivity.
Defined.



(** ** Backend selection in closed form *)

(** X13: the backend chosen at import time.  The networked backend is
    chosen exactly when a non-empty connection string is configured and
    the driver import, the connection and the table creation all succeed;
    the embedded database is then not opened at all, so its state cannot
    make the import fail.  In every other case the embedded database is
    opened; the fallback message is printed only when a configured
    networked backend failed, not when none was configured. *)
Theorem backend_choice :
  forall (token POSTGRES_DSN : option string) (b : boot_env),
    select_backend token POSTGRES_DSN b
    = if configured POSTGRES_DSN && postgres_ready b
      then Ok (mkworld token (Some []) None [] [] [] [])
      else
        match init_sqlite b with
        | Ok conn =>
            Ok (mkworld token None (Some conn) [] []
                  (if configured POSTGRES_DSN
                   then ["Postgres init error, falling back to sqlite:"]
                   else [])
                  [])
        | Raise e => Raise e
        end.
Proof.
  intros token dsn b.
  unfold select_backend, try_postgres, configured, postgres_ready.
  destruct dsn as [s|]; [|simpl; destruct (init_sqlite b); reflexivity].
  destruct (Text.truthy s); [|simpl; destruct (init_sqlite b); reflexivity].
  destruct (import_psycopg_error b), (connect_error b), (create_table_error b);
    simpl; try reflexivity; destruct (init_sqlite b); reflexivity.
Qed.

(** ** The client address computed by [server.py] *)

Lemma has_char_append (c : ascii) (a b : string) :
  Text.has_char c (a ++ b) = Text.has_char c a || Text.has_char c b.
Proof.
  induction a as [|x a IH]; simpl; [reflexivity|].
  rewrite IH. apply orb_assoc.
Qed.

(** X15: the address [server.py] records is either the peer address of the
    connection, or a non-empty piece of the forwarding header that has no
    comma in it and no white space at either end. *)
Theorem forwarded_ip_clean :
  forall (req : request),
    Server.forwarded_ip req = client_address req
    \/ (Server.forwarded_ip req <> ""
        /\ Text.has_char "," (Server.forwarded_ip req) = false
        /\ Text.first_char_space (Server.forwarded_ip req) = false
        /\ Text.last_char_space (Server.forwarded_ip req) = false
        /\ exists h before after,
             x_forwarded_for req = Some h
             /\ h = before ++ Server.forwarded_ip req ++ after).
Proof.
  intros req.
  destruct (forwarded_ip_spec req)
    as (tok & t & (Hc & Hh) & (l & r & Htok & Hl & Hr & Hf & Hla) & Hip).
  destruct (String.eqb t "") eqn:Et; [left; exact Hip|].
  right. rewrite Hip. apply String.eqb_neq in Et.
  split; [exact Et|].
  assert (Hct : Text.has_char "," t = false).
  { rewrite Htok, !has_char_append in Hc.
    apply orb_false_iff in Hc. destruct Hc as [_ Hc].
    apply orb_false_iff in Hc. tauto. }
  split; [exact Hct|]. split; [exact Hf|]. split; [exact Hla|].
  destruct (x_forwarded_for req) as [h|] eqn:Eh.
  - exists h. destruct Hh as [Hh|[rest Hh]].
    + exists l, r. split; [reflexivity|]. rewrite Hh. exact Htok.
    + exists l, (r ++ "," ++ rest). split; [reflexivity|].
      rewrite Hh, Htok, !append_assoc. reflexivity.
  - exfalso. destruct Hh as [Hh|[rest Hh]].
    + rewrite <- Hh in Htok. destruct l; [|discriminate Htok].
      simpl in Htok.
      destruct t; [apply Et; reflexivity|discriminate Htok].
    + destruct tok; discriminate Hh.
Qed.

(** ** The "today" filter of the embedded variant *)

(** X4: for every date, the pattern [get_stats] binds into
    [ts LIKE ?] has no wildcard but its final [%]: the today counters of
    the embedded variant count exactly the rows of the given kind whose
    [ts] text starts, character for character, with the ISO date -- a NULL
    [ts] never counts, an integer counts by its decimal text. *)
Theorem today_filter_is_prefix_test :
  forall (d : Datetime.date) (kind : string) (t : Sqlite.table),
    sqlite_select (count_event_ts_like kind (Datetime.date_isoformat d ++ "%")) t
    = Ok (Sqlite.count_where
            (fun r =>
               Sqlite.text_eq (Sqlite.cell "event" r) kind
               && match Sqlite.column_text (Sqlite.cell "ts" r) with
                  | Some s => Text.startswith s (Datetime.date_isoformat d)
                  | None => false
                  end) t).
Proof.
  intros d kind t. unfold sqlite_select, Sqlite.count_where.
  do 3 f_equal. apply filter_ext. intros r. f_equal.
  unfold Sqlite.text_like.
  destruct (Sqlite.column_text (Sqlite.cell "ts" r)); [|reflexivity].
  apply like_prefix, literal_date_isoformat.
Qed.

(** ** Without a token nothing leaves the machine *)

Lemma silent_of_adds {A : Type} (f d : nat) (m : M A) :
  adds 0 f d m -> silent m.
Proof.
  intros H ev w _. destruct (H ev w) as (Hc & _ & _ & _ & Ht).
  split; [apply appended_zero; exact Hc|exact Ht].
Qed.

Lemma silent_bind {A B : Type} (m : M A) (k : A -> M B) :
  silent m -> (forall a, silent (k a)) -> silent (bind m k).
Proof.
  intros Hm Hk ev w Ht. unfold bind.
  destruct (Hm ev w Ht) as [Hc Htok].
  destruct (m ev w) as [w1 [a|e]]; simpl in *.
  - destruct (Hk a ev w1) as [Hc' Htok']; [rewrite Htok; exact Ht|].
    split; congruence.
  - split; assumption.
Qed.

Lemma silent_try_except_on {A : Type} (catches : exn -> bool) (m : M A)
  (h : exn -> M A) :
  silent m -> (forall e, silent (h e)) -> silent (try_except_on catches m h).
Proof.
  intros Hm Hh ev w Ht. unfold try_except_on.
  destruct (Hm ev w Ht) as [Hc Htok].
  destruct (m ev w) as [w1 [a|e]]; simpl in *.
  - split; assumption.
  - destruct (catches e); [|split; assumption].
    destruct (Hh e ev w1) as [Hc' Htok']; [rewrite Htok; exact Ht|].
    split; congruence.
Qed.

Lemma silent_app_send_to_logtail (entry : dict) :
  silent (App.send_to_logtail entry).
Proof.
  intros ev w Ht. unfold App.send_to_logtail. run_m. simpl.
  rewrite Ht. split; reflexivity.
Qed.

Lemma silent_server_send_to_logtail (entry : dict) :
  silent (Server.send_to_logtail entry).
Proof.
  intros ev w Ht. unfold Server.send_to_logtail. run_m. simpl.
  rewrite Ht. split; reflexivity.
Qed.

Ltac silent_step :=
  first
    [ apply silent_app_send_to_logtail
    | apply silent_server_send_to_logtail
    | apply (silent_of_adds 0 0); apply adds_ret
    | apply (silent_of_adds 0 0); apply adds_raise
    | apply (silent_of_adds 0 0); apply adds_ask
    | apply (silent_of_adds 0 0); apply adds_get_stats
    | apply (silent_of_adds 1 0); apply adds_app_append_file
    | apply (silent_of_adds 1 0); apply adds_server_append_file
    | apply (silent_of_adds 0 1); apply adds_write_db
    | apply (silent_of_adds 0 0); apply adds_server_send_response
    | apply (silent_of_adds 0 0); apply adds_server_send_error
    | apply silent_bind; [|intro]
    | apply silent_try_except_on; [|intro] ].

Lemma silent_app_serve (m : http_method) (req : request) :
  silent (App.serve m req).
Proof.
  unfold App.serve, App.health, App.stats, App.visit_get, App.visit_post,
    App.persist, App.req_json, try_except.
  destruct m;
    repeat match goal with
           | |- silent (if ?b then _ else _) => destruct b
           end;
    repeat silent_step.
  destruct (body req); silent_step.
Qed.

Lemma silent_server_serve (m : http_method) (req : request) :
  silent (Server.serve m req).
Proof.
  unfold Server.serve, Server.do_GET, Server.do_POST, Server.parse_payload,
    Server.read_length, Server.loads_raw.
  destruct m;
    repeat match goal with
           | |- silent (if ?b then _ else _) => destruct b
           end;
    repeat silent_step.
  - destruct (content_length req); silent_step.
  - match goal with |- silent (match ?r with _ => _ end) => destruct r end;
      silent_step.
  - match goal with |- silent (match ?r with _ => _ end) => destruct r end;
      repeat silent_step.
Qed.

Lemma run_silent (serve : http_method -> request -> M response) :
  (forall m req, silent (serve m req)) ->
  forall reqs w,
    token_missing (LOGTAIL_TOKEN w) = true ->
    collector (run serve reqs w) = collector w.
Proof.
  intros H reqs. induction reqs as [|[[m req] ev] rest IH]; intros w Ht; simpl.
  - reflexivity.
  - destruct (H m req ev w Ht) as [Hc Htok].
    rewrite IH by (rewrite Htok; exact Ht). exact Hc.
Qed.

(** X7: when no collector token is configured -- the variable is unset or
    empty -- neither server ever delivers anything to the collector, over
    any sequence of requests and whatever else fails. *)
Theorem nothing_sent_without_token :
  forall (reqs : list served) (w : world),
    token_missing (LOGTAIL_TOKEN w) = true ->
    collector (run App.serve reqs w) = collector w
    /\ collector (run Server.serve reqs w) = collector w.
Proof.
  intros reqs w Ht. split.
  - apply (run_silent App.serve silent_app_serve reqs w Ht).
  - apply (run_silent Server.serve silent_server_serve reqs w Ht).
Qed.

Lemma nothing_sent_without_token_witness :
  collector (run App.serve
               [ get_visit now0 "visit" "a";
                 (POST, post_request (RawJson (JObj [])), log_unwritable) ]
               (mkworld (Some "") None (Some []) [] [] [] []))
  = [].
Proof.
  exact (proj1 (nothing_sent_without_token
                  [ get_visit now0 "visit" "a";
                    (POST, post_request (RawJson (JObj [])), log_unwritable) ]
                  (mkworld (Some "") None (Some []) [] [] [] [])
                  eq_refl)).
Defined.

(** ** [translate_path] of [server.py] *)

Lemma append_nil_r (s : string) : s ++ "" = s.
Proof. induction s as [|c s IH]; simpl; [reflexivity|rewrite IH; reflexivity]. Qed.

Lemma concat_app_prefix (sep : string) (a b : list string) :
  exists rest,
    String.concat sep (a ++ b) = String.concat sep a ++ rest.
Proof.
  induction a as [|x a IH].
  - exists (String.concat sep b). reflexivity.
  - destruct a as [|y a].
    + destruct b as [|y b].
      * exists "". simpl. rewrite append_nil_r. reflexivity.
      * exists (sep ++ String.concat sep (y :: b)). reflexivity.
    + destruct IH as [rest IH]. exists rest.
      change (String.concat sep ((x :: y :: a) ++ b))
        with (x ++ sep ++ String.concat sep ((y :: a) ++ b)).
      rewrite IH.
      change (String.concat sep (x :: y :: a))
        with (x ++ sep ++ String.concat sep (y :: a)).
      rewrite !append_assoc. reflexivity.
Qed.

Lemma path_parts_slash (s : string) :
  path_parts (String "/" s) = path_parts s.
Proof.
  unfold path_parts. simpl. reflexivity.
Qed.

Lemma path_parts_lstrip (s : string) :
  path_parts (lstrip_slashes s) = path_parts s.
Proof.
  induction s as [|c s IH]; simpl; [reflexivity|].
  destruct (Ascii.eqb c "/") eqn:E; [|reflexivity].
  apply Ascii.eqb_eq in E. subst c. rewrite IH, path_parts_slash. reflexivity.
Qed.

Lemma path_parts_in (s c : string) :
  In c (path_parts s) <-> In c (Text.split "/" s) /\ c <> "" /\ c <> ".".
Proof.
  unfold path_parts. rewrite filter_In, andb_true_iff, !negb_true_iff.
  rewrite !String.eqb_neq. reflexivity.
Qed.

(** X16: [translate_path] first takes the path component of the request
    target as [urlparse] gives it, and raises what [urlparse] raises.  It
    maps that path to ROOT followed by the path's components, where runs
    of slashes and ["."] components do not count and ["/"] stands for
    [index.html].  The result therefore always begins with ROOT as text;
    but [".."] components are kept as they are, so the file it names need
    not lie under ROOT. *)
Theorem translate_path_components :
  forall (urlparse_path : string -> result string) (ROOT : list string)
         (target : string),
    (forall e,
       urlparse_path target = Raise e ->
       translate_path urlparse_path ROOT target = Raise e)
    /\ forall path,
         urlparse_path target = Ok path ->
         (path = "/" ->
          translate_path urlparse_path ROOT target
          = Ok (path_str (ROOT ++ ["index.html"])))
         /\ (path <> "/" ->
             translate_path urlparse_path ROOT target
             = Ok (path_str (ROOT ++ path_parts path)))
         /\ (exists rest,
               translate_path urlparse_path ROOT target
               = Ok (path_str ROOT ++ rest))
         /\ (In ".." (path_parts path) <-> In ".." (Text.split "/" path)).
Proof.
  intros urlparse_path ROOT target. split.
  - intros e He. unfold translate_path. rewrite He. reflexivity.
  - intros path Hp. unfold translate_path. rewrite Hp.
    split; [|split; [|split]].
    + intros ->. reflexivity.
    + intros Hne. apply String.eqb_neq in Hne. rewrite Hne.
      rewrite path_parts_lstrip. reflexivity.
    + unfold path_str.
      destruct (concat_app_prefix "/" ROOT
                  (path_parts (lstrip_slashes
                     (if String.eqb path "/" then "/index.html" else path))))
        as [rest Hrest].
      exists rest. cbv zeta. rewrite Hrest, append_assoc. reflexivity.
    + rewrite path_parts_in. split; [tauto|].
      intros H. repeat split; [exact H|discriminate|discriminate].
Qed.

Lemma translate_path_components_witness :
  translate_path (fun _ => Ok "/assets/./../../secret") ["srv"; "landing"]
    "/assets/./../../secret?download=1"
  = Ok "/srv/landing/assets/../../secret".
Proof.
  rewrite (proj1 (proj2 (proj2 (translate_path_components
                                  (fun _ => Ok "/assets/./../../secret")
                                  ["srv"; "landing"]
                                  "/assets/./../../secret?download=1")
                           "/assets/./../../secret" eq_refl)))
    by discriminate.
  reflexivity.
Defined.

(** ** Statistics of GET visits recorded by [server.py] *)

Lemma server_get_dated (now : Datetime.datetime) (req : request) :
  Datetime.valid_datetime now ->
  dated (Server.get_entry now req) (Datetime.date_of now).
Proof. intros Hv. exists now. repeat split; apply Hv. Qed.

Lemma visit_path_routes (p : string) :
  visit_path p = true ->
  String.eqb p "/health" = false /\ String.eqb p "/api/stats" = false
  /\ String.eqb p "/favicon.ico" = false.
Proof.
  unfold visit_path. intros H. apply orb_true_iff in H.
  destruct H as [H|H]; apply String.eqb_eq in H; subst p; repeat split.
Qed.

Lemma server_get_row_of (s : served) (t : Sqlite.table) (w : world) :
  fst (fst s) = GET -> visit_path (url_path (snd (fst s))) = true ->
  mkdir_error (snd s) = None -> log_write_error (snd s) = None ->
  sqlite_insert_error (snd s) = None ->
  PG_CONN w = None -> SQLITE_CONN w = Some t ->
  let w' := fst (Server.serve (fst (fst s)) (snd (fst s)) (snd s) w) in
  PG_CONN w' = None
  /\ SQLITE_CONN w'
     = Some (t ++ [stored_row (Server.get_entry (utcnow (snd s))
                                 (snd (fst s)))])%list.
Proof.
  destruct s as [[m req] ev]. cbn [fst snd].
  intros -> Hpath Hmk Hlog Herr Hpg Hsq. cbv zeta.
  unfold Server.serve, Server.do_GET.
  destruct (visit_path_routes _ Hpath) as (-> & -> & ->). rewrite Hpath.
  pose (entry := Server.get_entry (utcnow ev) req).
  destruct (server_send_to_logtail_isolated entry ev w) as (w1 & Hs & _).
  destruct (adds_stores_unchanged 1 0 _ ev w (adds_server_send_to_logtail entry))
    as [Hpg1 Hsq1].
  rewrite Hs in Hpg1, Hsq1. simpl in Hpg1, Hsq1.
  destruct (server_append_file_writable entry ev w1 Hmk Hlog) as (w2 & Ha & _).
  destruct (adds_stores_unchanged 0 1 _ ev w1 (adds_server_append_file entry))
    as [Hpg2 Hsq2].
  rewrite Ha in Hpg2, Hsq2. simpl in Hpg2, Hsq2.
  assert (Hpg' : PG_CONN w2 = None) by congruence.
  assert (Hsq' : SQLITE_CONN w2 = Some t) by congruence.
  destruct (server_get_insertable (utcnow ev) req) as [xs Hxs].
  fold entry in Hxs.
  unfold bind, ret, ask. cbv beta iota. fold entry. rewrite Hs, Ha.
  rewrite (write_db_embedded entry ev w2 t xs Hpg' Hsq' Herr Hxs). simpl.
  unfold stored_row. rewrite Hxs, Hpg'. split; reflexivity.
Qed.

Lemma server_get_rows (reqs : list served) :
  forall (w : world) (t : Sqlite.table),
    (forall s, In s reqs ->
               fst (fst s) = GET /\ visit_path (url_path (snd (fst s))) = true
               /\ mkdir_error (snd s) = None /\ log_write_error (snd s) = None
               /\ sqlite_insert_error (snd s) = None) ->
    PG_CONN w = None -> SQLITE_CONN w = Some t ->
    SQLITE_CONN (run Server.serve reqs w)
    = Some (t ++ map (fun s => stored_row (Server.get_entry (utcnow (snd s))
                                              (snd (fst s)))) reqs)%list
    /\ PG_CONN (run Server.serve reqs w) = None.
Proof.
  induction reqs as [|s reqs IH]; intros w t Hall Hpg Hsq.
  - simpl. rewrite app_nil_r. split; assumption.
  - destruct (Hall s (or_introl eq_refl)) as (Hm & Hp & Hk & Hl & He).
    destruct (server_get_row_of s t w Hm Hp Hk Hl He Hpg Hsq) as [Hpg' Hsq'].
    destruct s as [[m req] ev]. simpl in *.
    destruct (IH _ _ (fun s' H' => Hall s' (or_intror H')) Hpg' Hsq')
      as [Hrows Hpgr].
    split; [|exact Hpgr]. rewrite Hrows, <- app_assoc. reflexivity.
Qed.

Lemma stored_sessions_server (reqs : list served) :
  Sqlite.non_null
    (map (fun r => Sqlite.column_text (Sqlite.cell "sessionId" r))
         (map (fun s => stored_row (Server.get_entry (utcnow (snd s))
                                       (snd (fst s)))) reqs))
  = map session_of reqs.
Proof.
  induction reqs as [|s reqs IH]; [reflexivity|].
  cbn [map].
  rewrite (stored_session _ (session_of s) (server_get_insertable _ _));
    [|reflexivity].
  cbn [Sqlite.non_null]. rewrite IH. reflexivity.
Qed.

(** X2: the statistics of GET visits recorded by [server.py], on either
    of its two visit paths.  As long as the log file can be written and the
    embedded engine works, [get_stats] after any sequence of such requests
    into an empty store returns the counts one reads off the requests:
    their number, the numbers per [event] parameter, the number of
    distinct [sid] values, and the numbers of visits and clicks received
    on the UTC day of the query. *)
Theorem stats_of_get_visits_server :
  forall (reqs : list served) (ev : env) (w0 : world),
    PG_CONN w0 = None -> SQLITE_CONN w0 = Some [] ->
    (forall s, In s reqs ->
               fst (fst s) = GET /\ visit_path (url_path (snd (fst s))) = true
               /\ mkdir_error (snd s) = None /\ log_write_error (snd s) = None
               /\ sqlite_insert_error (snd s) = None
               /\ Datetime.valid_datetime (utcnow (snd s))) ->
    (forall q, sqlite_select_error ev q = None) ->
    Datetime.valid_datetime (utcnow ev) ->
    snd (get_stats ev (run Server.serve reqs w0))
    = Ok (expected_stats (Datetime.date_of (utcnow ev)) reqs).
Proof.
  intros reqs ev w0 Hpg Hsq Hall Hsel [Htoday _].
  destruct (server_get_rows reqs w0 []) as [Hrows Hpg']; try assumption.
  { intros s Hs. destruct (Hall s Hs) as (H1 & H2 & H3 & H4 & H5 & _). auto. }
  simpl in Hrows.
  rewrite (get_stats_embedded ev _ _ Hpg' Hrows Hsel). cbv zeta. cbn [snd].
  unfold expected_stats, tally. repeat f_equal.
  - unfold Sqlite.count_where. rewrite forallb_filter_id.
    + rewrite length_map. reflexivity.
    + apply forallb_forall. reflexivity.
  - apply count_where_map. intros s Hs.
    apply stored_event; [apply server_get_insertable|reflexivity].
  - apply count_where_map. intros s Hs.
    apply stored_event; [apply server_get_insertable|reflexivity].
  - apply count_where_map. intros s Hs.
    apply stored_event; [apply server_get_insertable|reflexivity].
  - unfold Sqlite.count_distinct. rewrite stored_sessions_server. reflexivity.
  - apply count_where_map. intros s Hs.
    destruct (Hall s Hs) as (_ & _ & _ & _ & _ & Hv).
    rewrite (stored_event _ (event_of s) "visit" (server_get_insertable _ _))
      by reflexivity.
    rewrite (stored_today_bool _ (day_of s) _ (server_get_insertable _ _)
               (server_get_dated _ _ Hv) Htoday).
    reflexivity.
  - apply count_where_map. intros s Hs.
    destruct (Hall s Hs) as (_ & _ & _ & _ & _ & Hv).
    rewrite (stored_event _ (event_of s) "click" (server_get_insertable _ _))
      by reflexivity.
    rewrite (stored_today_bool _ (day_of s) _ (server_get_insertable _ _)
               (server_get_dated _ _ Hv) Htoday).
    reflexivity.
Qed.

Lemma stats_of_get_visits_server_witness :
  snd (get_stats calm
         (run Server.serve
            [ get_visit now0 "exit" "a"; get_visit yesterday0 "click" "a" ]
            embedded_world))
  = Ok [ ("totalEvents", 2%Z); ("visits", 0%Z); ("clicks", 1%Z);
         ("exits", 1%Z); ("uniqueSessions", 1%Z); ("visitsToday", 0%Z);
         ("clicksToday", 0%Z) ].
Proof.
  rewrite (stats_of_get_visits_server
             [ get_visit now0 "exit" "a"; get_visit yesterday0 "click" "a" ]
             calm embedded_world eq_refl eq_refl).
  - reflexivity.
  - intros s Hs. simpl in Hs.
    destruct Hs as [<-|[<-|[]]]; repeat split;
      try apply now0_valid; apply yesterday0_valid.
  - reflexivity.
  - exact now0_valid.
Defined.

(** ** One backend for the life of the process *)

(** X14: whichever backend the selection chose, exactly one of the two
    connections is set when the import ends, and the same one -- and only
    that one -- is set after any sequence of requests served by either
    front-end: no request handler ever opens, closes or swaps a backend. *)
Theorem backend_never_changes :
  forall (token POSTGRES_DSN : option string) (b : boot_env) (w0 : world),
    select_backend token POSTGRES_DSN b = Ok w0 ->
    exists v,
      active w0 = Some v
      /\ forall reqs,
           active (run App.serve reqs w0) = Some v
           /\ active (run Server.serve reqs w0) = Some v.
Proof.
  intros token POSTGRES_DSN b w0 H. unfold select_backend in H.
  assert (Hv : exists v, active w0 = Some v).
  { destruct (try_postgres POSTGRES_DSN b) as [[c|]|e]; simpl in H.
    - injection H as <-. exists Networked. reflexivity.
    - destruct (init_sqlite b); [|discriminate H].
      injection H as <-. exists Embedded. reflexivity.
    - destruct (init_sqlite b); [|discriminate H].
      injection H as <-. exists Embedded. reflexivity. }
  destruct Hv as [v Hv]. exists v. split; [exact Hv|].
  intros reqs. rewrite <- Hv. split.
  - apply active_conns, run_keeps, keeps_app_serve.
  - apply active_conns, run_keeps, keeps_server_serve.
Qed.

Lemma backend_never_changes_witness :
  exists v,
    active (mkworld None (Some []) None [] [] [] []) = Some v
    /\ forall reqs,
         active (run App.serve reqs (mkworld None (Some []) None [] [] [] []))
         = Some v
         /\ active (run Server.serve reqs
                      (mkworld None (Some []) None [] [] [] []))
            = Some v.
Proof.
  exact (backend_never_changes None (Some "postgresql://db/visits") boot_ready
           (mkworld None (Some []) None [] [] [] []) eq_refl).
Defined.
